(** * 2apifare: IP admission and accounting, upstream proxy engine

    A shallow embedding of [src/ip_manager.py] (class [IPManager]) and of
    the retry loop and the streaming generator of [src/google_chat_api.py],
    with the properties of the design document stated over them.

    Conventions of the embedding.
    - A Python [dict] with string keys is a [gmap string _]; a key that may
      be absent from a record-like dict is an [option] field, and
      [d.get(k, v)] is [default v (k d)].
    - [time.time()] is an epoch value in [Z] (whole seconds); one call of a
      method reads the clock once.  The formatted wall-clock strings
      ([strftime]) are inputs as well.
    - The lock, the scheduler and file-system failures are not modelled:
      every method runs from start to end on the state it is given. *)

From stdpp Require Import gmap strings list fin_maps pretty sorting.
From Stdlib Require Import QArith.

Open Scope Z_scope.

(** ** Python truthiness of the optional arguments *)

Definition truthy_str (o : option string) : bool :=
  match o with
  | Some s => negb (bool_decide (s = ""))
  | None => false
  end.

Definition truthy_int (o : option Z) : bool :=
  match o with
  | Some n => negb (n =? 0)
  | None => false
  end.

Module IPManager.

(** *** The clock, as one method call sees it *)

Record clock := {
  time_time : Z;        (* time.time() *)
  today_str : string;   (* datetime.now(UTC+8).strftime("%Y-%m-%d") *)
  stamp_str : string    (* datetime.now(UTC+8).strftime("%Y-%m-%d %H:%M:%S") *)
}.

(** *** One entry of [_ip_cache["ips"]] *)

Record ip_data := {
  first_seen : option string;
  last_seen : option string;
  last_request_time : option Z;
  total_requests : option Z;
  today_requests : option Z;
  today_date : option string;
  status : option string;
  rate_limit_seconds : option Z;
  banned_time : option Z;
  banned_at : option string;
  auto_unbanned_time : option string;
  location : option string;
  user_agents : option (list string);
  models_used : option (gmap string Z);
  endpoints : option (gmap string Z)
}.

Definition set_last_seen (v : string) (d : ip_data) : ip_data :=
  {| first_seen := first_seen d; last_seen := Some v;
     last_request_time := last_request_time d;
     total_requests := total_requests d; today_requests := today_requests d;
     today_date := today_date d; status := status d;
     rate_limit_seconds := rate_limit_seconds d; banned_time := banned_time d;
     banned_at := banned_at d; auto_unbanned_time := auto_unbanned_time d;
     location := location d; user_agents := user_agents d;
     models_used := models_used d; endpoints := endpoints d |}.

Definition set_last_request_time (v : Z) (d : ip_data) : ip_data :=
  {| first_seen := first_seen d; last_seen := last_seen d;
     last_request_time := Some v;
     total_requests := total_requests d; today_requests := today_requests d;
     today_date := today_date d; status := status d;
     rate_limit_seconds := rate_limit_seconds d; banned_time := banned_time d;
     banned_at := banned_at d; auto_unbanned_time := auto_unbanned_time d;
     location := location d; user_agents := user_agents d;
     models_used := models_used d; endpoints := endpoints d |}.

Definition set_total_requests (v : Z) (d : ip_data) : ip_data :=
  {| first_seen := first_seen d; last_seen := last_seen d;
     last_request_time := last_request_time d;
     total_requests := Some v; today_requests := today_requests d;
     today_date := today_date d; status := status d;
     rate_limit_seconds := rate_limit_seconds d; banned_time := banned_time d;
     banned_at := banned_at d; auto_unbanned_time := auto_unbanned_time d;
     location := location d; user_agents := user_agents d;
     models_used := models_used d; endpoints := endpoints d |}.

Definition set_today_requests (v : Z) (d : ip_data) : ip_data :=
  {| first_seen := first_seen d; last_seen := last_seen d;
     last_request_time := last_request_time d;
     total_requests := total_requests d; today_requests := Some v;
     today_date := today_date d; status := status d;
     rate_limit_seconds := rate_limit_seconds d; banned_time := banned_time d;
     banned_at := banned_at d; auto_unbanned_time := auto_unbanned_time d;
     location := location d; user_agents := user_agents d;
     models_used := models_used d; endpoints := endpoints d |}.

Definition set_today_date (v : string) (d : ip_data) : ip_data :=
  {| first_seen := first_seen d; last_seen := last_seen d;
     last_request_time := last_request_time d;
     total_requests := total_requests d; today_requests := today_requests d;
     today_date := Some v; status := status d;
     rate_limit_seconds := rate_limit_seconds d; banned_time := banned_time d;
     banned_at := banned_at d; auto_unbanned_time := auto_unbanned_time d;
     location := location d; user_agents := user_agents d;
     models_used := models_used d; endpoints := endpoints d |}.

Definition set_status (v : string) (d : ip_data) : ip_data :=
  {| first_seen := first_seen d; last_seen := last_seen d;
     last_request_time := last_request_time d;
     total_requests := total_requests d; today_requests := today_requests d;
     today_date := today_date d; status := Some v;
     rate_limit_seconds := rate_limit_seconds d; banned_time := banned_time d;
     banned_at := banned_at d; auto_unbanned_time := auto_unbanned_time d;
     location := location d; user_agents := user_agents d;
     models_used := models_used d; endpoints := endpoints d |}.

Definition set_rate_limit_seconds (v : Z) (d : ip_data) : ip_data :=
  {| first_seen := first_seen d; last_seen := last_seen d;
     last_request_time := last_request_time d;
     total_requests := total_requests d; today_requests := today_requests d;
     today_date := today_date d; status := status d;
     rate_limit_seconds := Some v; banned_time := banned_time d;
     banned_at := banned_at d; auto_unbanned_time := auto_unbanned_time d;
     location := location d; user_agents := user_agents d;
     models_used := models_used d; endpoints := endpoints d |}.

Definition set_banned_time (v : Z) (d : ip_data) : ip_data :=
  {| first_seen := first_seen d; last_seen := last_seen d;
     last_request_time := last_request_time d;
     total_requests := total_requests d; today_requests := today_requests d;
     today_date := today_date d; status := status d;
     rate_limit_seconds := rate_limit_seconds d; banned_time := Some v;
     banned_at := banned_at d; auto_unbanned_time := auto_unbanned_time d;
     location := location d; user_agents := user_agents d;
     models_used := models_used d; endpoints := endpoints d |}.

Definition set_banned_at (v : string) (d : ip_data) : ip_data :=
  {| first_seen := first_seen d; last_seen := last_seen d;
     last_request_time := last_request_time d;
     total_requests := total_requests d; today_requests := today_requests d;
     today_date := today_date d; status := status d;
     rate_limit_seconds := rate_limit_seconds d; banned_time := banned_time d;
     banned_at := Some v; auto_unbanned_time := auto_unbanned_time d;
     location := location d; user_agents := user_agents d;
     models_used := models_used d; endpoints := endpoints d |}.

Definition set_auto_unbanned_time (v : string) (d : ip_data) : ip_data :=
  {| first_seen := first_seen d; last_seen := last_seen d;
     last_request_time := last_request_time d;
     total_requests := total_requests d; today_requests := today_requests d;
     today_date := today_date d; status := status d;
     rate_limit_seconds := rate_limit_seconds d; banned_time := banned_time d;
     banned_at := banned_at d; auto_unbanned_time := Some v;
     location := location d; user_agents := user_agents d;
     models_used := models_used d; endpoints := endpoints d |}.

Definition set_user_agents (v : list string) (d : ip_data) : ip_data :=
  {| first_seen := first_seen d; last_seen := last_seen d;
     last_request_time := last_request_time d;
     total_requests := total_requests d; today_requests := today_requests d;
     today_date := today_date d; status := status d;
     rate_limit_seconds := rate_limit_seconds d; banned_time := banned_time d;
     banned_at := banned_at d; auto_unbanned_time := auto_unbanned_time d;
     location := location d; user_agents := Some v;
     models_used := models_used d; endpoints := endpoints d |}.

Definition set_models_used (v : gmap string Z) (d : ip_data) : ip_data :=
  {| first_seen := first_seen d; last_seen := last_seen d;
     last_request_time := last_request_time d;
     total_requests := total_requests d; today_requests := today_requests d;
     today_date := today_date d; status := status d;
     rate_limit_seconds := rate_limit_seconds d; banned_time := banned_time d;
     banned_at := banned_at d; auto_unbanned_time := auto_unbanned_time d;
     location := location d; user_agents := user_agents d;
     models_used := Some v; endpoints := endpoints d |}.

Definition set_endpoints (v : gmap string Z) (d : ip_data) : ip_data :=
  {| first_seen := first_seen d; last_seen := last_seen d;
     last_request_time := last_request_time d;
     total_requests := total_requests d; today_requests := today_requests d;
     today_date := today_date d; status := status d;
     rate_limit_seconds := rate_limit_seconds d; banned_time := banned_time d;
     banned_at := banned_at d; auto_unbanned_time := auto_unbanned_time d;
     location := location d; user_agents := user_agents d;
     models_used := models_used d; endpoints := Some v |}.

(** *** The ban-operation file and the manager *)

(** [toml.loads] of [ban_operations.toml]: the table [operators], when the
    file has one, maps an operator IP to its list of epoch stamps. *)
Record ban_data := {
  operators : option (gmap string (list Z))
}.

(** [ip_cache] is the table [_ip_cache["ips"]] ([None]: the cache has no
    key ["ips"]); [ban_operations_file] is the parsed content of the
    ban-operation file ([None]: the file does not exist). *)
Record manager := {
  ip_cache : option (gmap string ip_data);
  cache_dirty : bool;
  ban_operations_file : option ban_data
}.

Definition with_ips (ips : gmap string ip_data) (m : manager) : manager :=
  {| ip_cache := Some ips; cache_dirty := cache_dirty m;
     ban_operations_file := ban_operations_file m |}.

Definition with_dirty (m : manager) : manager :=
  {| ip_cache := ip_cache m; cache_dirty := true;
     ban_operations_file := ban_operations_file m |}.

Definition with_ban_file (f : option ban_data) (m : manager) : manager :=
  {| ip_cache := ip_cache m; cache_dirty := cache_dirty m;
     ban_operations_file := f |}.

(** *** Periodic maintenance *)

(** [banned_time > 0 and (current_time - banned_time) >= 86400] *)
Definition ban_expired (clk : clock) (d : ip_data) : bool :=
  let banned_time := default 0 (banned_time d) in
  (0 <? banned_time) && (86400 <=? time_time clk - banned_time).

Definition unban_due (clk : clock) (d : ip_data) : bool :=
  bool_decide (status d = Some "banned") && ban_expired clk d.

(** The body of the loop of [_auto_unban_expired_ips] for one record. *)
Definition auto_unban_one (clk : clock) (d : ip_data) : ip_data :=
  if unban_due clk d
  then set_auto_unbanned_time (stamp_str clk) (set_status "active" d)
  else d.

Definition _auto_unban_expired_ips (clk : clock) (m : manager) : manager :=
  match ip_cache m with
  | None => m
  | Some ips =>
      let unban_count :=
        length (filter (λ kv : string * ip_data, unban_due clk kv.2 = true)
                       (map_to_list ips)) in
      let m' := with_ips (auto_unban_one clk <$> ips) m in
      if (0 <? unban_count)%nat then with_dirty m' else m'
  end.

Definition three_days : Z := 3 * 86400.
Definition five_days : Z := 5 * 86400.
Definition seven_days : Z := 7 * 86400.

(** The decision taken in the loop of [_cleanup_old_ips] for one record:
    the two [continue] guards, then the three tiers. *)
Definition should_remove (current_time : Z) (d : ip_data) : bool :=
  let last_request := default 0 (last_request_time d) in
  let status := default "active" (status d) in
  let total_requests := default 0 (total_requests d) in
  if bool_decide (status = "banned") then false
  else if last_request =? 0 then false
  else
    let inactive_time := current_time - last_request in
    if 300 <=? total_requests then seven_days <=? inactive_time
    else if 50 <=? total_requests then five_days <=? inactive_time
    else three_days <=? inactive_time.

(** First loop of [_cleanup_old_ips]: the keys collected for removal. *)
Definition ips_to_remove (current_time : Z) (ips : gmap string ip_data)
  : list string :=
  (filter (λ kv : string * ip_data, should_remove current_time kv.2 = true)
          (map_to_list ips)).*1.

(** Second loop: [del self._ip_cache["ips"][ip]] for each collected key. *)
Definition remove_all (keys : list string) (ips : gmap string ip_data)
  : gmap string ip_data :=
  foldl (λ acc ip, delete ip acc) ips keys.

Definition _cleanup_old_ips (clk : clock) (m : manager) : manager :=
  match ip_cache m with
  | None => m
  | Some ips =>
      let to_remove := ips_to_remove (time_time clk) ips in
      let m' := with_ips (remove_all to_remove ips) m in
      match to_remove with
      | [] => m'
      | _ :: _ => with_dirty m'
      end
  end.

(** *** Admission *)

(** The rate-limit test shared by [check_ip_allowed] and [record_request]. *)
Definition rate_limited_now (clk : clock) (d : ip_data) : bool :=
  bool_decide (status d = Some "rate_limited")
  && (time_time clk - default 0 (last_request_time d)
      <? default 60 (rate_limit_seconds d)).

Definition check_ip_allowed (clk : clock) (ip : string) (m : manager)
  : bool * manager :=
  match ip_cache m with
  | None => (true, m)
  | Some ips =>
      match ips !! ip with
      | None => (true, m)
      | Some d =>
          if bool_decide (status d = Some "banned") then
            if ban_expired clk d then
              let d' := set_auto_unbanned_time (stamp_str clk)
                          (set_status "active" d) in
              let m' := with_dirty (with_ips (<[ip := d']> ips) m) in
              if rate_limited_now clk d' then (false, m') else (true, m')
            else (false, m)
          else if rate_limited_now clk d then (false, m) else (true, m)
      end
  end.

(** *** Recording *)

Definition new_ip_data (clk : clock) (location : string) : ip_data :=
  {| first_seen := Some (stamp_str clk); last_seen := None;
     last_request_time := None;
     total_requests := Some 0; today_requests := Some 0;
     today_date := Some (today_str clk); status := Some "active";
     rate_limit_seconds := None; banned_time := None; banned_at := None;
     auto_unbanned_time := None; location := Some location;
     user_agents := Some []; models_used := Some ∅; endpoints := Some ∅ |}.

(** The day roll-over of [record_request]. *)
Definition reset_daily (clk : clock) (d : ip_data) : ip_data :=
  if bool_decide (default "" (today_date d) ≠ today_str clk) then
    set_models_used ∅ (set_today_date (today_str clk) (set_today_requests 0 d))
  else d.

Definition update_counters (clk : clock) (d : ip_data) : ip_data :=
  set_last_seen (stamp_str clk)
    (set_last_request_time (time_time clk)
       (set_today_requests (default 0 (today_requests d) + 1)
          (set_total_requests (default 0 (total_requests d) + 1) d))).

(** [user_agents[-10:]] *)
Definition last_ten (l : list string) : list string :=
  drop (length l - 10)%nat l.

Definition note_user_agent (user_agent : option string) (d : ip_data)
  : ip_data :=
  match user_agent with
  | Some ua =>
      if truthy_str user_agent
         && negb (bool_decide (ua ∈ default [] (user_agents d)))
      then set_user_agents (last_ten (default [] (user_agents d) ++ [ua])) d
      else d
  | None => d
  end.

Definition bump (k : string) (counts : gmap string Z) : gmap string Z :=
  <[k := default 0 (counts !! k) + 1]> counts.

Definition note_model (model : option string) (d : ip_data) : ip_data :=
  match model with
  | Some mo =>
      if truthy_str model
      then set_models_used (bump mo (default ∅ (models_used d))) d
      else d
  | None => d
  end.

Definition note_endpoint (endpoint : string) (d : ip_data) : ip_data :=
  set_endpoints (bump endpoint (default ∅ (endpoints d))) d.

(** The admission test written out in [record_request] (it does not call
    [check_ip_allowed]): [true] when the method returns [False] early. *)
Definition record_refused (clk : clock) (d : ip_data) : bool :=
  if bool_decide (status d = Some "banned") then true
  else rate_limited_now clk d.

Section Recording.
(** [_get_ip_location]: the resolver over the external providers. *)
Variable _get_ip_location : string → string.

Definition record_request (clk : clock) (ip endpoint : string)
    (user_agent model : option string) (m : manager) : bool * manager :=
  let ips := default ∅ (ip_cache m) in
  let m0 := with_ips ips m in
  let refused :=
    match ips !! ip with
    | Some d => record_refused clk d
    | None => false
    end in
  if refused then (false, m0)
  else
    let d0 :=
      match ips !! ip with
      | Some d => d
      | None => new_ip_data clk (_get_ip_location ip)
      end in
    let d1 := reset_daily clk d0 in
    let d2 := update_counters clk d1 in
    let d3 := note_user_agent user_agent d2 in
    let d4 := note_model model d3 in
    let d5 := note_endpoint endpoint d4 in
    (true, with_dirty (with_ips (<[ip := d5]> ips) m)).
End Recording.

(** *** Ban operations of the operators *)

Definition time_window : Z := 3600.
Definition max_bans : nat := 3.

(** [[ts for ts in timestamps if current_time - ts < time_window]] *)
Definition valid_timestamps (current_time : Z) (timestamps : list Z)
  : list Z :=
  filter (λ ts, current_time - ts < time_window) timestamps.

(** One turn of the loop of [_load_ban_operations] over
    [(cleaned_operators, removed_count)]. *)
Definition compact_step (current_time : Z)
    (acc : gmap string (list Z) * nat) (kv : string * list Z)
  : gmap string (list Z) * nat :=
  match valid_timestamps current_time kv.2 with
  | [] => (acc.1, S acc.2)
  | v :: vs => (<[kv.1 := v :: vs]> acc.1, acc.2)
  end.

Definition compact (current_time : Z) (ops : gmap string (list Z))
  : gmap string (list Z) * nat :=
  foldl (compact_step current_time) (∅, 0%nat) (map_to_list ops).

Definition empty_ban_data : ban_data := {| operators := Some ∅ |}.

(** Returns the loaded data and the file as the call leaves it
    ([_save_ban_operations] writes the whole file). *)
Definition _load_ban_operations (clk : clock) (file : option ban_data)
  : ban_data * option ban_data :=
  let loaded := default empty_ban_data file in
  let '(cleaned_operators, removed_count) :=
    compact (time_time clk) (default ∅ (operators loaded)) in
  if (0 <? removed_count)%nat then
    let cleaned := {| operators := Some cleaned_operators |} in
    (cleaned, Some cleaned)
  else (loaded, file).

Definition _record_ban_operation (clk : clock) (operator_ip : string)
    (file : option ban_data) : option ban_data :=
  let '(loaded, _) := _load_ban_operations clk file in
  let ops := default ∅ (operators loaded) in
  let records := default [] (ops !! operator_ip) in
  Some {| operators :=
            Some (<[operator_ip := records ++ [time_time clk]]> ops) |}.

Definition too_frequent_msg (minutes : Z) : string :=
  "封禁操作过于频繁，请在 " +:+ pretty minutes
  +:+ " 分钟后再试（1小时内最多封禁3次）".

Definition _check_ban_operation_limit (clk : clock) (operator_ip : string)
    (file : option ban_data) : (bool * string) * option ban_data :=
  let '(loaded, file') := _load_ban_operations clk file in
  let operator_records :=
    default [] (default ∅ (operators loaded) !! operator_ip) in
  let ban_count := length operator_records in
  if (max_bans <=? ban_count)%nat then
    let oldest_timestamp := default 0 (head operator_records) in
    let remaining_time := time_window - (time_time clk - oldest_timestamp) in
    let minutes := remaining_time `div` 60 in
    ((false, too_frequent_msg minutes), file')
  else ((true, ""), file').

(** *** Status mutation *)

Definition invalid_status_msg : string := "无效的状态类型".

Definition too_few_requests_msg (today_requests : Z) : string :=
  "今日请求仅 " +:+ pretty today_requests
  +:+ " 次，少于80次不能封禁（保护每位用户体验）".

Definition valid_status (status : string) : bool :=
  bool_decide (status ∈ ["active"; "banned"; "rate_limited"]).

(** The record written for an IP that [set_ip_status] has not seen. *)
Definition fresh_ip_data (clk : clock) (location : string) : ip_data :=
  {| first_seen := Some (stamp_str clk); last_seen := None;
     last_request_time := None;
     total_requests := Some 0; today_requests := Some 0;
     today_date := None; status := None;
     rate_limit_seconds := None; banned_time := None; banned_at := None;
     auto_unbanned_time := None; location := Some location;
     user_agents := None; models_used := None; endpoints := None |}.

(** Check 1 of the ban branch: [Some n] when the ban is refused because the
    stored record has [n < 80] requests today.  An IP without a record is
    not looked at. *)
Definition user_protection (ips : gmap string ip_data) (ip : string)
  : option Z :=
  match ips !! ip with
  | Some d =>
      let today_requests := default 0 (today_requests d) in
      if today_requests <? 80 then Some today_requests else None
  | None => None
  end.

Section StatusMutation.
Variable _get_ip_location : string → string.

(** The assignments of [set_ip_status] made under the lock once the
    guards have passed. *)
Definition apply_status (clk : clock) (ip status : string)
    (rate_limit_seconds : option Z) (ips : gmap string ip_data)
  : gmap string ip_data :=
  let d0 :=
    match ips !! ip with
    | Some d => d
    | None => fresh_ip_data clk (_get_ip_location ip)
    end in
  let d1 := set_status status d0 in
  let d2 :=
    if bool_decide (status = "banned")
    then set_banned_at (stamp_str clk) (set_banned_time (time_time clk) d1)
    else d1 in
  let d3 :=
    match rate_limit_seconds with
    | Some secs =>
        if bool_decide (status = "rate_limited")
           && truthy_int rate_limit_seconds
        then set_rate_limit_seconds secs d2
        else d2
    | None => d2
    end in
  <[ip := d3]> ips.

Definition set_ip_status (clk : clock) (ip status : string)
    (rate_limit_seconds : option Z) (operator_ip : option string)
    (m : manager) : (bool * string) * manager :=
  if negb (valid_status status) then ((false, invalid_status_msg), m)
  else
    let ips := default ∅ (ip_cache m) in
    let m0 := with_ips ips m in
    let banning := bool_decide (status = "banned") in
    match (if banning then user_protection ips ip else None) with
    | Some today_requests =>
        ((false, too_few_requests_msg today_requests), m0)
    | None =>
        let '((allowed, error_msg), file1) :=
          match operator_ip with
          | Some op =>
              if banning && truthy_str operator_ip
              then _check_ban_operation_limit clk op (ban_operations_file m)
              else ((true, ""), ban_operations_file m)
          | None => ((true, ""), ban_operations_file m)
          end in
        if negb allowed then ((false, error_msg), with_ban_file file1 m0)
        else
          let m1 :=
            with_dirty
              (with_ips (apply_status clk ip status rate_limit_seconds ips)
                 (with_ban_file file1 m0)) in
          let m2 :=
            match operator_ip with
            | Some op =>
                if banning && truthy_str operator_ip
                then with_ban_file
                       (_record_ban_operation clk op file1) m1
                else m1
            | None => m1
            end in
          ((true, ""), m2)
    end.
End StatusMutation.

End IPManager.

(** ** Effects of the proxy engine

    The credential manager, the HTTP client and the usage statistics are
    collaborators of [google_chat_api.py]: a call to one of them is an
    [event] of the run, and what it returns is read from the state the run
    threads through.  A computation may also leave by a Python exception. *)

Module Effect.

Inductive event :=
  | GetValidCredential
  | RecordApiCallResult (file : string) (success : bool) (code : option Z)
  | ForceRotateCredential
  | SetCredDisabled (file : string)
  | ForceRefreshCurrentToken
  | RecordSuccessfulCall (file model : string)
  | CreateStreamingClient
  | StreamEnter (url token project : string)
  | StreamExit
  | ClientClose
  | Post (url token project : string)
  | Sleep (seconds : Q)
  | Yield (frame : string).

(** [Exception msg] is caught by [except Exception]; [GeneratorExit] and
    [CancelledError] derive from [BaseException] only and are not. *)
Inductive exn :=
  | Exception (msg : string)
  | GeneratorExit
  | CancelledError.

Inductive outcome (A : Type) :=
  | Ok (a : A)
  | Raised (e : exn).
Arguments Ok {A} a.
Arguments Raised {A} e.

Definition M (S A : Type) : Type := S → outcome A * list event * S.

Definition ret {S A} (a : A) : M S A := λ s, (Ok a, [], s).

Definition bind {S A B} (m : M S A) (k : A → M S B) : M S B :=
  λ s,
    match m s with
    | (Ok a, evs, s') =>
        let '(r, evs', s'') := k a s' in (r, evs ++ evs', s'')
    | (Raised e, evs, s') => (Raised e, evs, s')
    end.

Definition raise {S A} (e : exn) : M S A := λ s, (Raised e, [], s).

Definition emit {S} (e : event) : M S unit := λ s, (Ok tt, [e], s).

Definition gets {S A} (f : S → A) : M S A := λ s, (Ok (f s), [], s).

Definition modify {S} (f : S → S) : M S unit := λ s, (Ok tt, [], f s).

(** [try: m except Exception as e: handler e] *)
Definition try_except {S A} (m : M S A) (handler : string → M S A) : M S A :=
  λ s,
    match m s with
    | (Raised (Exception msg), evs, s') =>
        let '(r, evs', s'') := handler msg s' in (r, evs ++ evs', s'')
    | other => other
    end.

(** [try: m finally: cleanup]; the cleanup blocks of the source swallow
    the exceptions of their calls and are taken to run to their end, so
    [cleanup] returns normally. *)
Definition try_finally {S A} (m : M S A) (cleanup : M S unit) : M S A :=
  λ s,
    match m s with
    | (r, evs, s') =>
        match cleanup s' with
        | (Ok _, evs', s'') => (r, evs ++ evs', s'')
        | (Raised e, evs', s'') => (Raised e, evs ++ evs', s'')
        end
    end.

(** Observers of a trace. *)
Definition is_refresh (e : event) : bool :=
  match e with
  | ForceRefreshCurrentToken => true
  | _ => false
  end.

Definition is_disable (e : event) : bool :=
  match e with
  | SetCredDisabled _ => true
  | _ => false
  end.



#[export] Instance M_ret {S} : MRet (M S) := λ A, ret.
#[export] Instance M_bind {S} : MBind (M S) := λ A B k m, bind m k.

End Effect.

(** ** The upstream proxy engine ([google_chat_api.py]) *)

Module GoogleChatApi.
Import Effect.

(** Parsed JSON, as [json.loads] returns it; an object carries the items
    of the Python dict. *)
#[warnings="-register-all"] Inductive json :=
  | JNull
  | JBool (b : bool)
  | JNumber (literal : string)
  | JString (s : string)
  | JArray (items : list json)
  | JObject (fields : list (string * json)).

Fixpoint json_get (k : string) (fields : list (string * json))
  : option json :=
  match fields with
  | [] => None
  | (k', v) :: rest => if bool_decide (k' = k) then Some v else json_get k rest
  end.

Definition is_json_string (s : string) (j : json) : bool :=
  match j with
  | JString s' => bool_decide (s' = s)
  | _ => false
  end.

(** Runtime configuration, read through the [config] getters. *)
Record config := {
  retry_429_max_retries : Z;
  retry_429_enabled : bool;
  retry_429_interval : Q;
  auto_ban_enabled : bool;
  auto_ban_error_codes : list Z;
  code_assist_endpoint : string
}.

Record credential_data := {
  token : option string;
  access_token : option string;
  project_id : option string
}.

(** What the upstream call of one attempt does: it raises, or answers with
    a status code and a body. *)
Inductive reply :=
  | TransportError (msg : string)
  | Reply (status_code : Z) (content : string).

(** The answers of the collaborators, in call order.  Past the end of a
    list the pool has no credential, a refresh fails and the transport
    raises. *)
Record script := {
  credentials : list (option (string * credential_data));
  refreshes : list bool;
  upstream : list reply
}.

(** The variables of [send_gemini_request] that a retry rebinds:
    [current_file], and the token and project that [headers] and
    [final_post_data] are built from. *)
Record locals := {
  current_file : string;
  bearer : string;
  project : string
}.

Inductive response :=
  | ErrorResponse (message : string) (status_code : Z)
  | ErrorStream (message : string) (status_code : Z)
  | JsonResponse (content : string)
  | PassThrough (content : string) (status_code : Z)
  | ManagedStream (file model : string).

(** The [code] field of the structured error object, when the response
    is one. *)
Definition error_code (r : response) : option Z :=
  match r with
  | ErrorResponse _ c | ErrorStream _ c => Some c
  | _ => None
  end.

(** How one turn of the retry loop ends: [continue] or [return]. *)
Inductive flow :=
  | Continue (l : locals)
  | Return (r : response).

Definition nonempty (s : string) : bool := negb (bool_decide (s = "")).

(** *** Calls to the collaborators *)

(** The script once the answer at the head of one of its lists is used. *)
Definition drop_credential (s : script) : script :=
  {| credentials := tail (credentials s); refreshes := refreshes s;
     upstream := upstream s |}.

Definition drop_refresh (s : script) : script :=
  {| credentials := credentials s; refreshes := tail (refreshes s);
     upstream := upstream s |}.

Definition drop_reply (s : script) : script :=
  {| credentials := credentials s; refreshes := refreshes s;
     upstream := tail (upstream s) |}.

Definition get_valid_credential
  : M script (option (string * credential_data)) :=
  _ ← emit GetValidCredential;
  r ← gets (λ s, head (credentials s));
  _ ← modify drop_credential;
  mret (mjoin r).

Definition force_refresh_current_token : M script bool :=
  _ ← emit ForceRefreshCurrentToken;
  r ← gets (λ s, head (refreshes s));
  _ ← modify drop_refresh;
  mret (default false r).

Definition upstream_call (call : event) : M script (Z * string) :=
  _ ← emit call;
  r ← gets (λ s, head (upstream s));
  _ ← modify drop_reply;
  match r with
  | Some (Reply code content) => mret (code, content)
  | Some (TransportError msg) => raise (Exception msg)
  | None => raise (Exception "connection failed")
  end.

Definition record_api_call_result (file : string) (success : bool)
    (code : option Z) : M script unit :=
  if nonempty file then emit (RecordApiCallResult file success code)
  else mret tt.

Definition sleep (seconds : Q) : M script unit := emit (Sleep seconds).

(** *** Helpers of the module *)

Definition no_token_msg : string :=
  "凭证中没有找到有效的访问令牌（token或access_token字段）".
Definition no_project_msg : string := "项目ID不存在于凭证数据中".

Definition _prepare_request_headers_and_payload (file : string)
    (cd : credential_data) : M script locals :=
  let token :=
    if truthy_str (token cd) then default "" (token cd)
    else default "" (access_token cd) in
  if negb (nonempty token) then raise (Exception no_token_msg)
  else
    let project_id := default "" (project_id cd) in
    if negb (nonempty project_id) then raise (Exception no_project_msg)
    else mret {| current_file := file; bearer := token;
                 project := project_id |}.

Definition _get_next_credential : M script (option locals) :=
  r ← get_valid_credential;
  match r with
  | Some (file, cd) =>
      l ← _prepare_request_headers_and_payload file cd; mret (Some l)
  | None => mret None
  end.

Section Engine.
Variable cfg : config.

Definition _check_should_auto_ban (code : Z) : bool :=
  auto_ban_enabled cfg && bool_decide (code ∈ auto_ban_error_codes cfg).

Definition _handle_auto_ban (file : string) : M script unit :=
  if nonempty file
  then _ ← emit (SetCredDisabled file); emit ForceRotateCredential
  else mret tt.

Definition _handle_api_error (code : Z) (file : string) : M script unit :=
  if code =? 429 then emit ForceRotateCredential
  else if _check_should_auto_ban code then
    _ ← (if nonempty file then emit (SetCredDisabled file) else mret tt);
    emit ForceRotateCredential
  else mret tt.

(** [attempt < max_retries] *)
Definition can_retry (attempt : nat) : bool :=
  Z.of_nat attempt <? retry_429_max_retries cfg.

(** [retry_interval * (2 ** attempt)] *)
Definition backoff (attempt : nat) : Q :=
  retry_429_interval cfg * inject_Z (2 ^ Z.of_nat attempt).

Definition short_delay : Q := 1 # 2.

Definition is_auth_code (code : Z) : bool :=
  bool_decide (code ∈ [400; 401; 404]).

(** The block both request paths run for an auto-ban status while a
    retry is left: refresh for 400/401/404, else (or when the refresh
    fails) disable and rotate. *)
Definition refresh_or_ban (code : Z) (l : locals) : M script flow :=
  refresh_success ←
    (if is_auth_code code then force_refresh_current_token
     else mret false);
  if (refresh_success : bool) then
    next ← _get_next_credential;
    _ ← sleep short_delay;
    mret (Continue (default l next))
  else
    _ ← _handle_auto_ban (current_file l);
    next ← _get_next_credential;
    _ ← sleep short_delay;
    mret (Continue (default l next)).

(** The 429 branch after the failed call is recorded. *)
Definition retry_429 (attempt : nat) (l : locals)
    (exhausted : response) : M script flow :=
  if retry_429_enabled cfg && can_retry attempt then
    _ ← emit ForceRotateCredential;
    next ← _get_next_credential;
    _ ← sleep (backoff attempt);
    mret (Continue (default l next))
  else mret (Return exhausted).

Definition rate_limit_msg : string :=
  "429 rate limit exceeded, max retries reached".

Definition api_error_msg (code : Z) : string :=
  "API error: " +:+ pretty code.

Definition is_server_error (code : Z) : bool :=
  (500 <=? code) && (code <? 600).
End Engine.

(** *** Responses *)

Definition data_prefix : string := "data: ".

Definition newline : string := String (Ascii.ascii_of_nat 10) EmptyString.

(** [chunk[len("data: "):]] *)
Definition after_data_prefix (s : string) : string :=
  String.substring 6 (String.length s - 6) s.

(** [f"data: {body}\n\n"] *)
Definition sse_frame (body : string) : string :=
  data_prefix +:+ body +:+ newline +:+ newline.

Definition error_object (message : string) (code : string) : json :=
  JObject [("error",
            JObject [("message", JString message);
                     ("type", JString "api_error");
                     ("code", JNumber code)])].

Section Json.
(** [json.loads] ([None]: [JSONDecodeError]) and the two uses of
    [json.dumps], the second with [separators=(',',':')]. *)
Variable json_loads : string → option json.
Variable json_dumps : json → string.
Variable json_dumps_compact : json → string.
Variable cfg : config.

Definition _handle_non_streaming_response (code : Z) (content : string)
    (model : string) (file : string) : M script response :=
  if code =? 200 then
    try_except
      (_ ← (if nonempty file then
              _ ← emit (RecordApiCallResult file true None);
              emit (RecordSuccessfulCall file model)
            else mret tt);
       let text :=
         if String.prefix data_prefix content
         then after_data_prefix content else content in
       match json_loads text with
       | Some (JObject fields) =>
           mret (JsonResponse
                   (json_dumps (default JNull (json_get "response" fields))))
       | Some _ => raise (Exception "object has no attribute 'get'")
       | None => raise (Exception "JSONDecodeError")
       end)
      (λ _, mret (PassThrough content code))
  else
    _ ← record_api_call_result file false (Some code);
    _ ← _handle_api_error cfg code file;
    mret (ErrorResponse (api_error_msg code) code).

(** The streaming branch of one turn of the loop, [try] ... [except
    Exception as e: client.aclose(); raise e] included. *)
Definition streaming_attempt (url model : string) (attempt : nat)
    (l : locals) : M script flow :=
  _ ← emit CreateStreamingClient;
  try_except
    ('(code, content) ←
       upstream_call (StreamEnter url (bearer l) (project l));
     if code =? 429 then
       _ ← record_api_call_result (current_file l) false (Some 429);
       _ ← emit StreamExit;
       _ ← emit ClientClose;
       retry_429 cfg attempt l (ErrorStream rate_limit_msg 429)
     else if negb (code =? 200) then
       _ ← record_api_call_result (current_file l) false (Some code);
       _ ← emit StreamExit;
       _ ← emit ClientClose;
       if is_server_error code && can_retry cfg attempt then
         _ ← sleep (backoff cfg attempt);
         mret (Continue l)
       else if _check_should_auto_ban cfg code && can_retry cfg attempt then
         refresh_or_ban code l
       else
         _ ← _handle_api_error cfg code (current_file l);
         mret (Return (ErrorStream (api_error_msg code) code))
     else mret (Return (ManagedStream (current_file l) model)))
    (λ msg, _ ← emit ClientClose; raise (Exception msg)).

(** The non-streaming branch of one turn of the loop. *)
Definition unary_attempt (url model : string) (attempt : nat)
    (l : locals) : M script flow :=
  '(code, content) ← upstream_call (Post url (bearer l) (project l));
  if code =? 429 then
    _ ← record_api_call_result (current_file l) false (Some 429);
    retry_429 cfg attempt l (ErrorResponse rate_limit_msg 429)
  else if negb (code =? 200) && is_server_error code
          && can_retry cfg attempt then
    _ ← sleep (backoff cfg attempt);
    mret (Continue l)
  else if negb (code =? 200) && _check_should_auto_ban cfg code
          && can_retry cfg attempt then
    _ ← record_api_call_result (current_file l) false (Some code);
    refresh_or_ban code l
  else
    r ← _handle_non_streaming_response code content model (current_file l);
    mret (Return r).

(** One turn of [for attempt in range(max_retries + 1)], with the outer
    [except Exception]. *)
Definition one_attempt (is_streaming : bool) (url model : string)
    (attempt : nat) (l : locals) : M script flow :=
  try_except
    (if is_streaming then streaming_attempt url model attempt l
     else unary_attempt url model attempt l)
    (λ msg,
       if can_retry cfg attempt then
         _ ← sleep (backoff cfg attempt);
         mret (Continue l)
       else mret (Return (ErrorResponse ("Request failed: " +:+ msg) 500))).

(** The loop: [turns] turns are left, the next one has index [attempt]. *)
Fixpoint attempts (is_streaming : bool) (url model : string)
    (turns attempt : nat) (l : locals) : M script response :=
  match turns with
  | O => mret (ErrorResponse "Max retries exceeded" 429)
  | S turns' =>
      f ← one_attempt is_streaming url model attempt l;
      match f with
      | Continue l' => attempts is_streaming url model turns' (S attempt) l'
      | Return r => mret r
      end
  end.

Definition target_url (is_streaming : bool) : string :=
  let action :=
    if is_streaming then "streamGenerateContent" else "generateContent" in
  code_assist_endpoint cfg +:+ "/v1internal:" +:+ action
  +:+ (if is_streaming then "?alt=sse" else "").

(** [has_manager] is the truth value of the argument [credential_manager];
    [model] is [payload.get("model", "")]. *)
Definition send_gemini_request (model : string) (is_streaming : bool)
    (has_manager : bool) : M script response :=
  if negb has_manager
  then mret (ErrorResponse "Credential manager not provided" 500)
  else
    init ←
      try_except
        (r ← get_valid_credential;
         match r with
         | Some (file, cd) =>
             l ← _prepare_request_headers_and_payload file cd;
             mret (inl l)
         | None =>
             mret (inr (ErrorResponse "No valid credentials available" 500))
         end)
        (λ msg, mret (inr (ErrorResponse msg 500)));
    match init with
    | inl l =>
        attempts is_streaming (target_url is_streaming) model
          (Z.to_nat (retry_429_max_retries cfg + 1)) 0 l
    | inr r => mret r
    end.

(** *** The generator of a successful streaming response *)

(** What awaiting the next item of [resp.aiter_lines()] brings: a line,
    an exception of the transport, or the cancellation of the task; the
    end of the list is the end of the stream. *)
Inductive line_event :=
  | Line (chunk : string)
  | LineError (msg : string)
  | LineCancelled.

(** The state of the generator is the number of frames it has delivered.
    The consumer closes the generator at the frame of index [close_at]:
    that [yield] delivers its frame and then raises [GeneratorExit]. *)
Definition yield (close_at : option nat) (frame : string) : M nat unit :=
  _ ← emit (Yield frame);
  n ← gets (λ n : nat, n);
  _ ← modify S;
  if bool_decide (close_at = Some n) then raise GeneratorExit else mret tt.

(** A number literal that [json.loads] reads as a [float]: one with a
    fraction or an exponent, [NaN], [Infinity] or [-Infinity]. *)
Definition is_float_literal (literal : string) : bool :=
  existsb (λ mark, bool_decide (is_Some (String.index 0 mark literal)))
          ["."; "e"; "E"; "N"; "I"].

(** [type(obj).__name__] of a value that is no container. *)
Definition scalar_type_name (obj : json) : string :=
  match obj with
  | JNull => "NoneType"
  | JBool _ => "bool"
  | JNumber literal => if is_float_literal literal then "float" else "int"
  | _ => "object"
  end.

(** ["response" in obj], then [obj["response"]] when it holds: the data
    of the frame, and whether it was unwrapped. The messages of the
    [TypeError]s are those of CPython 3.11 to 3.13. *)
Definition unwrap_response (obj : json) : M nat (json * bool) :=
  match obj with
  | JObject fields =>
      match json_get "response" fields with
      | Some data => mret (data, true)
      | None => mret (obj, false)
      end
  | JString s =>
      if bool_decide (is_Some (String.index 0 "response" s))
      then raise (Exception "string indices must be integers, not 'str'")
      else mret (obj, false)
  | JArray items =>
      if existsb (is_json_string "response") items
      then raise (Exception "list indices must be integers or slices, not str")
      else mret (obj, false)
  | _ =>
      raise (Exception ("argument of type '" +:+ scalar_type_name obj
                        +:+ "' is not iterable"))
  end.

Definition record_first_success (file model : string) : M nat unit :=
  if nonempty file then
    _ ← emit (RecordApiCallResult file true None);
    emit (RecordSuccessfulCall file model)
  else mret tt.

(** The [async for] loop of [managed_stream_generator]. *)
Fixpoint consume (close_at : option nat) (file model : string)
    (lines : list line_event) (success_recorded : bool) : M nat unit :=
  match lines with
  | [] => mret tt
  | LineError msg :: _ => raise (Exception msg)
  | LineCancelled :: _ => raise CancelledError
  | Line chunk :: rest =>
      if negb (nonempty chunk) || negb (String.prefix data_prefix chunk)
      then consume close_at file model rest success_recorded
      else
        _ ← (if success_recorded then mret tt
             else record_first_success file model);
        match json_loads (after_data_prefix chunk) with
        | Some obj =>
            '(data, unwrapped) ← unwrap_response obj;
            _ ← yield close_at (sse_frame (json_dumps_compact data));
            _ ← (if (unwrapped : bool) then emit (Sleep 0) else mret tt);
            consume close_at file model rest true
        | None => consume close_at file model rest true
        end
  end.

Definition managed_stream_generator (close_at : option nat)
    (file model : string) (lines : list line_event) : M nat unit :=
  try_finally
    (try_except
       (consume close_at file model lines false)
       (λ msg, yield close_at (sse_frame (json_dumps (error_object msg "500")))))
    (_ ← emit StreamExit; emit ClientClose).
End Json.

End GoogleChatApi.

(** ** Sample stores and clocks, used by the examples below *)

Module Samples.
Import IPManager.

Definition resolver (ip : string) : string := "unknown".

Definition noon : clock :=
  {| time_time := 1700000000; today_str := "2023-11-15";
     stamp_str := "2023-11-15 06:13:20" |}.

Definition visitor (today : Z) (date : string) (st : string)
    (banned : option Z) : ip_data :=
  {| first_seen := Some "2023-11-01 08:00:00";
     last_seen := Some "2023-11-14 23:59:00";
     last_request_time := Some 1699977540;
     total_requests := Some 300; today_requests := Some today;
     today_date := Some date; status := Some st;
     rate_limit_seconds := None; banned_time := banned; banned_at := None;
     auto_unbanned_time := None; location := Some "unknown";
     user_agents := Some []; models_used := Some ∅; endpoints := Some ∅ |}.

Definition store (ip : string) (d : ip_data) : manager :=
  {| ip_cache := Some {[ip := d]}; cache_dirty := false;
     ban_operations_file := None |}.

Definition empty_store : manager :=
  {| ip_cache := Some ∅; cache_dirty := false; ban_operations_file := None |}.

Definition throttle_file (op : string) (ts : list Z) : option ban_data :=
  Some {| operators := Some {[op := ts]} |}.
End Samples.

(** ** Sample configuration and scripts of the engine *)

Module EngineSamples.
Import Effect GoogleChatApi.

Definition loads (body : string) : option json :=
  Some (JObject [("response", JObject [("ok", JBool true)])]).

Definition dumps (j : json) : string :=
  match j with
  | JObject [("ok", JBool true)] => "{}"
  | _ => "null"
  end.

Definition conf : config :=
  {| retry_429_max_retries := 2; retry_429_enabled := true;
     retry_429_interval := 1 # 10; auto_ban_enabled := true;
     auto_ban_error_codes := [400; 401; 403; 404];
     code_assist_endpoint := "https://upstream.example" |}.

Definition cred : credential_data :=
  {| token := Some "ya29.token"; access_token := None;
     project_id := Some "project-1" |}.

Definition bound : locals :=
  {| current_file := "a.json"; bearer := "ya29.token";
     project := "project-1" |}.

(** 401 twice, each time with a successful refresh, then 200. *)
Definition two_auth_errors : script :=
  {| credentials := [Some ("a.json", cred); Some ("a.json", cred);
                     Some ("a.json", cred)];
     refreshes := [true; true];
     upstream := [Reply 401 ""; Reply 401 ""; Reply 200 "{}"] |}.

(** 429 on the first credential, 200 on the second. *)
Definition one_rate_limit : script :=
  {| credentials := [Some ("b.json", cred)];
     refreshes := [];
     upstream := [Reply 429 ""; Reply 200 "{}"] |}.
End EngineSamples.

(** ** The IP manager: periodic task, summary, ranking, location *)

Module IPManagerViews.
Import IPManager.

(** One turn of [_periodic_unban_check] after its sleep: the unban sweep,
    then the cleanup, each with its own reading of the clock. *)
Definition _periodic_unban_check (clk_unban clk_cleanup : clock)
    (m : manager) : manager :=
  _cleanup_old_ips clk_cleanup (_auto_unban_expired_ips clk_unban m).

(** *** [get_all_ips_summary] *)

(** [sum(1 for ip_data in all_ips.values() if ip_data.get("status") == st)] *)
Definition count_status (st : string) (all_ips : gmap string ip_data) : nat :=
  map_fold (λ _ d acc,
              if bool_decide (status d = Some st) then S acc else acc)
           0%nat all_ips.

(** [sum(ip_data.get(field, 0) for ip_data in all_ips.values())] *)
Definition sum_field (field : ip_data → option Z)
    (all_ips : gmap string ip_data) : Z :=
  map_fold (λ _ d acc, acc + default 0 (field d)) 0 all_ips.

Record summary := {
  total_ips : nat;
  active_ips : nat;
  banned_ips : nat;
  rate_limited_ips : nat;
  summary_total_requests : Z;
  summary_today_requests : Z
}.

Definition get_all_ips_summary (m : manager) : summary :=
  let all_ips := default ∅ (ip_cache m) in
  {| total_ips := size all_ips;
     active_ips := count_status "active" all_ips;
     banned_ips := count_status "banned" all_ips;
     rate_limited_ips := count_status "rate_limited" all_ips;
     summary_total_requests := sum_field total_requests all_ips;
     summary_today_requests := sum_field today_requests all_ips |}.

(** *** [_get_ip_location] *)

Definition local_label : string := "本地网络 (Local)".
Definition unknown_label : string := "未知位置".

Definition is_local_ip (ip : string) : bool :=
  String.prefix "127." ip || bool_decide (ip = "::1")
  || String.prefix "192.168." ip || String.prefix "10." ip.

(** What one provider call brings: the call raises (or its body does not
    parse), or it answers with a status code and a decoded body. *)
Inductive answer (A : Type) :=
  | Failed
  | Answered (status_code : Z) (data : A).
Arguments Failed {A}.
Arguments Answered {A} status_code data.

(** The fields read from the body of ip-api.com. *)
Record ip_api := {
  api_status : option string;
  api_country : option string;
  api_regionName : option string;
  api_city : option string;
  api_isp : option string
}.

(** The fields read from the body of ipwho.is; [who_isp] is
    [data.get("connection", {}).get("isp", "")]. *)
Record ip_who := {
  who_success : bool;
  who_country : option string;
  who_region : option string;
  who_city : option string;
  who_isp : option string
}.

(** The fields read from the body of pconline. *)
Record pconline := {
  pc_pro : option string;
  pc_city : option string;
  pc_addr : option string
}.

Definition truthy (s : string) : bool := negb (bool_decide (s = "")).

(** [" ".join(parts)], [+ f" ({isp})"] when there is one, and the unknown
    label for an empty result. *)
Definition describe (parts : list string) (isp : string) : string :=
  let location := String.concat " " parts in
  let location :=
    if truthy isp then location +:+ " (" +:+ isp +:+ ")" else location in
  if truthy location then location else unknown_label.

Definition from_ip_api (a : answer ip_api) : option string :=
  match a with
  | Answered code data =>
      if (code =? 200) && bool_decide (api_status data = Some "success") then
        Some (describe
                (filter (λ p, truthy p = true)
                   [default "" (api_country data);
                    default "" (api_regionName data);
                    default "" (api_city data)])
                (default "" (api_isp data)))
      else None
  | Failed => None
  end.

Definition from_ip_who (a : answer ip_who) : option string :=
  match a with
  | Answered code data =>
      if (code =? 200) && who_success data then
        Some (describe
                (filter (λ p, truthy p = true)
                   [default "" (who_country data);
                    default "" (who_region data);
                    default "" (who_city data)])
                (default "" (who_isp data)))
      else None
  | Failed => None
  end.

Definition from_pconline (a : answer pconline) : option string :=
  match a with
  | Answered code data =>
      if code =? 200 then
        Some (describe
                (filter (λ p, truthy p = true ∧ p ≠ "XX")
                   [default "" (pc_pro data); default "" (pc_city data);
                    default "" (pc_addr data)])
                "")
      else None
  | Failed => None
  end.

(** The three providers are asked in turn; the answer of a provider is
    looked at only when the ones before it gave no location. *)
Definition _get_ip_location (first : answer ip_api) (second : answer ip_who)
    (third : answer pconline) (ip : string) : string :=
  if is_local_ip ip then local_label
  else
    match from_ip_api first with
    | Some location => location
    | None =>
        match from_ip_who second with
        | Some location => location
        | None => default unknown_label (from_pconline third)
        end
    end.
End IPManagerViews.

(** ** The IP manager: [get_ip_ranking] *)

Module Ranking.

(** An entry of [filtered_ips]. *)
Record entry := {
  ip : string;
  today_requests : Z;
  total_requests : Z;
  status : string;
  location : string;
  first_seen : string;
  last_seen : string
}.

Definition make_entry (kv : string * IPManager.ip_data) : entry :=
  {| ip := kv.1;
     today_requests := default 0 (IPManager.today_requests kv.2);
     total_requests := default 0 (IPManager.total_requests kv.2);
     status := default "active" (IPManager.status kv.2);
     location := default "未知" (IPManager.location kv.2);
     first_seen := default "" (IPManager.first_seen kv.2);
     last_seen := default "" (IPManager.last_seen kv.2) |}.

(** The filtering loop; [all_ips] are the items of the table in the order
    of the dict. *)
Definition filtered_ips (include_banned : bool)
    (all_ips : list (string * IPManager.ip_data)) : list entry :=
  make_entry <$>
    filter (λ kv, ¬ (include_banned = false
                     ∧ IPManager.status kv.2 = Some "banned"))
           all_ips.

(** ["today_requests" if rank_by == "today" else "total_requests"] *)
Definition sort_key (rank_by : string) (e : entry) : Z :=
  if bool_decide (rank_by = "today") then today_requests e
  else total_requests e.

(** [sorted(l, key=key, reverse=True)]: the stable sort by decreasing
    key, entries of equal key staying in the order of [l]. *)
Fixpoint insert_desc (key : entry → Z) (x : entry) (l : list entry)
  : list entry :=
  match l with
  | [] => [x]
  | y :: l' =>
      if key x <? key y then y :: insert_desc key x l' else x :: y :: l'
  end.

Definition sorted_desc (key : entry → Z) (l : list entry) : list entry :=
  foldr (insert_desc key) [] l.

(** [l[start:stop]] for integer bounds of either sign. *)
Definition clamp_index (len : Z) (i : Z) : Z :=
  if i <? 0 then Z.max (i + len) 0 else Z.min i len.

Definition slice {A} (l : list A) (start stop : Z) : list A :=
  let len := Z.of_nat (length l) in
  let a := clamp_index len start in
  let b := clamp_index len stop in
  take (Z.to_nat (b - a)) (drop (Z.to_nat a) l).

Record ranking := {
  items : list entry;
  page : Z;
  page_size : Z;
  total : Z;
  total_pages : Z;
  has_next : bool;
  has_prev : bool
}.

(** [None] is the [ZeroDivisionError] of [page_size = 0]. *)
Definition get_ip_ranking (rank_by : string) (page page_size : Z)
    (include_banned : bool) (all_ips : list (string * IPManager.ip_data))
  : option ranking :=
  let sorted_ips :=
    sorted_desc (sort_key rank_by) (filtered_ips include_banned all_ips) in
  let total := Z.of_nat (length sorted_ips) in
  if page_size =? 0 then None
  else
    let total_pages := (total + page_size - 1) `div` page_size in
    let page :=
      Z.max 1 (Z.min page (if 0 <? total_pages then total_pages else 1)) in
    let start_index := (page - 1) * page_size in
    let end_index := start_index + page_size in
    Some {| items := slice sorted_ips start_index end_index;
            page := page; page_size := page_size; total := total;
            total_pages := total_pages;
            has_next := page <? total_pages;
            has_prev := 1 <? page |}.
End Ranking.

(** ** Counting the events of a run *)

Module Trace.
Import Effect.

Definition is_upstream_call (e : event) : bool :=
  match e with
  | Post _ _ _ | StreamEnter _ _ _ => true
  | _ => false
  end.

Definition is_record (e : event) : bool :=
  match e with
  | RecordApiCallResult _ _ _ => true
  | _ => false
  end.

Definition is_yield (e : event) : bool :=
  match e with
  | Yield _ => true
  | _ => false
  end.

Definition count (p : event → bool) (evs : list event) : nat :=
  length (filter (λ e, p e = true) evs).

(** [m] emits at most [n] events of kind [p], from every state. *)
Definition emits {S A} (p : event → bool) (n : nat) (m : M S A) : Prop :=
  ∀ s, (count p (m s).1.2 ≤ n)%nat.

(** [m] leaves normally or by an [Exception]. *)
Definition mild {S A} (m : M S A) : Prop :=
  ∀ s, match (m s).1.1 with
       | Ok _ | Raised (Exception _) => True
       | Raised _ => False
       end.

(** [m] always leaves normally. *)
Definition safe {S A} (m : M S A) : Prop :=
  ∀ s, ∃ a, (m s).1.1 = Ok a.
End Trace.

(** ** Further sample data *)

Module Scenarios.
Import IPManager.

Definition hour_later : clock :=
  {| time_time := 1700003600; today_str := "2023-11-15";
     stamp_str := "2023-11-15 07:13:20" |}.

Definition week_later : clock :=
  {| time_time := 1700600000; today_str := "2023-11-22";
     stamp_str := "2023-11-22 04:53:20" |}.

(** Three bans of one operator within ten minutes, the first of them
    3601 seconds before [Samples.noon]. *)
Definition first_ban : clock :=
  {| time_time := 1699996399; today_str := "2023-11-15";
     stamp_str := "2023-11-15 05:13:19" |}.

Definition second_ban : clock :=
  {| time_time := 1699996699; today_str := "2023-11-15";
     stamp_str := "2023-11-15 05:18:19" |}.

Definition third_ban : clock :=
  {| time_time := 1699996999; today_str := "2023-11-15";
     stamp_str := "2023-11-15 05:23:19" |}.

(** The items of a table of three IPs, one of them banned. *)
Definition three_visitors : list (string * ip_data) :=
  [("198.51.100.7", Samples.visitor 5 "2023-11-15" "active" None);
   ("203.0.113.9",
    Samples.visitor 120 "2023-11-15" "banned" (Some 1699990000));
   ("192.0.2.44", Samples.visitor 40 "2023-11-15" "rate_limited" None)].
End Scenarios.

Module EngineScenarios.
Import Effect GoogleChatApi EngineSamples.

Definition next_bound : locals :=
  {| current_file := "b.json"; bearer := "ya29.token";
     project := "project-1" |}.

(** The upstream answers 503. *)
Definition server_error : script :=
  {| credentials := []; refreshes := []; upstream := [Reply 503 "busy"] |}.

(** The connection to the upstream breaks. *)
Definition no_network : script :=
  {| credentials := []; refreshes := [];
     upstream := [TransportError "read timeout"] |}.

(** The upstream answers 403 and the pool has one more credential. *)
Definition forbidden : script :=
  {| credentials := [Some ("b.json", cred)]; refreshes := [];
     upstream := [Reply 403 ""] |}.

(** The upstream answers with a status that is on no list. *)
Definition teapot : script :=
  {| credentials := []; refreshes := []; upstream := [Reply 418 ""] |}.

(** The pool has no credential to give. *)
Definition empty_pool : script :=
  {| credentials := []; refreshes := []; upstream := [Reply 200 "{}"] |}.
End EngineScenarios.

(** * Properties of the IP manager *)

Section IPManagerProperties.
Import IPManager.

Variable _get_ip_location : string → string.

(** ** Bookkeeping on the manager record *)

Lemma with_ips_same m ips : ip_cache m = Some ips → with_ips ips m = m.
Proof. destruct m as [c dirty f]; simpl; intros ->; reflexivity. Qed.

Lemma with_ban_file_same m : with_ban_file (ban_operations_file m) m = m.
Proof. by destruct m. Qed.

Lemma valid_status_spec status :
  valid_status status = true ↔ status ∈ ["active"; "banned"; "rate_limited"].
Proof. unfold valid_status. by rewrite bool_decide_eq_true. Qed.

Lemma user_protection_refuses ips ip d :
  ips !! ip = Some d → default 0 (today_requests d) < 80 →
  user_protection ips ip = Some (default 0 (today_requests d)).
Proof.
  intros Hd Hlt. unfold user_protection. rewrite Hd.
  by apply Z.ltb_lt in Hlt as ->.
Qed.

Lemma user_protection_passes ips ip d :
  ips !! ip = Some d → 80 ≤ default 0 (today_requests d) →
  user_protection ips ip = None.
Proof.
  intros Hd Hge. unfold user_protection. rewrite Hd.
  by apply Z.ltb_ge in Hge as ->.
Qed.

Lemma user_protection_unknown ips ip :
  ips !! ip = None → user_protection ips ip = None.
Proof. intros Hd. unfold user_protection. by rewrite Hd. Qed.

(** A ban without a (truthy) operator, once check 1 has passed. *)
Lemma set_ip_status_ban_no_operator clk ip rl m :
  user_protection (default ∅ (ip_cache m)) ip = None →
  set_ip_status _get_ip_location clk ip "banned" rl None m
  = ((true, ""),
     with_dirty
       (with_ips
          (apply_status _get_ip_location clk ip "banned" rl
             (default ∅ (ip_cache m)))
          (with_ban_file (ban_operations_file m)
             (with_ips (default ∅ (ip_cache m)) m)))).
Proof.
  intros Hup. unfold set_ip_status. simpl. by rewrite Hup.
Qed.

Lemma apply_status_banned clk ip rl ips :
  ∃ d, apply_status _get_ip_location clk ip "banned" rl ips !! ip = Some d
       ∧ status d = Some "banned"
       ∧ banned_time d = Some (time_time clk).
Proof.
  unfold apply_status. rewrite lookup_insert_eq. eexists; split; [done|].
  simpl. destruct rl as [secs|]; simpl; done.
Qed.

(** ** Status mutation *)

(** C10. For a status string outside active, banned and rate_limited,
    [set_ip_status] returns [(False, message)] and hands the manager back
    as it was: the IP table, the dirty flag and the ban-operation file
    are those of the call. *)
Theorem set_ip_status_invalid_status clk ip status rl op m :
  status ∉ ["active"; "banned"; "rate_limited"] →
  set_ip_status _get_ip_location clk ip status rl op m
  = ((false, invalid_status_msg), m).
Proof.
  intros Hbad. unfold set_ip_status.
  destruct (valid_status status) eqn:Hv; [|done].
  apply valid_status_spec in Hv. contradiction.
Qed.

(** C1, as the code has it. For an IP that has a record, a ban is refused
    with the message of check 1, and the manager is left as it was,
    whenever the record's today_requests (0 when the field is absent) is
    below 80, so in particular at 79; at 80 or more check 1 lets the ban
    through, and a ban without operator then succeeds, the record being
    banned with banned_time the time of the call. *)
Theorem ban_user_protection clk ip rl op m ips d :
  ip_cache m = Some ips → ips !! ip = Some d →
  (default 0 (today_requests d) < 80 →
   set_ip_status _get_ip_location clk ip "banned" rl op m
   = ((false, too_few_requests_msg (default 0 (today_requests d))), m))
  ∧ (80 ≤ default 0 (today_requests d) →
     user_protection ips ip = None
     ∧ ∃ m' d',
         set_ip_status _get_ip_location clk ip "banned" rl None m
         = ((true, ""), m')
         ∧ default ∅ (ip_cache m') !! ip = Some d'
         ∧ status d' = Some "banned"
         ∧ banned_time d' = Some (time_time clk)).
Proof.
  intros Hc Hd. split.
  - intros Hlt. unfold set_ip_status. simpl. rewrite Hc. simpl.
    rewrite (user_protection_refuses _ _ _ Hd Hlt).
    by rewrite (with_ips_same _ _ Hc).
  - intros Hge.
    pose proof (user_protection_passes _ _ _ Hd Hge) as Hup.
    split; [done|].
    destruct (apply_status_banned clk ip rl ips) as (d' & Hl & Hs & Hb).
    eexists _, d'. rewrite set_ip_status_ban_no_operator.
    + split; [done|]. rewrite Hc. simpl. done.
    + by rewrite Hc.
Qed.

(** An IP without a record is not looked at by check 1: the ban goes
    through. *)
Lemma ban_unknown_ip clk ip rl m :
  default ∅ (ip_cache m) !! ip = None →
  ∃ m' d',
    set_ip_status _get_ip_location clk ip "banned" rl None m
    = ((true, ""), m')
    ∧ default ∅ (ip_cache m') !! ip = Some d'
    ∧ status d' = Some "banned".
Proof.
  intros Hnone.
  destruct (apply_status_banned clk ip rl (default ∅ (ip_cache m)))
    as (d' & Hl & Hs & _).
  eexists _, d'. rewrite set_ip_status_ban_no_operator.
  - split; [done|]. simpl. done.
  - by apply user_protection_unknown.
Qed.

(** ** Admission and recording *)

Lemma active_not_rate_limited clk v d :
  rate_limited_now clk (set_auto_unbanned_time v (set_status "active" d))
  = false.
Proof. reflexivity. Qed.

(** On a record whose ban has run out the two admission tests part ways:
    [check_ip_allowed] lifts the ban and admits, [record_request]
    refuses. *)
Lemma admission_differs_on_expired_ban clk ip ep ua mo m ips d :
  ip_cache m = Some ips → ips !! ip = Some d →
  status d = Some "banned" → ban_expired clk d = true →
  (check_ip_allowed clk ip m).1 = true
  ∧ (record_request _get_ip_location clk ip ep ua mo m).1 = false.
Proof.
  intros Hc Hd Hs He. split.
  - unfold check_ip_allowed. rewrite Hc, Hd.
    rewrite bool_decide_eq_true_2 by done. rewrite He.
    by rewrite active_not_rate_limited.
  - unfold record_request. rewrite Hc. simpl. rewrite Hd.
    unfold record_refused. by rewrite bool_decide_eq_true_2.
Qed.

(** Everywhere else the two tests give the same answer. *)
Lemma admission_agrees clk ip ep ua mo m :
  (∀ ips d, ip_cache m = Some ips → ips !! ip = Some d →
            unban_due clk d = false) →
  (record_request _get_ip_location clk ip ep ua mo m).1
  = (check_ip_allowed clk ip m).1.
Proof.
  intros Hdue. unfold record_request, check_ip_allowed.
  destruct (ip_cache m) as [ips|] eqn:Hc; simpl.
  - destruct (ips !! ip) as [d|] eqn:Hd; [|done].
    specialize (Hdue ips d eq_refl Hd). unfold unban_due in Hdue.
    unfold record_refused.
    destruct (bool_decide (status d = Some "banned")); simpl in *.
    + by rewrite Hdue.
    + by destruct (rate_limited_now clk d).
  - by rewrite lookup_empty.
Qed.

Lemma note_user_agent_today_requests ua d :
  today_requests (note_user_agent ua d) = today_requests d.
Proof.
  unfold note_user_agent. destruct ua as [s|]; [|done]. by destruct (_ && _).
Qed.

Lemma note_user_agent_today_date ua d :
  today_date (note_user_agent ua d) = today_date d.
Proof.
  unfold note_user_agent. destruct ua as [s|]; [|done]. by destruct (_ && _).
Qed.

Lemma note_user_agent_models_used ua d :
  models_used (note_user_agent ua d) = models_used d.
Proof.
  unfold note_user_agent. destruct ua as [s|]; [|done]. by destruct (_ && _).
Qed.

Lemma note_model_today_requests mo d :
  today_requests (note_model mo d) = today_requests d.
Proof.
  unfold note_model. destruct mo as [s|]; [|done]. by destruct (truthy_str _).
Qed.

Lemma note_model_today_date mo d :
  today_date (note_model mo d) = today_date d.
Proof.
  unfold note_model. destruct mo as [s|]; [|done]. by destruct (truthy_str _).
Qed.

(** What an admitted [record_request] writes for a record whose stored
    date is not today's. *)
Lemma record_request_rollover_record clk ip ep ua mo m ips d :
  ip_cache m = Some ips → ips !! ip = Some d →
  default "" (today_date d) ≠ today_str clk →
  record_refused clk d = false →
  ∃ d',
    record_request _get_ip_location clk ip ep ua mo m
    = (true, with_dirty (with_ips (<[ip := d']> ips) m))
    ∧ today_requests d' = Some 1
    ∧ today_date d' = Some (today_str clk)
    ∧ models_used d' = models_used (note_model mo (set_models_used ∅ d)).
Proof.
  intros Hc Hd Hdate Hadm. unfold record_request. rewrite Hc. simpl.
  rewrite Hd, Hadm. eexists. split; [reflexivity|].
  unfold note_endpoint. simpl.
  rewrite note_model_today_requests, note_model_today_date.
  rewrite note_user_agent_today_requests, note_user_agent_today_date.
  unfold reset_daily. rewrite bool_decide_eq_true_2 by done. simpl.
  repeat split; try done.
  unfold note_model. destruct mo as [k|]; simpl.
  - destruct (negb _); simpl; by rewrite note_user_agent_models_used.
  - by rewrite note_user_agent_models_used.
Qed.

(** C9, as the code has it. For an IP whose stored today_date is not the
    current date, the next [record_request] that is admitted (returns
    [True]) leaves today_requests = 1 and today_date equal to today, the
    models of the day being counted from an empty table. *)
Theorem record_request_day_rollover clk ip ep ua mo m ips d :
  ip_cache m = Some ips → ips !! ip = Some d →
  default "" (today_date d) ≠ today_str clk →
  (record_request _get_ip_location clk ip ep ua mo m).1 = true →
  ∃ d',
    default ∅ (ip_cache (record_request _get_ip_location clk ip ep ua mo m).2)
      !! ip = Some d'
    ∧ today_requests d' = Some 1
    ∧ today_date d' = Some (today_str clk)
    ∧ models_used d' = models_used (note_model mo (set_models_used ∅ d)).
Proof.
  intros Hc Hd Hdate Hadm.
  assert (record_refused clk d = false) as Href.
  { unfold record_request in Hadm. rewrite Hc in Hadm. simpl in Hadm.
    rewrite Hd in Hadm. by destruct (record_refused clk d). }
  destruct (record_request_rollover_record clk ip ep ua mo m ips d
              Hc Hd Hdate Href) as (d' & -> & H1 & H2 & H3).
  exists d'. simpl. by rewrite lookup_insert_eq.
Qed.

(** ** Tiered pruning *)

Lemma remove_all_lookup keys (ips : gmap string ip_data) ip :
  remove_all keys ips !! ip
  = if decide (ip ∈ keys) then None else ips !! ip.
Proof.
  unfold remove_all. revert ips.
  induction keys as [|k keys IH]; intros ips.
  - destruct (decide (ip ∈ [])) as [Hin|_]; [by apply elem_of_nil in Hin | done].
  - cbn [foldl]. rewrite IH.
    destruct (decide (ip ∈ keys)) as [Hin|Hin].
    + rewrite decide_True; [done | apply elem_of_cons; by right].
    + destruct (decide (k = ip)) as [->|Hne].
      * rewrite lookup_delete_eq.
        rewrite decide_True; [done | apply elem_of_cons; by left].
      * rewrite lookup_delete_ne by done.
        rewrite decide_False; [done|].
        intros [?|?]%elem_of_cons; [congruence | done].
Qed.

Lemma elem_of_ips_to_remove now (ips : gmap string ip_data) ip :
  ip ∈ ips_to_remove now ips
  ↔ ∃ d, ips !! ip = Some d ∧ should_remove now d = true.
Proof.
  unfold ips_to_remove. rewrite list_elem_of_fmap. split.
  - intros ([k d] & -> & Hin). apply list_elem_of_filter in Hin as [Hrm Hin].
    apply elem_of_map_to_list in Hin. by exists d.
  - intros (d & Hd & Hrm). exists (ip, d). split; [done|].
    apply list_elem_of_filter. split; [done|]. by apply elem_of_map_to_list.
Qed.

(** The table after the sweep, key by key. *)
Lemma cleanup_lookup clk m ip :
  default ∅ (ip_cache (_cleanup_old_ips clk m)) !! ip
  = match default ∅ (ip_cache m) !! ip with
    | Some d => if should_remove (time_time clk) d then None else Some d
    | None => None
    end.
Proof.
  unfold _cleanup_old_ips. destruct (ip_cache m) as [ips|] eqn:Hc; simpl.
  - assert (default ∅ (ip_cache
              match ips_to_remove (time_time clk) ips with
              | [] => with_ips (remove_all (ips_to_remove (time_time clk) ips) ips) m
              | _ :: _ =>
                  with_dirty
                    (with_ips (remove_all (ips_to_remove (time_time clk) ips) ips) m)
              end)
            = remove_all (ips_to_remove (time_time clk) ips) ips) as ->.
    { by destruct (ips_to_remove (time_time clk) ips). }
    rewrite remove_all_lookup. case_decide as Hin.
    + apply elem_of_ips_to_remove in Hin as (d & -> & ->). done.
    + destruct (ips !! ip) as [d|] eqn:Hd; [|done].
      destruct (should_remove (time_time clk) d) eqn:Hrm; [|done].
      exfalso. apply Hin, elem_of_ips_to_remove. eauto.
  - rewrite Hc. simpl. by rewrite lookup_empty.
Qed.

(** The decision of the loop body, in the words of the policy table. *)
Lemma should_remove_spec now d :
  should_remove now d = true
  ↔ default "active" (status d) ≠ "banned"
    ∧ default 0 (last_request_time d) ≠ 0
    ∧ let inactive := now - default 0 (last_request_time d) in
      let total := default 0 (total_requests d) in
      (300 ≤ total ∧ 7 * 86400 ≤ inactive)
      ∨ (50 ≤ total ≤ 299 ∧ 5 * 86400 ≤ inactive)
      ∨ (total < 50 ∧ 3 * 86400 ≤ inactive).
Proof.
  unfold should_remove, seven_days, five_days, three_days. cbv zeta.
  set (total := default 0 (total_requests d)).
  set (last := default 0 (last_request_time d)).
  case_bool_decide as Hb; [intuition congruence|].
  destruct (Z.eqb_spec last 0) as [Hz|Hz]; [intuition congruence|].
  destruct (Z.leb_spec 300 total); [rewrite Z.leb_le; intuition lia|].
  destruct (Z.leb_spec 50 total); rewrite Z.leb_le; intuition lia.
Qed.

(** C7. The sweep removes a record exactly when it is not banned, has a
    non-zero last_request_time and has been inactive for at least 7 days
    with total_requests >= 300, 5 days with 50 <= total_requests <= 299,
    or 3 days with total_requests < 50; every other record is kept as it
    is and no record appears.  So a banned record is never removed, and
    a record with total_requests = 300 is kept after 6 days of inactivity
    and dropped after 7. *)
Theorem cleanup_removes_exactly clk m ip :
  let before := default ∅ (ip_cache m) in
  let after := default ∅ (ip_cache (_cleanup_old_ips clk m)) in
  (before !! ip = None → after !! ip = None)
  ∧ (∀ d, before !! ip = Some d →
       (after !! ip = None ∨ after !! ip = Some d)
       ∧ (after !! ip = None
          ↔ default "active" (status d) ≠ "banned"
            ∧ default 0 (last_request_time d) ≠ 0
            ∧ let inactive :=
                time_time clk - default 0 (last_request_time d) in
              let total := default 0 (total_requests d) in
              (300 ≤ total ∧ 7 * 86400 ≤ inactive)
              ∨ (50 ≤ total ≤ 299 ∧ 5 * 86400 ≤ inactive)
              ∨ (total < 50 ∧ 3 * 86400 ≤ inactive)))
  ∧ (∀ d, before !! ip = Some d → status d = Some "banned" →
       after !! ip = Some d)
  ∧ (∀ d t, before !! ip = Some d →
       default "active" (status d) ≠ "banned" →
       last_request_time d = Some t → t ≠ 0 →
       total_requests d = Some 300 →
       (time_time clk - t = 6 * 86400 → after !! ip = Some d)
       ∧ (time_time clk - t = 7 * 86400 → after !! ip = None)).
Proof.
  intros before after. subst before after. rewrite cleanup_lookup.
  split; [by intros ->|]. split; [|split].
  - intros d Hd. rewrite Hd. split.
    + destruct (should_remove _ d); auto.
    + rewrite <- should_remove_spec.
      destruct (should_remove _ d); split; congruence.
  - intros d Hd Hb. rewrite Hd.
    destruct (should_remove _ d) eqn:Hrm; [|done].
    apply should_remove_spec in Hrm as (Hnb & _). by rewrite Hb in Hnb.
  - intros d t Hd Hnb Hl Ht Htot. rewrite Hd. split.
    + intros Hsix. destruct (should_remove _ d) eqn:Hrm; [|done].
      apply should_remove_spec in Hrm as (_ & _ & Htier).
      rewrite Hl, Htot in Htier. simpl in Htier. lia.
    + intros Hseven.
      assert (should_remove (time_time clk) d = true) as ->; [|done].
      apply should_remove_spec. split; [done|].
      rewrite Hl, Htot. simpl. split; [done|]. lia.
Qed.

(** ** Compaction of the ban-operation store *)

Lemma valid_timestamps_idemp now ts :
  valid_timestamps now (valid_timestamps now ts) = valid_timestamps now ts.
Proof. unfold valid_timestamps. by apply list_filter_filter_l. Qed.

Lemma valid_timestamps_all now ts :
  Forall (λ t, now - t < time_window) ts → valid_timestamps now ts = ts.
Proof.
  unfold valid_timestamps. induction 1 as [|t ts Ht _ IH]; [done|].
  by rewrite filter_cons_True, IH.
Qed.

(** The loop over an association list with distinct keys, none of which
    is yet in the accumulator. *)
Lemma compact_fold_lookup now l acc k v :
  NoDup l.*1 → (∀ k', k' ∈ l.*1 → acc.1 !! k' = None) →
  (foldl (compact_step now) acc l).1 !! k = Some v
  ↔ acc.1 !! k = Some v
    ∨ ∃ ts, (k, ts) ∈ l ∧ valid_timestamps now ts = v ∧ v ≠ [].
Proof.
  revert acc. induction l as [|[k1 ts1] l IH]; intros acc Hnd Hfresh.
  - simpl. split; [by left|]. intros [?|(ts & Hin & _)]; [done|].
    by apply elem_of_nil in Hin.
  - apply NoDup_cons in Hnd as [Hk1 Hnd]. cbn [foldl]. rewrite IH; [|done|].
    + unfold compact_step. cbn [fst snd].
      destruct (valid_timestamps now ts1) as [|t vs] eqn:Hvalid; cbn [fst].
      * split.
        -- intros [?|(ts & Hin & ?)]; [by left|].
           right. exists ts. split; [by apply elem_of_cons; right | done].
        -- intros [?|(ts & Hin & Hv & Hne)]; [by left|].
           apply elem_of_cons in Hin as [Heq|Hin].
           ++ by simplify_eq.
           ++ right. eauto.
      * split.
        -- intros [Hacc|(ts & Hin & ?)].
           ++ apply lookup_insert_Some in Hacc as [[<- <-]|[_ ?]]; [|by left].
              right. exists ts1. split; [by apply elem_of_cons; left|done].
           ++ right. exists ts. split; [by apply elem_of_cons; right | done].
        -- intros [Hacc|(ts & Hin & Hv & Hne)].
           ++ left. rewrite lookup_insert_ne; [done|].
              intros <-. rewrite Hfresh in Hacc; [done|].
              cbn. apply elem_of_cons. by left.
           ++ apply elem_of_cons in Hin as [Heq|Hin].
              ** simplify_eq. left. rewrite Hvalid. apply lookup_insert_eq.
              ** right. eauto.
    + intros k' Hk'. unfold compact_step. cbn [fst snd].
      assert (acc.1 !! k' = None) as Hnone.
      { apply Hfresh. cbn. apply elem_of_cons. by right. }
      destruct (valid_timestamps now ts1); cbn [fst]; [done|].
      rewrite lookup_insert_ne; [done|]. by intros <-.
Qed.

Lemma compact_fold_count now l acc :
  (foldl (compact_step now) acc l).2
  = (acc.2
     + length (filter (λ kv : string * list Z,
                         valid_timestamps now kv.2 = []) l))%nat.
Proof.
  revert acc. induction l as [|[k ts] l IH]; intros acc.
  - simpl. lia.
  - cbn [foldl]. rewrite IH. rewrite filter_cons. unfold compact_step.
    cbn [fst snd]. destruct (valid_timestamps now ts) eqn:Hvalid.
    + rewrite decide_True by done. simpl. lia.
    + rewrite decide_False by done. done.
Qed.

(** The compacted table, key by key. *)
Lemma compact_lookup now (ops : gmap string (list Z)) k :
  (compact now ops).1 !! k
  = match ops !! k with
    | Some ts =>
        match valid_timestamps now ts with
        | [] => None
        | t :: vs => Some (t :: vs)
        end
    | None => None
    end.
Proof.
  apply option_eq. intros v. unfold compact.
  rewrite compact_fold_lookup;
    [|apply NoDup_fst_map_to_list | intros; apply lookup_empty].
  cbn [fst]. rewrite lookup_empty. split.
  - intros [?|(ts & Hin%elem_of_map_to_list & Hv & Hne)]; [done|].
    rewrite Hin, Hv. by destruct v.
  - destruct (ops !! k) as [ts|] eqn:Hk; [|done].
    destruct (valid_timestamps now ts) as [|t vs] eqn:Hvalid; [done|].
    intros [= <-]. right. exists ts.
    split; [by apply elem_of_map_to_list | done].
Qed.

(** No operator is dropped exactly when every stored list keeps a stamp. *)
Lemma compact_count_zero now (ops : gmap string (list Z)) :
  (compact now ops).2 = 0%nat
  ↔ ∀ k ts, ops !! k = Some ts → valid_timestamps now ts ≠ [].
Proof.
  unfold compact. rewrite compact_fold_count. cbn [snd]. split.
  - intros Hlen k ts Hk Hvalid.
    assert ((k, ts) ∈ filter (λ kv : string * list Z,
                                valid_timestamps now kv.2 = [])
                             (map_to_list ops)) as Hin.
    { apply list_elem_of_filter. split; [done|]. by apply elem_of_map_to_list. }
    destruct (filter _ (map_to_list ops)); [by apply elem_of_nil in Hin|].
    simpl in Hlen. lia.
  - intros Hall.
    destruct (filter _ (map_to_list ops)) as [|[k ts] rest] eqn:Hf; [done|].
    assert ((k, ts) ∈ filter (λ kv : string * list Z,
                                valid_timestamps now kv.2 = [])
                             (map_to_list ops)) as Hin.
    { rewrite Hf. apply elem_of_cons. by left. }
    apply list_elem_of_filter in Hin as [Hvalid Hin%elem_of_map_to_list].
    by destruct (Hall k ts Hin).
Qed.

Lemma load_unfold clk file :
  _load_ban_operations clk file
  = let loaded := default empty_ban_data file in
    let c := compact (time_time clk) (default ∅ (operators loaded)) in
    if (0 <? c.2)%nat
    then ({| operators := Some c.1 |}, Some {| operators := Some c.1 |})
    else (loaded, file).
Proof.
  unfold _load_ban_operations. cbv zeta.
  by destruct (compact _ _) as [cleaned removed].
Qed.

(** While no operator has lost all its stamps, a read returns the stored
    data as it is and writes nothing. *)
Lemma load_without_drop clk file :
  (∀ k ts, default ∅ (operators (default empty_ban_data file)) !! k = Some ts →
           valid_timestamps (time_time clk) ts ≠ []) →
  _load_ban_operations clk file = (default empty_ban_data file, file).
Proof.
  intros Hall%compact_count_zero. rewrite load_unfold. cbv zeta.
  by rewrite Hall.
Qed.

(** A stored list that keeps a stamp is returned either whole or
    filtered. *)
Lemma load_keeps_valid clk file op ts :
  default ∅ (operators (default empty_ban_data file)) !! op = Some ts →
  valid_timestamps (time_time clk) ts ≠ [] →
  ∃ ts',
    default ∅ (operators (_load_ban_operations clk file).1) !! op = Some ts'
    ∧ (ts' = ts ∨ ts' = valid_timestamps (time_time clk) ts).
Proof.
  intros Hop Hvalid. rewrite load_unfold. cbv zeta.
  destruct (0 <? _)%nat; cbn [fst operators from_option id].
  - rewrite compact_lookup, Hop.
    destruct (valid_timestamps (time_time clk) ts) eqn:Hv; [done|]. eauto.
  - eauto.
Qed.

(** No list returned by a read is empty. *)
Lemma load_no_empty_list clk file op :
  default ∅ (operators (_load_ban_operations clk file).1) !! op ≠ Some [].
Proof.
  rewrite load_unfold. cbv zeta.
  destruct (0 <? _)%nat eqn:Hcount; cbn [fst operators from_option id].
  - rewrite compact_lookup. destruct (_ !! op) as [ts|]; [|done].
    by destruct (valid_timestamps _ ts).
  - intros Hop. apply Nat.ltb_ge in Hcount.
    assert ((compact (time_time clk)
               (default ∅ (operators (default empty_ban_data file)))).2
            = 0%nat) as Hzero by lia.
    by apply (proj1 (compact_count_zero _ _) Hzero op []).
Qed.

(** Reading twice at the same time is reading once: the second read
    returns what the first returned and leaves the file of the first. *)
Lemma load_idempotent clk file :
  _load_ban_operations clk (_load_ban_operations clk file).2
  = _load_ban_operations clk file.
Proof.
  rewrite (load_unfold clk file). cbv zeta.
  destruct (0 <? _)%nat eqn:Hcount; cbn [snd].
  - apply load_without_drop. cbn [from_option operators id]. intros k ts.
    rewrite compact_lookup. destruct (_ !! k) as [ts0|]; [|done].
    destruct (valid_timestamps _ ts0) as [|t vs] eqn:Hv; [done|].
    intros [= <-]. rewrite <- Hv, valid_timestamps_idemp. by rewrite Hv.
  - rewrite load_unfold. cbv zeta. by rewrite Hcount.
Qed.

(** Reading a store in which every stamp is inside the window and no list
    is empty changes nothing. *)
Lemma load_compacted_noop clk file :
  (∀ k ts, default ∅ (operators (default empty_ban_data file)) !! k = Some ts →
           ts ≠ [] ∧ Forall (λ t, time_time clk - t < time_window) ts) →
  _load_ban_operations clk file = (default empty_ban_data file, file).
Proof.
  intros Hall. apply load_without_drop. intros k ts Hk.
  destruct (Hall k ts Hk) as [Hne Hforall].
  by rewrite valid_timestamps_all.
Qed.

(** ** The operator throttle *)

Lemma check_limit_unfold clk op file :
  _check_ban_operation_limit clk op file
  = let records :=
      default [] (default ∅ (operators (_load_ban_operations clk file).1)
                    !! op) in
    (if (max_bans <=? length records)%nat
     then (false,
           too_frequent_msg
             ((time_window - (time_time clk - default 0 (head records)))
                `div` 60))
     else (true, ""),
     (_load_ban_operations clk file).2).
Proof.
  unfold _check_ban_operation_limit. cbv zeta.
  destruct (_load_ban_operations clk file) as [loaded file'].
  cbn [fst snd]. by destruct (max_bans <=? _)%nat.
Qed.

(** Three stamps of the operator inside the window: the check refuses,
    with the minutes counted from the head of the list it has read. *)
Lemma check_limit_refuses clk op file ts :
  default ∅ (operators (default empty_ban_data file)) !! op = Some ts →
  (3 ≤ length (valid_timestamps (time_time clk) ts))%nat →
  ∃ ts',
    (ts' = ts ∨ ts' = valid_timestamps (time_time clk) ts)
    ∧ _check_ban_operation_limit clk op file
      = ((false,
          too_frequent_msg
            ((time_window - (time_time clk - default 0 (head ts')))
               `div` 60)),
         (_load_ban_operations clk file).2).
Proof.
  intros Hop Hlen.
  destruct (load_keeps_valid clk file op ts Hop) as (ts' & Hts' & Hcase).
  { intros Hnil. rewrite Hnil in Hlen. simpl in Hlen. lia. }
  exists ts'. split; [done|]. rewrite check_limit_unfold. cbv zeta.
  rewrite Hts'. cbn [from_option id].
  assert ((max_bans <=? length ts')%nat = true) as ->; [|done].
  apply Nat.leb_le. unfold max_bans.
  destruct Hcase as [->| ->]; [|done].
  pose proof (length_filter (λ t, time_time clk - t < time_window) ts).
  unfold valid_timestamps in Hlen. lia.
Qed.

Lemma record_ban_operation_unfold clk op file :
  _record_ban_operation clk op file
  = let ops := default ∅ (operators (_load_ban_operations clk file).1) in
    Some {| operators :=
              Some (<[op := default [] (ops !! op) ++ [time_time clk]]> ops) |}.
Proof.
  unfold _record_ban_operation.
  by destruct (_load_ban_operations clk file) as [loaded file'].
Qed.

(** A ban asked by an operator: what [set_ip_status] does once check 1
    has passed. *)
Lemma set_ip_status_ban_operator clk ip rl op m :
  op ≠ "" →
  user_protection (default ∅ (ip_cache m)) ip = None →
  set_ip_status _get_ip_location clk ip "banned" rl (Some op) m
  = let ips := default ∅ (ip_cache m) in
    let checked :=
      _check_ban_operation_limit clk op (ban_operations_file m) in
    if checked.1.1 then
      ((true, ""),
       with_ban_file (_record_ban_operation clk op checked.2)
         (with_dirty
            (with_ips (apply_status _get_ip_location clk ip "banned" rl ips)
               (with_ban_file checked.2 (with_ips ips m)))))
    else ((false, checked.1.2), with_ban_file checked.2 (with_ips ips m)).
Proof.
  intros Hop Hup. unfold set_ip_status.
  change (valid_status "banned") with true.
  change (bool_decide ("banned" = "banned")) with true. cbv zeta.
  cbn [negb andb]. rewrite Hup. unfold truthy_str.
  rewrite bool_decide_eq_false_2 by done. cbn [negb].
  destruct (_check_ban_operation_limit clk op (ban_operations_file m))
    as [[allowed msg] file1].
  by destruct allowed.
Qed.

(** The half of C6 that holds of the code; the refusal does not end when
    the claim says it does. When three (or more) of an operator's
    recorded bans lie inside
    the one-hour window, the check refuses with the remaining-minutes
    message, and a ban asked by that operator through [set_ip_status] is
    refused; for a record in time order this holds as long as its oldest
    stamp is inside the window, the minutes being those left to that
    stamp.  A ban that succeeds leaves, in the ban-operation file, the
    operator's record as read followed by the time of the call. *)
Theorem operator_ban_throttle clk op :
  (∀ file ts,
     default ∅ (operators (default empty_ban_data file)) !! op = Some ts →
     (3 ≤ length (valid_timestamps (time_time clk) ts))%nat →
     (∃ minutes,
        (_check_ban_operation_limit clk op file).1
        = (false, too_frequent_msg minutes))
     ∧ ∀ ip rl m,
         op ≠ "" → ban_operations_file m = file →
         (set_ip_status _get_ip_location clk ip "banned" rl (Some op) m).1.1
         = false
         ∧ (user_protection (default ∅ (ip_cache m)) ip = None →
            ∃ minutes,
              (set_ip_status _get_ip_location clk ip "banned" rl (Some op) m).1
              = (false, too_frequent_msg minutes)))
  ∧ (∀ file oldest rest,
       default ∅ (operators (default empty_ban_data file)) !! op
       = Some (oldest :: rest) →
       (3 ≤ length (oldest :: rest))%nat →
       (∀ t, t ∈ rest → oldest ≤ t) →
       time_time clk - oldest < time_window →
       (_check_ban_operation_limit clk op file).1
       = (false,
          too_frequent_msg
            ((time_window - (time_time clk - oldest)) `div` 60)))
  ∧ (∀ ip rl m m',
       op ≠ "" →
       set_ip_status _get_ip_location clk ip "banned" rl (Some op) m
       = ((true, ""), m') →
       let ops :=
         default ∅
           (operators (_load_ban_operations clk (ban_operations_file m)).1) in
       ban_operations_file m'
       = Some {| operators :=
                   Some (<[op := default [] (ops !! op) ++ [time_time clk]]>
                           ops) |}).
Proof.
  split; [|split].
  - intros file ts Hop Hlen.
    destruct (check_limit_refuses clk op file ts Hop Hlen)
      as (ts' & _ & Hcheck).
    split; [rewrite Hcheck; eauto|].
    intros ip rl m Hne <-.
    destruct (user_protection (default ∅ (ip_cache m)) ip) as [n|] eqn:Hup.
    + split; [|done]. unfold set_ip_status.
      change (valid_status "banned") with true.
      change (bool_decide ("banned" = "banned")) with true. cbv zeta.
      cbn [negb]. by rewrite Hup.
    + rewrite set_ip_status_ban_operator by done. cbv zeta.
      rewrite Hcheck. cbn [fst snd]. split; [done|]. eauto.
  - intros file oldest rest Hop Hlen Hsorted Hin.
    assert (valid_timestamps (time_time clk) (oldest :: rest)
            = oldest :: rest) as Hvalid.
    { apply valid_timestamps_all, Forall_cons. split; [done|].
      apply Forall_forall. intros t Ht. specialize (Hsorted t Ht). lia. }
    destruct (check_limit_refuses clk op file _ Hop) as (ts' & Hcase & ->).
    { by rewrite Hvalid. }
    rewrite Hvalid in Hcase. by destruct Hcase as [-> | ->].
  - intros ip rl m m' Hne Hok. cbv zeta.
    destruct (user_protection (default ∅ (ip_cache m)) ip) as [n|] eqn:Hup.
    { unfold set_ip_status in Hok.
      change (valid_status "banned") with true in Hok.
      change (bool_decide ("banned" = "banned")) with true in Hok.
      cbv zeta in Hok. cbn [negb] in Hok. by rewrite Hup in Hok. }
    rewrite set_ip_status_ban_operator in Hok by done. cbv zeta in Hok.
    rewrite check_limit_unfold in Hok. cbv zeta in Hok. cbn [fst snd] in Hok.
    destruct (max_bans <=? _)%nat; cbn [fst snd] in Hok; [done|].
    injection Hok as <-. cbn [ban_operations_file with_ban_file].
    rewrite record_ban_operation_unfold. cbv zeta.
    by rewrite load_idempotent.
Qed.
End IPManagerProperties.

(** ** The properties on concrete stores *)

Section IPManagerExamples.
Import IPManager Samples.

Lemma set_ip_status_invalid_status_witness :
  ("blocked" ∉ ["active"; "banned"; "rate_limited"])
  ∧ set_ip_status resolver noon "203.0.113.9" "blocked" None None empty_store
    = ((false, invalid_status_msg), empty_store).
Proof.
  assert ("blocked" ∉ ["active"; "banned"; "rate_limited"]) as Hbad.
  { apply (bool_decide_unpack _). vm_compute. exact I. }
  split; [exact Hbad|].
  apply (set_ip_status_invalid_status resolver noon "203.0.113.9" "blocked"
           None None empty_store Hbad).
Defined.

(** C1 as stated fails: an IP without a record counts no request today,
    and yet its ban goes through. *)
Lemma ban_guard_skips_unknown_ip :
  ¬ (∀ clk ip rl op m,
       (match default ∅ (ip_cache m) !! ip with
        | Some d => default 0 (today_requests d)
        | None => 0
        end) < 80 →
       (set_ip_status resolver clk ip "banned" rl op m).1.1 = false).
Proof.
  intros Hclaim.
  specialize (Hclaim noon "203.0.113.9" None None empty_store).
  vm_compute in Hclaim. by specialize (Hclaim eq_refl).
Qed.

Lemma ban_user_protection_witness :
  (79 < 80
   ∧ set_ip_status resolver noon "203.0.113.9" "banned" None None
       (store "203.0.113.9" (visitor 79 "2023-11-15" "active" None))
     = ((false, too_few_requests_msg 79),
        store "203.0.113.9" (visitor 79 "2023-11-15" "active" None)))
  ∧ (80 ≤ 80
     ∧ ∃ m' d',
         set_ip_status resolver noon "203.0.113.9" "banned" None None
           (store "203.0.113.9" (visitor 80 "2023-11-15" "active" None))
         = ((true, ""), m')
         ∧ default ∅ (ip_cache m') !! "203.0.113.9" = Some d'
         ∧ status d' = Some "banned"
         ∧ banned_time d' = Some (time_time noon)).
Proof.
  split.
  - split; [lia|].
    apply (ban_user_protection resolver noon "203.0.113.9" None None
             (store "203.0.113.9" (visitor 79 "2023-11-15" "active" None))
             {["203.0.113.9" := visitor 79 "2023-11-15" "active" None]}
             (visitor 79 "2023-11-15" "active" None));
      [reflexivity | apply lookup_singleton_eq | simpl; lia].
  - split; [lia|].
    apply (ban_user_protection resolver noon "203.0.113.9" None None
             (store "203.0.113.9" (visitor 80 "2023-11-15" "active" None))
             {["203.0.113.9" := visitor 80 "2023-11-15" "active" None]}
             (visitor 80 "2023-11-15" "active" None));
      [reflexivity | apply lookup_singleton_eq | simpl; lia].
Defined.

(** C2 on a ban placed 100000 s before the call: [check_ip_allowed]
    lifts it and admits, [record_request] returns [False] and the record
    stays banned. *)
Theorem record_request_refuses_expired_ban :
  let d := visitor 120 "2023-11-13" "banned" (Some 1699900000) in
  let m := store "198.51.100.7" d in
  ban_expired noon d = true
  ∧ (check_ip_allowed noon "198.51.100.7" m).1 = true
  ∧ record_request resolver noon "198.51.100.7" "/v1/chat/completions"
      None None m = (false, m).
Proof.
  intros d m. split; [reflexivity|]. split.
  - apply (admission_differs_on_expired_ban resolver noon "198.51.100.7"
             "/v1/chat/completions" None None m
             {["198.51.100.7" := d]} d);
      [reflexivity | apply lookup_singleton_eq | reflexivity | reflexivity].
  - unfold record_request. cbn [m store ip_cache from_option id].
    rewrite lookup_singleton_eq. reflexivity.
Qed.

(** C9 as stated fails: the record of a banned IP (ban still running)
    with yesterday's date is not touched by [record_request]. *)
Lemma rollover_skipped_for_banned_ip :
  ¬ (∀ clk ip ep ua mo m ips d,
       ip_cache m = Some ips → ips !! ip = Some d →
       default "" (today_date d) ≠ today_str clk →
       ∃ d',
         default ∅ (ip_cache (record_request resolver clk ip ep ua mo m).2)
           !! ip = Some d'
         ∧ today_requests d' = Some 1
         ∧ today_date d' = Some (today_str clk)).
Proof.
  intros Hclaim.
  pose (d := visitor 120 "2023-11-14" "banned" (Some 1699990000)).
  destruct (Hclaim noon "198.51.100.7" "/v1/chat/completions" None None
              (store "198.51.100.7" d) {["198.51.100.7" := d]} d)
    as (d' & Hd' & Htoday & _).
  - reflexivity.
  - apply lookup_singleton_eq.
  - by vm_compute.
  - unfold record_request in Hd'.
    cbn [store ip_cache from_option id] in Hd'.
    rewrite lookup_singleton_eq in Hd'.
    change (record_refused noon d) with true in Hd'.
    cbn [snd with_ips ip_cache from_option id] in Hd'.
    rewrite lookup_singleton_eq in Hd'. injection Hd' as <-.
    discriminate Htoday.
Qed.

Lemma record_request_day_rollover_witness :
  let d := visitor 120 "2023-11-14" "active" None in
  let m := store "198.51.100.7" d in
  ∃ d',
    default ∅
      (ip_cache
         (record_request resolver noon "198.51.100.7" "/v1/chat/completions"
            None (Some "gemini-2.5-pro") m).2) !! "198.51.100.7" = Some d'
    ∧ today_requests d' = Some 1
    ∧ today_date d' = Some "2023-11-15"
    ∧ models_used d'
      = models_used (note_model (Some "gemini-2.5-pro") (set_models_used ∅ d)).
Proof.
  intros d m.
  apply (record_request_day_rollover resolver noon "198.51.100.7"
           "/v1/chat/completions" None (Some "gemini-2.5-pro") m
           {["198.51.100.7" := d]} d).
  - reflexivity.
  - apply lookup_singleton_eq.
  - by vm_compute.
  - unfold record_request. cbn [m store ip_cache from_option id].
    rewrite lookup_singleton_eq. reflexivity.
Defined.

(** C7 on a record with 300 requests, last seen at 1699977540. *)
Lemma cleanup_removes_exactly_witness :
  let d := visitor 0 "2023-11-14" "active" None in
  let six := {| time_time := 1699977540 + 6 * 86400;
                today_str := "2023-11-20"; stamp_str := "" |} in
  let seven := {| time_time := 1699977540 + 7 * 86400;
                  today_str := "2023-11-21"; stamp_str := "" |} in
  default ∅ (ip_cache (_cleanup_old_ips six (store "198.51.100.7" d)))
    !! "198.51.100.7" = Some d
  ∧ default ∅ (ip_cache (_cleanup_old_ips seven (store "198.51.100.7" d)))
      !! "198.51.100.7" = None.
Proof.
  intros d six seven. split.
  - destruct (cleanup_removes_exactly six (store "198.51.100.7" d)
                "198.51.100.7") as (_ & _ & _ & Hedge).
    apply (Hedge d 1699977540);
      [apply lookup_singleton_eq | by vm_compute | reflexivity | lia
      | reflexivity | simpl; lia].
  - destruct (cleanup_removes_exactly seven (store "198.51.100.7" d)
                "198.51.100.7") as (_ & _ & _ & Hedge).
    apply (Hedge d 1699977540);
      [apply lookup_singleton_eq | by vm_compute | reflexivity | lia
      | reflexivity | simpl; lia].
Defined.

(** C4 on a store whose only operator has one stamp 4000 s old and one
    100 s old: the read returns both stamps and leaves the file alone,
    although the first is outside the window. *)
Theorem load_returns_stale_timestamp :
  let file := throttle_file "10.0.0.5" [1699996000; 1699999900] in
  valid_timestamps (time_time noon) [1699996000; 1699999900] = [1699999900]
  ∧ _load_ban_operations noon file
    = ({| operators := Some {["10.0.0.5" := [1699996000; 1699999900]]} |},
       file).
Proof.
  intros file. split; [reflexivity|].
  apply (load_without_drop noon file). intros k ts.
  cbn [file throttle_file from_option id operators].
  intros [_ <-]%lookup_singleton_Some. by vm_compute.
Qed.

(** The same read seen from the throttle: of three stamps only two are
    left in the window, and the check still counts three. *)
Example check_limit_counts_stale_timestamps :
  (_check_ban_operation_limit noon "10.0.0.5"
     (throttle_file "10.0.0.5" [1699996000; 1699999000; 1699999900])).1.1
  = false.
Proof.
  rewrite check_limit_unfold. cbv zeta.
  rewrite (load_without_drop noon).
  - cbn [throttle_file from_option id operators fst].
    rewrite lookup_singleton_eq. reflexivity.
  - intros k ts. cbn [throttle_file from_option id operators].
    intros [_ <-]%lookup_singleton_Some. by vm_compute.
Qed.

(** C6 fails on the code. An operator bans three times within ten
    minutes; each ban is accepted and the file holds the three time
    stamps. 3601 seconds after the first ban the oldest stamp has fallen
    out of the window and two are left in it, so a further ban is due to
    pass. The read does not rewrite the file (no operator lost all its
    stamps), the check counts the three stored stamps and refuses with
    minus one minute to wait, and [set_ip_status] refuses the ban and
    changes nothing. *)
Theorem throttle_outlasts_the_window :
  let op := "10.0.0.5" in
  let stamps := [1699996399; 1699996699; 1699996999] in
  let file := throttle_file op stamps in
  let m := with_ban_file file empty_store in
  _record_ban_operation Scenarios.third_ban op
    (_record_ban_operation Scenarios.second_ban op
       (_record_ban_operation Scenarios.first_ban op None)) = file
  ∧ time_window < time_time noon - 1699996399
  ∧ valid_timestamps (time_time noon) stamps = [1699996699; 1699996999]
  ∧ _check_ban_operation_limit noon op file
    = ((false, too_frequent_msg (-1)), file)
  ∧ set_ip_status resolver noon "203.0.113.9" "banned" None (Some op) m
    = ((false, too_frequent_msg (-1)), m).
Proof.
  intros op stamps file m.
  assert (_load_ban_operations noon file
          = ({| operators := Some {[op := stamps]} |}, file)) as Hload.
  { apply (load_without_drop noon file). intros k ts.
    cbn [file throttle_file from_option id operators].
    intros [_ <-]%lookup_singleton_Some. by vm_compute. }
  assert (_check_ban_operation_limit noon op file
          = ((false, too_frequent_msg (-1)), file)) as Hcheck.
  { rewrite check_limit_unfold. cbv zeta. rewrite Hload.
    cbn [fst snd operators from_option id]. rewrite lookup_singleton_eq.
    reflexivity. }
  split; [by vm_compute|]. split; [unfold time_window; simpl; lia|].
  split; [reflexivity|]. split; [exact Hcheck|].
  rewrite (set_ip_status_ban_operator resolver noon "203.0.113.9" None op m)
    by done.
  cbv zeta. change (ban_operations_file m) with file. rewrite Hcheck.
  reflexivity.
Qed.

Lemma operator_ban_throttle_witness :
  let op := "10.0.0.5" in
  let file := throttle_file op [1699998000; 1699999000; 1699999900] in
  (_check_ban_operation_limit noon op file).1
  = (false, too_frequent_msg ((3600 - (1700000000 - 1699998000)) `div` 60))
  ∧ (set_ip_status resolver noon "203.0.113.9" "banned" None (Some op)
       (with_ban_file file empty_store)).1.1 = false.
Proof.
  intros op file.
  destruct (operator_ban_throttle resolver noon op)
    as (Hrefuse & Huntil & _).
  split.
  - apply (Huntil file 1699998000 [1699999000; 1699999900]).
    + cbn [file throttle_file from_option id operators].
      apply lookup_singleton_eq.
    + simpl. lia.
    + intros t Ht. apply elem_of_cons in Ht as [->|Ht]; [lia|].
      apply elem_of_cons in Ht as [->|Ht]; [lia|].
      by apply elem_of_nil in Ht.
    + by vm_compute.
  - destruct (Hrefuse file [1699998000; 1699999000; 1699999900])
      as (_ & Hban).
    + cbn [file throttle_file from_option id operators].
      apply lookup_singleton_eq.
    + vm_compute. lia.
    + apply (Hban "203.0.113.9" None (with_ban_file file empty_store));
        [by vm_compute | reflexivity].
Defined.
End IPManagerExamples.

(** * Properties of the proxy engine *)

Section EngineProperties.
Import Effect GoogleChatApi.

Variable json_loads : string → option json.
Variable json_dumps : json → string.
Variable json_dumps_compact : json → string.
Variable cfg : config.

(** ** The monad, run step by step *)


Lemma bind_ok {S A B} (m : M S A) (k : A → M S B) s a evs s' :
  m s = (Ok a, evs, s') →
  (x ← m; k x) s = (let '(r, evs', s'') := k a s' in (r, evs ++ evs', s'')).
Proof. intros Hm. unfold mbind, M_bind, bind. by rewrite Hm. Qed.

Lemma bind_raised {S A B} (m : M S A) (k : A → M S B) s e evs s' :
  m s = (Raised e, evs, s') → (x ← m; k x) s = (Raised e, evs, s').
Proof. intros Hm. unfold mbind, M_bind, bind. by rewrite Hm. Qed.

Lemma get_valid_credential_run s :
  get_valid_credential s
  = (Ok (mjoin (head (credentials s))), [GetValidCredential],
     drop_credential s).
Proof. reflexivity. Qed.

Lemma force_refresh_run s :
  force_refresh_current_token s
  = (Ok (default false (head (refreshes s))), [ForceRefreshCurrentToken],
     drop_refresh s).
Proof. reflexivity. Qed.

Lemma upstream_call_reply call s code content rest :
  upstream s = Reply code content :: rest →
  upstream_call call s = (Ok (code, content), [call], drop_reply s).
Proof. intros Hup. unfold upstream_call, mbind, M_bind, bind, emit, gets, modify. simpl. rewrite Hup. reflexivity. Qed.



Lemma try_except_ok {S A} (m : M S A) h s a evs s' :
  m s = (Ok a, evs, s') → try_except m h s = (Ok a, evs, s').
Proof. intros Hm. unfold try_except. by rewrite Hm. Qed.

Lemma try_except_caught {S A} (m : M S A) h s msg evs s' :
  m s = (Raised (Exception msg), evs, s') →
  try_except m h s
  = (let '(r, evs', s'') := h msg s' in (r, evs ++ evs', s'')).
Proof. intros Hm. unfold try_except. by rewrite Hm. Qed.

Lemma record_failure_run file code (s : script) :
  file ≠ "" →
  record_api_call_result file false (Some code) s
  = (Ok tt, [RecordApiCallResult file false (Some code)], s).
Proof.
  intros Hne. unfold record_api_call_result, nonempty.
  by rewrite bool_decide_eq_false_2.
Qed.

Lemma can_retry_true attempt :
  Z.of_nat attempt < retry_429_max_retries cfg → can_retry cfg attempt = true.
Proof. intros. unfold can_retry. by apply Z.ltb_lt. Qed.

Lemma can_retry_false attempt :
  retry_429_max_retries cfg ≤ Z.of_nat attempt → can_retry cfg attempt = false.
Proof. intros. unfold can_retry. by apply Z.ltb_ge. Qed.









(** ** Refresh, disable and rotate on an auth error *)

Lemma handle_auto_ban_run file (s : script) :
  file ≠ "" →
  _handle_auto_ban file s
  = (Ok tt, [SetCredDisabled file; ForceRotateCredential], s).
Proof.
  intros Hne. unfold _handle_auto_ban, nonempty.
  by rewrite bool_decide_eq_false_2.
Qed.

Lemma refresh_or_ban_run code l s next :
  is_auth_code code = true → current_file l ≠ "" →
  _get_next_credential (drop_refresh s)
  = (Ok next, [GetValidCredential], drop_credential (drop_refresh s)) →
  refresh_or_ban code l s
  = (Ok (Continue (default l next)),
     [ForceRefreshCurrentToken]
     ++ (if default false (head (refreshes s)) then []
         else [SetCredDisabled (current_file l); ForceRotateCredential])
     ++ [GetValidCredential; Sleep (1 # 2)],
     drop_credential (drop_refresh s)).
Proof.
  intros Hauth Hfile Hnext. unfold refresh_or_ban. rewrite Hauth.
  rewrite (bind_ok _ _ _ _ _ _ (force_refresh_run s)).
  destruct (default false (head (refreshes s))).
  - rewrite (bind_ok _ _ _ _ _ _ Hnext). reflexivity.
  - rewrite (bind_ok _ _ _ _ _ _ (handle_auto_ban_run _ _ Hfile)).
    rewrite (bind_ok _ _ _ _ _ _ Hnext). reflexivity.
Qed.

Lemma auth_code_facts code :
  code ∈ [400; 401; 404] →
  (code =? 429) = false ∧ (code =? 200) = false
  ∧ is_server_error code = false ∧ is_auth_code code = true.
Proof.
  intros Hin. unfold is_auth_code. rewrite bool_decide_eq_true_2 by done.
  repeat (apply elem_of_cons in Hin as [->|Hin]; [done|]).
  by apply elem_of_nil in Hin.
Qed.

(** C3, as the code has it. In a turn with i < N whose upstream answer is
    400, 401 or 404, the status being in the auto-ban set (auto-ban
    enabled), with a bound credential and a pool that then hands out a
    usable credential or none: the turn records the failed call, attempts
    a token refresh -- in every such turn, whatever the turns before did --
    and, on success, retries after 0.5 s without disabling or rotating;
    on failure it disables the current credential and rotates the pool
    before retrying after 0.5 s. *)
Theorem refresh_on_every_auth_error (is_streaming : bool) url model attempt
    l s code content rest next :
  upstream s = Reply code content :: rest →
  code ∈ [400; 401; 404] →
  auto_ban_enabled cfg = true → code ∈ auto_ban_error_codes cfg →
  Z.of_nat attempt < retry_429_max_retries cfg →
  current_file l ≠ "" →
  _get_next_credential (drop_refresh (drop_reply s))
  = (Ok next, [GetValidCredential],
     drop_credential (drop_refresh (drop_reply s))) →
  let failed :=
    if is_streaming
    then [CreateStreamingClient; StreamEnter url (bearer l) (project l);
          RecordApiCallResult (current_file l) false (Some code);
          StreamExit; ClientClose]
    else [Post url (bearer l) (project l);
          RecordApiCallResult (current_file l) false (Some code)] in
  one_attempt json_loads json_dumps cfg is_streaming url model attempt l s
  = (Ok (Continue (default l next)),
     failed ++ [ForceRefreshCurrentToken]
     ++ (if default false (head (refreshes s)) then []
         else [SetCredDisabled (current_file l); ForceRotateCredential])
     ++ [GetValidCredential; Sleep (1 # 2)],
     drop_credential (drop_refresh (drop_reply s))).
Proof.
  intros Hup Hcode Hen Hin Hcan%can_retry_true Hfile Hnext failed.
  destruct (auth_code_facts code Hcode) as (H429 & H200 & H5xx & Hauth).
  assert (_check_should_auto_ban cfg code = true) as Hban.
  { unfold _check_should_auto_ban. by rewrite Hen, bool_decide_eq_true_2. }
  pose proof (refresh_or_ban_run code l (drop_reply s) next Hauth Hfile Hnext)
    as Hrun.
  unfold one_attempt. apply try_except_ok. subst failed.
  destruct is_streaming.
  - unfold streaming_attempt.
    rewrite (bind_ok _ _ s tt [CreateStreamingClient] s eq_refl).
    erewrite try_except_ok; [reflexivity|].
    rewrite (bind_ok _ _ _ _ _ _ (upstream_call_reply _ _ _ _ _ Hup)).
    rewrite H429, H200. cbn [negb].
    rewrite (bind_ok _ _ _ _ _ _ (record_failure_run _ code _ Hfile)).
    rewrite (bind_ok _ _ (drop_reply s) tt [StreamExit] _ eq_refl).
    rewrite (bind_ok _ _ (drop_reply s) tt [ClientClose] _ eq_refl).
    rewrite H5xx, Hban, Hcan. cbn [andb]. by rewrite Hrun.
  - unfold unary_attempt.
    rewrite (bind_ok _ _ _ _ _ _ (upstream_call_reply _ _ _ _ _ Hup)).
    rewrite H429, H200, H5xx, Hban, Hcan. cbn [negb andb].
    rewrite (bind_ok _ _ _ _ _ _ (record_failure_run _ code _ Hfile)).
    by rewrite Hrun.
Qed.

(** ** Teardown of the streaming generator *)











End EngineProperties.

(** ** The engine on concrete scripts *)

Section EngineExamples.
Import Effect GoogleChatApi EngineSamples.

(** S1 of the design document, non-streaming: 429 on the first
    credential, 200 on the second. *)
Example rotate_and_succeed :
  send_gemini_request loads dumps conf "gemini-2.5-pro" false true
    {| credentials := Some ("a.json", cred) :: credentials one_rate_limit;
       refreshes := []; upstream := upstream one_rate_limit |}
  = (Ok (JsonResponse "{}"),
     [GetValidCredential;
      Post "https://upstream.example/v1internal:generateContent"
        "ya29.token" "project-1";
      RecordApiCallResult "a.json" false (Some 429);
      ForceRotateCredential; GetValidCredential; Sleep (1 # 10);
      Post "https://upstream.example/v1internal:generateContent"
        "ya29.token" "project-1";
      RecordApiCallResult "b.json" true None;
      RecordSuccessfulCall "b.json" "gemini-2.5-pro"],
     {| credentials := []; refreshes := []; upstream := [] |}).
Proof. vm_compute. reflexivity. Qed.


(** C3 as stated fails: the request below meets 401 twice, and the token
    is refreshed twice; the second 401 does not disable the credential. *)
Example two_refreshes_in_one_request :
  (send_gemini_request loads dumps conf "gemini-2.5-pro" false true
     two_auth_errors).1.2
  = [GetValidCredential;
     Post "https://upstream.example/v1internal:generateContent"
       "ya29.token" "project-1";
     RecordApiCallResult "a.json" false (Some 401);
     ForceRefreshCurrentToken; GetValidCredential; Sleep (1 # 2);
     Post "https://upstream.example/v1internal:generateContent"
       "ya29.token" "project-1";
     RecordApiCallResult "a.json" false (Some 401);
     ForceRefreshCurrentToken; GetValidCredential; Sleep (1 # 2);
     Post "https://upstream.example/v1internal:generateContent"
       "ya29.token" "project-1";
     RecordApiCallResult "a.json" true None;
     RecordSuccessfulCall "a.json" "gemini-2.5-pro"].
Proof. vm_compute. reflexivity. Qed.

(** So "at most one refresh per request" does not hold of the engine. *)
Lemma refresh_not_limited_to_first_attempt :
  ¬ (∀ cfg model is_streaming s,
       (length
          (filter (λ e, is_refresh e = true)
             (send_gemini_request loads dumps cfg model is_streaming true
                s).1.2)
        ≤ 1)%nat).
Proof.
  intros Hclaim.
  specialize (Hclaim conf "gemini-2.5-pro" false two_auth_errors).
  rewrite two_refreshes_in_one_request in Hclaim.
  vm_compute in Hclaim. lia.
Qed.

Lemma refresh_on_every_auth_error_witness :
  one_attempt loads dumps conf false "u" "m" 1 bound
    (drop_credential (drop_refresh (drop_reply two_auth_errors)))
  = (Ok (Continue bound),
     [Post "u" "ya29.token" "project-1";
      RecordApiCallResult "a.json" false (Some 401);
      ForceRefreshCurrentToken; GetValidCredential; Sleep (1 # 2)],
     {| credentials := [Some ("a.json", cred)]; refreshes := [];
        upstream := [Reply 200 "{}"] |}).
Proof.
  apply (refresh_on_every_auth_error loads dumps conf false "u" "m" 1%nat
           bound (drop_credential (drop_refresh (drop_reply two_auth_errors)))
           401 "" [Reply 200 "{}"] (Some bound)).
  - reflexivity.
  - apply elem_of_cons. right. apply elem_of_cons. by left.
  - reflexivity.
  - apply (bool_decide_unpack _). vm_compute. exact I.
  - simpl. lia.
  - by vm_compute.
  - reflexivity.
Defined.

(** The ways out of the generator. *)
Example stream_closes_cleanly :
  managed_stream_generator loads dumps dumps None "a.json" "m"
    [Line "data: 1"; Line ""; Line "data: 2"] 0%nat
  = (Ok tt,
     [RecordApiCallResult "a.json" true None; RecordSuccessfulCall "a.json" "m";
      Yield (sse_frame "{}"); Sleep 0; Yield (sse_frame "{}"); Sleep 0;
      StreamExit; ClientClose], 2%nat).
Proof. vm_compute. reflexivity. Qed.

Example stream_fails_midway :
  managed_stream_generator loads dumps dumps None "a.json" "m"
    [Line "data: 1"; LineError "peer closed connection"; Line "data: 2"] 0%nat
  = (Ok tt,
     [RecordApiCallResult "a.json" true None; RecordSuccessfulCall "a.json" "m";
      Yield (sse_frame "{}"); Sleep 0; Yield (sse_frame "null");
      StreamExit; ClientClose], 2%nat).
Proof. vm_compute. reflexivity. Qed.

Example stream_cancelled_after_first_frame :
  managed_stream_generator loads dumps dumps (Some 0%nat) "a.json" "m"
    [Line "data: 1"; Line "data: 2"] 0%nat
  = (Raised GeneratorExit,
     [RecordApiCallResult "a.json" true None; RecordSuccessfulCall "a.json" "m";
      Yield (sse_frame "{}"); StreamExit; ClientClose], 1%nat).
Proof. vm_compute. reflexivity. Qed.
Example stream_task_cancelled :
  managed_stream_generator loads dumps dumps None "a.json" "m"
    [Line "data: 1"; LineCancelled; Line "data: 2"] 0%nat
  = (Raised CancelledError,
     [RecordApiCallResult "a.json" true None; RecordSuccessfulCall "a.json" "m";
      Yield (sse_frame "{}"); Sleep 0; StreamExit; ClientClose], 1%nat).
Proof. vm_compute. reflexivity. Qed.
End EngineExamples.

(** * Further properties of the IP manager *)

Section AdmissionProperties.
Import IPManager.

Variable _get_ip_location : string → string.

(** ** The unban sweep *)

Lemma unban_due_spec clk d :
  unban_due clk d = true
  ↔ status d = Some "banned"
    ∧ 0 < default 0 (banned_time d)
    ∧ 86400 ≤ time_time clk - default 0 (banned_time d).
Proof.
  unfold unban_due, ban_expired.
  rewrite !andb_true_iff, bool_decide_eq_true, Z.ltb_lt, Z.leb_le. tauto.
Qed.

Lemma auto_unban_sweep_lookup clk m ip :
  default ∅ (ip_cache (_auto_unban_expired_ips clk m)) !! ip
  = auto_unban_one clk <$> default ∅ (ip_cache m) !! ip.
Proof.
  unfold _auto_unban_expired_ips.
  destruct (ip_cache m) as [ips|] eqn:Hc; simpl.
  - destruct (0 <? _)%nat; simpl; apply lookup_fmap.
  - rewrite Hc. simpl. by rewrite lookup_empty.
Qed.

Lemma auto_unban_sweep_dirty clk m :
  cache_dirty (_auto_unban_expired_ips clk m) = true
  ↔ cache_dirty m = true
    ∨ ∃ ip d, default ∅ (ip_cache m) !! ip = Some d ∧ unban_due clk d = true.
Proof.
  unfold _auto_unban_expired_ips.
  destruct (ip_cache m) as [ips|] eqn:Hc; simpl.
  - destruct (filter _ (map_to_list ips)) as [|[k d] rest] eqn:Hf; simpl.
    + split; [by left|]. intros [?|(ip & d & Hd & Hdue)]; [done|].
      assert ((ip, d) ∈ filter (λ kv : string * ip_data,
                                  unban_due clk kv.2 = true)
                               (map_to_list ips)) as Hin.
      { apply list_elem_of_filter. split; [done|].
        by apply elem_of_map_to_list. }
      rewrite Hf in Hin. by apply elem_of_nil in Hin.
    + split; [|done]. intros _. right. exists k, d.
      assert ((k, d) ∈ filter (λ kv : string * ip_data,
                                 unban_due clk kv.2 = true)
                              (map_to_list ips)) as Hin.
      { rewrite Hf. apply elem_of_cons. by left. }
      apply list_elem_of_filter in Hin as [Hdue Hin].
      by apply elem_of_map_to_list in Hin.
  - split; [by left|]. intros [?|(ip & d & Hd & _)]; [done|].
    by rewrite lookup_empty in Hd.
Qed.

(** X1 ([_auto_unban_expired_ips]). The unban sweep touches exactly the
    records whose ban has run out. An IP without a record gets none. A
    record with status "banned", a positive [banned_time] and a ban at
    least 86400 seconds old becomes "active" and gets [auto_unbanned_time]
    set to the time stamp of the sweep, every other field kept. Any other
    record is left as it is. The cache is dirty afterwards exactly when it
    was dirty before or some record was unbanned. *)
Theorem auto_unban_sweep clk m ip :
  let before := default ∅ (ip_cache m) in
  let after := default ∅ (ip_cache (_auto_unban_expired_ips clk m)) in
  (before !! ip = None → after !! ip = None)
  ∧ (∀ d, before !! ip = Some d →
       status d = Some "banned" →
       0 < default 0 (banned_time d) →
       86400 ≤ time_time clk - default 0 (banned_time d) →
       after !! ip
       = Some (set_auto_unbanned_time (stamp_str clk) (set_status "active" d)))
  ∧ (∀ d, before !! ip = Some d →
       ¬ (status d = Some "banned"
          ∧ 0 < default 0 (banned_time d)
          ∧ 86400 ≤ time_time clk - default 0 (banned_time d)) →
       after !! ip = Some d)
  ∧ (cache_dirty (_auto_unban_expired_ips clk m) = true
     ↔ cache_dirty m = true
       ∨ ∃ k d, before !! k = Some d
                ∧ status d = Some "banned"
                ∧ 0 < default 0 (banned_time d)
                ∧ 86400 ≤ time_time clk - default 0 (banned_time d)).
Proof.
  intros before after. subst before after. rewrite auto_unban_sweep_lookup.
  split; [by intros ->|]. split; [|split].
  - intros d -> Hs Hpos Hold. simpl. unfold auto_unban_one.
    by rewrite (proj2 (unban_due_spec clk d)).
  - intros d -> Hnot. simpl. unfold auto_unban_one.
    destruct (unban_due clk d) eqn:Hdue; [|done].
    by apply unban_due_spec in Hdue.
  - rewrite auto_unban_sweep_dirty.
    split; (intros [?|(k & d & Hd & Hdue)]; [by left|]);
      right; exists k, d; split; try done; by apply unban_due_spec.
Qed.

(** ** Admission *)

Lemma rate_limited_now_spec clk d :
  rate_limited_now clk d = true
  ↔ status d = Some "rate_limited"
    ∧ time_time clk - default 0 (last_request_time d)
      < default 60 (rate_limit_seconds d).
Proof.
  unfold rate_limited_now.
  by rewrite andb_true_iff, bool_decide_eq_true, Z.ltb_lt.
Qed.

(** The manager comes back unchanged from [check_ip_allowed] when the
    record of the IP, if there is one, carries no ban that has run out. *)
Lemma check_ip_allowed_not_due clk ip m :
  (∀ d, default ∅ (ip_cache m) !! ip = Some d → unban_due clk d = false) →
  (check_ip_allowed clk ip m).2 = m.
Proof.
  unfold check_ip_allowed.
  destruct (ip_cache m) as [ips|] eqn:Hc; simpl; [|done].
  destruct (ips !! ip) as [d|] eqn:Hd; [|done].
  intros Hdue. specialize (Hdue d eq_refl). unfold unban_due in Hdue.
  destruct (bool_decide (status d = Some "banned")); simpl in *.
  - by rewrite Hdue.
  - by destruct (rate_limited_now clk d).
Qed.

(** X2 ([check_ip_allowed]). An IP is refused exactly when it has a record
    that is banned with a ban that has not run out (no positive
    [banned_time], or a ban younger than 86400 seconds), or that is rate
    limited with its last request less than [rate_limit_seconds] (60 when
    absent) seconds ago. If the record carries no ban that has run out, the
    manager is returned unchanged. If it does, the IP is admitted, the
    cache is marked dirty, and the one record changed is that of the IP,
    which becomes "active" with [auto_unbanned_time] set. *)
Theorem check_ip_allowed_decision clk ip m :
  let table := default ∅ (ip_cache m) in
  ((check_ip_allowed clk ip m).1 = false
   ↔ ∃ d, table !! ip = Some d
          ∧ ((status d = Some "banned"
              ∧ ¬ (0 < default 0 (banned_time d)
                   ∧ 86400 ≤ time_time clk - default 0 (banned_time d)))
             ∨ (status d = Some "rate_limited"
                ∧ time_time clk - default 0 (last_request_time d)
                  < default 60 (rate_limit_seconds d))))
  ∧ ((∀ d, table !! ip = Some d → unban_due clk d = false) →
     (check_ip_allowed clk ip m).2 = m)
  ∧ (∀ d, table !! ip = Some d → unban_due clk d = true →
       (check_ip_allowed clk ip m).1 = true
       ∧ cache_dirty (check_ip_allowed clk ip m).2 = true
       ∧ ∀ k, default ∅ (ip_cache (check_ip_allowed clk ip m).2) !! k
              = if decide (k = ip)
                then Some (set_auto_unbanned_time (stamp_str clk)
                             (set_status "active" d))
                else table !! k).
Proof.
  intros table. subst table. unfold check_ip_allowed.
  destruct (ip_cache m) as [ips|] eqn:Hc; simpl.
  2:{ rewrite lookup_empty. split; [|split]; [|done|done].
      split; [done|]. by intros (d & ? & _). }
  destruct (ips !! ip) as [d|] eqn:Hd.
  2:{ split; [|split]; [|done|done]. split; [done|]. by intros (d & ? & _). }
  unfold unban_due.
  destruct (bool_decide (status d = Some "banned")) eqn:Hb.
  - apply bool_decide_eq_true in Hb.
    destruct (ban_expired clk d) eqn:He; simpl.
    + split; [|split].
      * split; [done|]. intros (d' & [= <-] & [[_ Hnot]|[Hrl _]]).
        -- destruct Hnot. unfold ban_expired in He.
           apply andb_true_iff in He as [?%Z.ltb_lt ?%Z.leb_le]. lia.
        -- congruence.
      * intros Hdue. specialize (Hdue d eq_refl).
        by rewrite bool_decide_eq_true_2, He in Hdue.
      * intros d' [= <-] _. split; [done|]. split; [done|].
        intros k. case_decide as Hk.
        -- subst. apply lookup_insert_eq.
        -- by apply lookup_insert_ne.
    + split; [|split].
      * split; [|done]. intros _. exists d. split; [done|]. left.
        split; [done|]. intros [Hpos Hold].
        unfold ban_expired in He. apply andb_false_iff in He.
        destruct He as [?%Z.ltb_ge|?%Z.leb_gt]; lia.
      * done.
      * intros d' [= <-] Hdue. by rewrite He, andb_false_r in Hdue.
  - apply bool_decide_eq_false in Hb. simpl. split; [|split].
    + destruct (rate_limited_now clk d) eqn:Hrl; simpl.
      * split; [|done]. intros _. exists d. split; [done|]. right.
        by apply rate_limited_now_spec.
      * split; [done|]. intros (d' & [= <-] & [[? _]|Hr]); [done|].
        apply rate_limited_now_spec in Hr. congruence.
    + by destruct (rate_limited_now clk d).
    + intros d' [= <-] Hdue. by rewrite bool_decide_eq_false_2 in Hdue.
Qed.

(** The table after [check_ip_allowed]: the record of the IP has gone
    through [auto_unban_one], the others are as before. *)
Lemma check_ip_allowed_lookup clk ip m k :
  default ∅ (ip_cache (check_ip_allowed clk ip m).2) !! k
  = if decide (k = ip)
    then auto_unban_one clk <$> default ∅ (ip_cache m) !! ip
    else default ∅ (ip_cache m) !! k.
Proof.
  unfold check_ip_allowed.
  destruct (ip_cache m) as [ips|] eqn:Hc; simpl.
  2:{ rewrite Hc. simpl. rewrite !lookup_empty. by case_decide. }
  destruct (ips !! ip) as [d|] eqn:Hd; simpl.
  2:{ rewrite Hc. simpl. case_decide; by subst. }
  unfold auto_unban_one, unban_due.
  destruct (bool_decide (status d = Some "banned")); simpl.
  - destruct (ban_expired clk d); simpl.
    + case_decide; subst;
        [by rewrite lookup_insert_eq | by rewrite lookup_insert_ne].
    + rewrite Hc. simpl. case_decide; by subst.
  - destruct (rate_limited_now clk d); simpl; rewrite Hc; simpl;
      case_decide; by subst.
Qed.

(** X3 ([check_ip_allowed], [_auto_unban_expired_ips], [record_request]).
    A banned record whose [banned_time] is absent, zero or negative is
    never unbanned, whatever the clock says: [check_ip_allowed] refuses the
    IP and changes nothing, the unban sweep keeps the record, and
    [record_request] refuses every request of the IP. *)
Theorem ban_without_time_is_permanent clk ip m d :
  default ∅ (ip_cache m) !! ip = Some d →
  status d = Some "banned" →
  default 0 (banned_time d) ≤ 0 →
  check_ip_allowed clk ip m = (false, m)
  ∧ default ∅ (ip_cache (_auto_unban_expired_ips clk m)) !! ip = Some d
  ∧ ∀ ep ua mo, (record_request _get_ip_location clk ip ep ua mo m).1 = false.
Proof.
  intros Hd Hs Hbt.
  assert (ban_expired clk d = false) as He.
  { unfold ban_expired. apply andb_false_iff. left. by apply Z.ltb_ge. }
  split; [|split].
  - unfold check_ip_allowed.
    destruct (ip_cache m) as [ips|]; simpl in Hd;
      [|by rewrite lookup_empty in Hd].
    by rewrite Hd, bool_decide_eq_true_2, He.
  - rewrite auto_unban_sweep_lookup, Hd. simpl. unfold auto_unban_one, unban_due.
    by rewrite He, andb_false_r.
  - intros ep ua mo. unfold record_request. rewrite Hd. unfold record_refused.
    by rewrite bool_decide_eq_true_2.
Qed.

Lemma auto_unban_one_not_due clk d :
  unban_due clk (auto_unban_one clk d) = false.
Proof.
  unfold auto_unban_one. destruct (unban_due clk d) eqn:Hdue; [|done].
  reflexivity.
Qed.

(** X4 ([_auto_unban_expired_ips], [check_ip_allowed], [record_request]).
    On a manager that the unban sweep has just gone over, with the same
    reading of the clock, [check_ip_allowed] changes nothing and
    [record_request] admits an IP exactly when [check_ip_allowed] does. *)
Theorem admission_after_sweep clk ip ep ua mo m :
  let swept := _auto_unban_expired_ips clk m in
  (check_ip_allowed clk ip swept).2 = swept
  ∧ (record_request _get_ip_location clk ip ep ua mo swept).1
    = (check_ip_allowed clk ip swept).1.
Proof.
  intros swept.
  assert (∀ d, default ∅ (ip_cache swept) !! ip = Some d →
               unban_due clk d = false) as Hnot.
  { intros d. subst swept. rewrite auto_unban_sweep_lookup.
    destruct (_ !! ip) as [d0|]; [|done]. intros [= <-].
    apply auto_unban_one_not_due. }
  split.
  - by apply check_ip_allowed_not_due.
  - apply admission_agrees. intros ips d Hc Hd. apply Hnot.
    by rewrite Hc.
Qed.
End AdmissionProperties.

Section AdmissionExamples.
Import IPManager Samples.

Lemma auto_unban_sweep_witness :
  let old_ban := visitor 120 "2023-11-13" "banned" (Some 1699900000) in
  let m := store "198.51.100.7" old_ban in
  (default ∅ (ip_cache m) !! "198.51.100.7" = Some old_ban
   ∧ status old_ban = Some "banned"
   ∧ 0 < default 0 (banned_time old_ban)
   ∧ 86400 ≤ time_time noon - default 0 (banned_time old_ban))
  ∧ default ∅ (ip_cache (_auto_unban_expired_ips noon m)) !! "198.51.100.7"
    = Some (set_auto_unbanned_time "2023-11-15 06:13:20"
              (set_status "active" old_ban))
  ∧ default ∅ (ip_cache (_auto_unban_expired_ips noon m)) !! "203.0.113.9"
    = None.
Proof.
  intros old_ban m.
  assert (default ∅ (ip_cache m) !! "198.51.100.7" = Some old_ban) as Hd
    by apply lookup_singleton_eq.
  assert (default ∅ (ip_cache m) !! "203.0.113.9" = None) as Hnone
    by (by apply lookup_singleton_ne).
  assert (0 < default 0 (banned_time old_ban)) as Hpos by (simpl; lia).
  assert (86400 ≤ time_time noon - default 0 (banned_time old_ban)) as Hold
    by (simpl; lia).
  split; [done|].
  destruct (auto_unban_sweep noon m "198.51.100.7") as (_ & Hlift & _).
  destruct (auto_unban_sweep noon m "203.0.113.9") as (Hnew & _).
  split; [exact (Hlift old_ban Hd eq_refl Hpos Hold) | exact (Hnew Hnone)].
Defined.

Lemma check_ip_allowed_decision_witness :
  let recent_ban := visitor 120 "2023-11-14" "banned" (Some 1699990000) in
  let m := store "198.51.100.7" recent_ban in
  (∀ d, default ∅ (ip_cache m) !! "198.51.100.7" = Some d →
        unban_due noon d = false)
  ∧ (check_ip_allowed noon "198.51.100.7" m).1 = false
  ∧ (check_ip_allowed noon "198.51.100.7" m).2 = m.
Proof.
  intros recent_ban m.
  assert (∀ d, default ∅ (ip_cache m) !! "198.51.100.7" = Some d →
               unban_due noon d = false) as Hdue.
  { intros d Hd. assert (Some recent_ban = Some d) as [= <-]; [|done].
    rewrite <- Hd. symmetry. apply lookup_singleton_eq. }
  destruct (check_ip_allowed_decision noon "198.51.100.7" m)
    as (Hrefused & Hsame & _).
  split; [exact Hdue|]. split; [|exact (Hsame Hdue)].
  apply Hrefused. exists recent_ban. split; [apply lookup_singleton_eq|].
  left. split; [done|]. simpl. lia.
Defined.

Lemma ban_without_time_is_permanent_witness :
  let d := visitor 120 "2023-11-01" "banned" None in
  let m := store "198.51.100.7" d in
  (default ∅ (ip_cache m) !! "198.51.100.7" = Some d
   ∧ status d = Some "banned"
   ∧ default 0 (banned_time d) ≤ 0)
  ∧ check_ip_allowed noon "198.51.100.7" m = (false, m)
  ∧ default ∅ (ip_cache (_auto_unban_expired_ips noon m)) !! "198.51.100.7"
    = Some d
  ∧ ∀ ep ua mo,
      (record_request resolver noon "198.51.100.7" ep ua mo m).1 = false.
Proof.
  intros d m.
  assert (default ∅ (ip_cache m) !! "198.51.100.7" = Some d) as Hd
    by apply lookup_singleton_eq.
  assert (default 0 (banned_time d) ≤ 0) as Hbt by (simpl; lia).
  split; [done|].
  exact (ban_without_time_is_permanent resolver noon "198.51.100.7" m d Hd
           eq_refl Hbt).
Defined.
End AdmissionExamples.

(** * Further properties of recording *)

Section RecordingProperties.
Import IPManager.

Variable _get_ip_location : string → string.

(** The record an admitted [record_request] writes, from the record [d0]
    it starts from (the stored one, or the new one of a first contact). *)
Lemma record_request_unfold clk ip ep ua mo m :
  let table := default ∅ (ip_cache m) in
  record_request _get_ip_location clk ip ep ua mo m
  = match table !! ip with
    | Some d =>
        if record_refused clk d then (false, with_ips table m)
        else
          (true,
           with_dirty
             (with_ips
                (<[ip := note_endpoint ep
                           (note_model mo
                              (note_user_agent ua
                                 (update_counters clk (reset_daily clk d))))]>
                   table) m))
    | None =>
        (true,
         with_dirty
           (with_ips
              (<[ip := note_endpoint ep
                         (note_model mo
                            (note_user_agent ua
                               (update_counters clk
                                  (reset_daily clk
                                     (new_ip_data clk
                                        (_get_ip_location ip))))))]>
                 table) m))
    end.
Proof.
  cbv zeta. unfold record_request.
  destruct (default ∅ (ip_cache m) !! ip) as [d|]; [|done].
  by destruct (record_refused clk d).
Qed.

Ltac crunch_recorded :=
  unfold note_endpoint, note_model, note_user_agent, update_counters,
    reset_daily;
  repeat match goal with
         | |- context [match ?o with Some _ => _ | None => _ end] =>
             destruct o
         | |- context [if ?b then _ else _] => destruct b
         end;
  try reflexivity.

Lemma note_user_agent_congr ua d1 d2 :
  user_agents d1 = user_agents d2 →
  user_agents (note_user_agent ua d1) = user_agents (note_user_agent ua d2).
Proof.
  intros Heq. unfold note_user_agent. destruct ua as [s|]; [|done].
  rewrite Heq. by destruct (_ && _).
Qed.

Lemma recorded_counters clk ep ua mo d :
  let d' := note_endpoint ep
              (note_model mo
                 (note_user_agent ua (update_counters clk (reset_daily clk d))))
  in
  total_requests d' = Some (default 0 (total_requests d) + 1)
  ∧ today_requests d'
    = Some ((if bool_decide (default "" (today_date d) ≠ today_str clk)
             then 0 else default 0 (today_requests d)) + 1)
  ∧ today_date d'
    = (if bool_decide (default "" (today_date d) ≠ today_str clk)
       then Some (today_str clk) else today_date d)
  ∧ last_request_time d' = Some (time_time clk)
  ∧ last_seen d' = Some (stamp_str clk)
  ∧ endpoints d' = Some (bump ep (default ∅ (endpoints d)))
  ∧ status d' = status d
  ∧ banned_time d' = banned_time d
  ∧ rate_limit_seconds d' = rate_limit_seconds d
  ∧ first_seen d' = first_seen d
  ∧ location d' = location d
  ∧ user_agents d' = user_agents (note_user_agent ua d).
Proof.
  cbv zeta. repeat split; try (by crunch_recorded).
  transitivity (user_agents
                  (note_user_agent ua
                     (update_counters clk (reset_daily clk d)))).
  - unfold note_endpoint, note_model. destruct mo as [k|]; [|done].
    by destruct (truthy_str _).
  - apply note_user_agent_congr. unfold update_counters, reset_daily.
    by destruct (bool_decide _).
Qed.

Lemma table_with_dirty_with_ips ips m :
  default ∅ (ip_cache (with_dirty (with_ips ips m))) = ips.
Proof. reflexivity. Qed.

(** X5 ([record_request]). If every record of the table counts no more
    requests today than in total, and no negative number of them, then so
    does every record of the table after [record_request], whether the
    request was admitted or refused and whether the IP was known or not. *)
Theorem record_request_keeps_today_le_total clk ip ep ua mo m :
  (∀ k d, default ∅ (ip_cache m) !! k = Some d →
          0 ≤ default 0 (today_requests d) ≤ default 0 (total_requests d)) →
  ∀ k d,
    default ∅ (ip_cache (record_request _get_ip_location clk ip ep ua mo m).2)
      !! k = Some d →
    0 ≤ default 0 (today_requests d) ≤ default 0 (total_requests d).
Proof.
  intros Hinv k d'. rewrite record_request_unfold. cbv zeta.
  destruct (default ∅ (ip_cache m) !! ip) as [d|] eqn:Hd.
  - destruct (record_refused clk d); cbn [snd].
    + apply Hinv.
    + rewrite table_with_dirty_with_ips.
      destruct (decide (k = ip)) as [->|Hne].
      * rewrite lookup_insert_eq. intros [= <-].
        destruct (recorded_counters clk ep ua mo d) as (-> & -> & _).
        specialize (Hinv ip d Hd). cbn [from_option id].
        destruct (bool_decide _); lia.
      * rewrite lookup_insert_ne by done. apply Hinv.
  - cbn [snd]. rewrite table_with_dirty_with_ips.
    destruct (decide (k = ip)) as [->|Hne].
    + rewrite lookup_insert_eq. intros [= <-].
      destruct (recorded_counters clk ep ua mo
                  (new_ip_data clk (_get_ip_location ip))) as (-> & -> & _).
      cbn [from_option id new_ip_data today_date today_requests
             total_requests].
      destruct (bool_decide _); lia.
    + rewrite lookup_insert_ne by done. apply Hinv.
Qed.

Lemma last_ten_length l : (length (last_ten l) ≤ 10)%nat.
Proof. unfold last_ten. rewrite length_drop. lia. Qed.

Lemma last_ten_app_last l (x : string) : x ∈ last_ten (l ++ [x]).
Proof.
  unfold last_ten. rewrite length_app. cbn [length].
  destruct (decide (length l + 1 - 10 ≤ length l)%nat) as [Hle|Hgt]; [|lia].
  rewrite drop_app_le by done. apply elem_of_app. right.
  apply elem_of_cons. by left.
Qed.

Lemma last_ten_NoDup (l : list string) : NoDup l → NoDup (last_ten l).
Proof.
  unfold last_ten. intros Hnd.
  rewrite <- (take_drop (length l - 10) l) in Hnd.
  by apply NoDup_app in Hnd as (_ & _ & ?).
Qed.

Lemma last_ten_subseteq (l : list string) x : x ∈ last_ten l → x ∈ l.
Proof. unfold last_ten. apply subseteq_drop. Qed.

(** The list of user agents after one request, from the list before. *)
Lemma note_user_agent_list ua d :
  let old := default [] (user_agents d) in
  let new := default [] (user_agents (note_user_agent ua d)) in
  (length new ≤ Nat.max 10 (length old))%nat
  ∧ (NoDup old → NoDup new)
  ∧ (∀ x, x ∈ new → x ∈ old ∨ ua = Some x)
  ∧ (∀ x, ua = Some x → x ≠ "" → x ∈ new).
Proof.
  cbv zeta. unfold note_user_agent. destruct ua as [s|].
  2:{ repeat split; [lia|done|by left|done]. }
  unfold truthy_str.
  destruct (bool_decide (s = "")) eqn:Hempty; cbn [negb andb].
  { apply bool_decide_eq_true in Hempty.
    repeat split; [lia|done|by left|]. intros x [= <-] Hne. done. }
  destruct (bool_decide (s ∈ default [] (user_agents d))) eqn:Hin;
    cbn [negb].
  { apply bool_decide_eq_true in Hin.
    repeat split; [lia|done|by left|]. by intros x [= <-] _. }
  apply bool_decide_eq_false in Hin. cbn [user_agents set_user_agents].
  cbn [from_option id]. repeat split.
  - pose proof (last_ten_length (default [] (user_agents d) ++ [s])). lia.
  - intros Hnd. apply last_ten_NoDup. apply NoDup_app. repeat split; try done.
    + intros x Hx Hxs. apply elem_of_cons in Hxs as [->|Hxs]; [done|].
      by apply elem_of_nil in Hxs.
    + apply NoDup_singleton.
  - intros x Hx%last_ten_subseteq. apply elem_of_app in Hx as [?|Hx]; [by left|].
    right. apply elem_of_cons in Hx as [->|Hx]; [done|].
    by apply elem_of_nil in Hx.
  - intros x [= <-] _. apply last_ten_app_last.
Qed.

(** X6 ([record_request]). An admitted request of a known IP leaves a
    list of user agents that is no longer than ten entries, or than it was
    before if that was more, that has no duplicates if it had none, that
    holds nothing but old entries and the user agent of the request, and
    that holds the user agent of the request when that is not empty. *)
Theorem record_request_user_agents clk ip ep ua mo m d :
  default ∅ (ip_cache m) !! ip = Some d →
  record_refused clk d = false →
  ∃ d',
    default ∅ (ip_cache (record_request _get_ip_location clk ip ep ua mo m).2)
      !! ip = Some d'
    ∧ let old := default [] (user_agents d) in
      let new := default [] (user_agents d') in
      (length new ≤ Nat.max 10 (length old))%nat
      ∧ (NoDup old → NoDup new)
      ∧ (∀ x, x ∈ new → x ∈ old ∨ ua = Some x)
      ∧ (∀ x, ua = Some x → x ≠ "" → x ∈ new).
Proof.
  intros Hd Hadm. rewrite record_request_unfold. cbv zeta.
  rewrite Hd, Hadm. cbn [snd]. rewrite table_with_dirty_with_ips.
  rewrite lookup_insert_eq. eexists. split; [reflexivity|].
  destruct (recorded_counters clk ep ua mo d)
    as (_ & _ & _ & _ & _ & _ & _ & _ & _ & _ & _ & ->).
  apply note_user_agent_list.
Qed.

(** X7 ([record_request]). The first request of an IP that has no record
    is admitted and creates the record: one request in total and one
    today, today's date, status "active", first seen and last request at
    the time of the call, the location the resolver gives for the IP, the
    endpoint counted once, and no ban time. *)
Theorem record_request_first_contact clk ip ep ua mo m :
  default ∅ (ip_cache m) !! ip = None →
  ∃ d,
    (record_request _get_ip_location clk ip ep ua mo m).1 = true
    ∧ default ∅
        (ip_cache (record_request _get_ip_location clk ip ep ua mo m).2) !! ip
      = Some d
    ∧ total_requests d = Some 1
    ∧ today_requests d = Some 1
    ∧ today_date d = Some (today_str clk)
    ∧ status d = Some "active"
    ∧ first_seen d = Some (stamp_str clk)
    ∧ last_request_time d = Some (time_time clk)
    ∧ location d = Some (_get_ip_location ip)
    ∧ endpoints d = Some {[ep := 1]}
    ∧ banned_time d = None.
Proof.
  intros Hnew. rewrite record_request_unfold. cbv zeta. rewrite Hnew.
  cbn [fst snd]. rewrite table_with_dirty_with_ips, lookup_insert_eq.
  eexists. split; [done|]. split; [reflexivity|].
  destruct (recorded_counters clk ep ua mo
              (new_ip_data clk (_get_ip_location ip)))
    as (-> & -> & -> & -> & _ & -> & -> & -> & _ & -> & -> & _).
  cbn [new_ip_data today_date today_requests total_requests status first_seen
         location endpoints banned_time from_option id].
  rewrite bool_decide_eq_false_2 by (intros Hne; by apply Hne).
  repeat split.
Qed.

(** X8 ([record_request]). An admitted request of a known IP returns
    [True], marks the cache dirty and replaces the record of the IP by one
    with the total raised by one, the time of the last request set to the
    clock, the count of the endpoint raised by one and the counts of all
    other endpoints as before, and with status, ban time, rate limit, first
    seen and location as before. *)
Theorem record_request_counts clk ip ep ua mo m d :
  default ∅ (ip_cache m) !! ip = Some d →
  record_refused clk d = false →
  ∃ d',
    record_request _get_ip_location clk ip ep ua mo m
    = (true,
       with_dirty (with_ips (<[ip := d']> (default ∅ (ip_cache m))) m))
    ∧ total_requests d' = Some (default 0 (total_requests d) + 1)
    ∧ last_request_time d' = Some (time_time clk)
    ∧ default 0 (default ∅ (endpoints d') !! ep)
      = default 0 (default ∅ (endpoints d) !! ep) + 1
    ∧ (∀ other, other ≠ ep →
         default ∅ (endpoints d') !! other = default ∅ (endpoints d) !! other)
    ∧ status d' = status d
    ∧ banned_time d' = banned_time d
    ∧ rate_limit_seconds d' = rate_limit_seconds d
    ∧ first_seen d' = first_seen d
    ∧ location d' = location d.
Proof.
  intros Hd Hadm. rewrite record_request_unfold. cbv zeta. rewrite Hd, Hadm.
  eexists. split; [reflexivity|].
  destruct (recorded_counters clk ep ua mo d)
    as (-> & _ & _ & -> & _ & -> & -> & -> & -> & -> & -> & _).
  cbn [from_option id]. unfold bump. rewrite lookup_insert_eq.
  repeat split. intros other Hne. by rewrite lookup_insert_ne.
Qed.

(** X9 ([record_request]). [record_request] never touches the record of
    another IP nor the throttle file of the operators. When it refuses, the
    table and the dirty flag are as before; when it admits, the cache is
    dirty and the IP has a record. *)
Theorem record_request_frame clk ip ep ua mo m :
  (∀ other, other ≠ ip →
     default ∅
       (ip_cache (record_request _get_ip_location clk ip ep ua mo m).2)
       !! other
     = default ∅ (ip_cache m) !! other)
  ∧ ban_operations_file (record_request _get_ip_location clk ip ep ua mo m).2
    = ban_operations_file m
  ∧ ((record_request _get_ip_location clk ip ep ua mo m).1 = false →
     default ∅
       (ip_cache (record_request _get_ip_location clk ip ep ua mo m).2)
     = default ∅ (ip_cache m)
     ∧ cache_dirty (record_request _get_ip_location clk ip ep ua mo m).2
       = cache_dirty m)
  ∧ ((record_request _get_ip_location clk ip ep ua mo m).1 = true →
     cache_dirty (record_request _get_ip_location clk ip ep ua mo m).2 = true
     ∧ is_Some
         (default ∅
            (ip_cache (record_request _get_ip_location clk ip ep ua mo m).2)
            !! ip)).
Proof.
  rewrite record_request_unfold. cbv zeta.
  destruct (default ∅ (ip_cache m) !! ip) as [d|] eqn:Hd;
    [destruct (record_refused clk d)|]; cbn [fst snd];
    repeat split; try done;
    try (intros other Hne; rewrite table_with_dirty_with_ips;
         by rewrite lookup_insert_ne);
    try (rewrite table_with_dirty_with_ips, lookup_insert_eq; by eexists).
Qed.
End RecordingProperties.

Section RecordingExamples.
Import IPManager Samples.

Lemma record_request_keeps_today_le_total_witness :
  let m := store "198.51.100.7" (visitor 5 "2023-11-15" "active" None) in
  (∀ k d, default ∅ (ip_cache m) !! k = Some d →
          0 ≤ default 0 (today_requests d) ≤ default 0 (total_requests d))
  ∧ ∀ k d,
      default ∅
        (ip_cache
           (record_request resolver noon "203.0.113.9" "/v1/models" None None
              m).2) !! k = Some d →
      0 ≤ default 0 (today_requests d) ≤ default 0 (total_requests d).
Proof.
  intros m.
  assert (∀ k d, default ∅ (ip_cache m) !! k = Some d →
                 0 ≤ default 0 (today_requests d)
                 ≤ default 0 (total_requests d)) as Hinv.
  { intros k d Hk. unfold m, store in Hk.
    cbn [ip_cache from_option id] in Hk.
    apply lookup_singleton_Some in Hk as [_ <-]. simpl. lia. }
  split; [exact Hinv|].
  exact (record_request_keeps_today_le_total resolver noon "203.0.113.9"
           "/v1/models" None None m Hinv).
Defined.

Lemma record_request_user_agents_witness :
  let d := visitor 5 "2023-11-15" "active" None in
  let m := store "198.51.100.7" d in
  (default ∅ (ip_cache m) !! "198.51.100.7" = Some d
   ∧ record_refused noon d = false)
  ∧ ∃ d',
      default ∅
        (ip_cache
           (record_request resolver noon "198.51.100.7" "/v1/models"
              (Some "curl/8.0") None m).2) !! "198.51.100.7" = Some d'
      ∧ "curl/8.0" ∈ default [] (user_agents d')
      ∧ (length (default [] (user_agents d')) ≤ 10)%nat.
Proof.
  intros d m.
  assert (default ∅ (ip_cache m) !! "198.51.100.7" = Some d) as Hd
    by apply lookup_singleton_eq.
  split; [done|].
  destruct (record_request_user_agents resolver noon "198.51.100.7"
              "/v1/models" (Some "curl/8.0") None m d Hd eq_refl)
    as (d' & Hd' & Hlen & _ & _ & Hin).
  exists d'. split; [exact Hd'|]. split; [by apply (Hin _ eq_refl)|].
  exact Hlen.
Defined.

Lemma record_request_first_contact_witness :
  default ∅ (ip_cache empty_store) !! "203.0.113.9" = None
  ∧ ∃ d,
      (record_request resolver noon "203.0.113.9" "/v1/models" None None
         empty_store).1 = true
      ∧ default ∅
          (ip_cache
             (record_request resolver noon "203.0.113.9" "/v1/models" None
                None empty_store).2) !! "203.0.113.9" = Some d
      ∧ total_requests d = Some 1
      ∧ today_requests d = Some 1
      ∧ status d = Some "active".
Proof.
  assert (default ∅ (ip_cache empty_store) !! "203.0.113.9" = None) as Hnew
    by (unfold empty_store; cbn [ip_cache from_option id];
        apply lookup_empty).
  split; [exact Hnew|].
  destruct (record_request_first_contact resolver noon "203.0.113.9"
              "/v1/models" None None empty_store Hnew)
    as (d & Hok & Hd & Htot & Htoday & _ & Hst & _).
  by exists d.
Defined.

Lemma record_request_counts_witness :
  let d := visitor 5 "2023-11-15" "active" None in
  let m := store "198.51.100.7" d in
  (default ∅ (ip_cache m) !! "198.51.100.7" = Some d
   ∧ record_refused noon d = false)
  ∧ ∃ d',
      record_request resolver noon "198.51.100.7" "/v1/models" None None m
      = (true,
         with_dirty
           (with_ips (<["198.51.100.7" := d']> (default ∅ (ip_cache m))) m))
      ∧ total_requests d' = Some 301
      ∧ default 0 (default ∅ (endpoints d') !! "/v1/models") = 1.
Proof.
  intros d m.
  assert (default ∅ (ip_cache m) !! "198.51.100.7" = Some d) as Hd
    by apply lookup_singleton_eq.
  split; [done|].
  destruct (record_request_counts resolver noon "198.51.100.7" "/v1/models"
              None None m d Hd eq_refl)
    as (d' & Hrun & Htot & _ & Hep & _).
  exists d'. split; [exact Hrun|]. split; [exact Htot|]. exact Hep.
Defined.

Lemma record_request_frame_witness :
  let d := visitor 120 "2023-11-14" "banned" (Some 1699990000) in
  let m := store "198.51.100.7" d in
  let after :=
    record_request resolver noon "198.51.100.7" "/v1/models" None None m in
  after.1 = false
  ∧ default ∅ (ip_cache after.2) = default ∅ (ip_cache m)
  ∧ cache_dirty after.2 = cache_dirty m.
Proof.
  intros d m after.
  assert (after.1 = false) as Hrefused.
  { subst after. unfold record_request.
    cbn [m store ip_cache from_option id]. rewrite lookup_singleton_eq.
    reflexivity. }
  split; [exact Hrefused|].
  destruct (record_request_frame resolver noon "198.51.100.7" "/v1/models"
              None None m) as (_ & _ & Hsame & _).
  exact (Hsame Hrefused).
Defined.
End RecordingExamples.

(** * Further properties of status mutation and of the periodic task *)

Section StatusProperties.
Import IPManager IPManagerViews.

Variable _get_ip_location : string → string.

Lemma set_ip_status_not_banning clk ip st rl op m :
  st = "active" ∨ st = "rate_limited" →
  set_ip_status _get_ip_location clk ip st rl op m
  = ((true, ""),
     with_dirty
       (with_ips
          (apply_status _get_ip_location clk ip st rl (default ∅ (ip_cache m)))
          m)).
Proof.
  intros [-> | ->]; unfold set_ip_status; cbn [negb];
    by destruct op.
Qed.

(** X10 ([set_ip_status]). Setting the status "active" or "rate_limited"
    passes no guard: whoever the operator, however few requests the IP has
    made, the call returns [True] with an empty message, marks the cache
    dirty and writes a record with the new status. The rate limit is
    replaced only for "rate_limited" with a non-zero number of seconds;
    ban time and counters are those of the old record, and zero counters
    and no ban time for an IP that had none. *)
Theorem set_ip_status_unguarded clk ip st rl op m :
  st = "active" ∨ st = "rate_limited" →
  let before := default ∅ (ip_cache m) !! ip in
  ∃ d',
    set_ip_status _get_ip_location clk ip st rl op m
    = ((true, ""),
       with_dirty (with_ips (<[ip := d']> (default ∅ (ip_cache m))) m))
    ∧ status d' = Some st
    ∧ rate_limit_seconds d'
      = (if bool_decide (st = "rate_limited") && truthy_int rl then rl
         else before ≫= rate_limit_seconds)
    ∧ banned_time d' = before ≫= banned_time
    ∧ total_requests d'
      = match before with Some d => total_requests d | None => Some 0 end
    ∧ today_requests d'
      = match before with Some d => today_requests d | None => Some 0 end.
Proof.
  intros Hst. cbv zeta. rewrite set_ip_status_not_banning by done.
  unfold apply_status. eexists. split; [reflexivity|].
  assert (bool_decide (st = "banned") = false) as ->.
  { apply bool_decide_eq_false. by destruct Hst as [-> | ->]. }
  destruct (default ∅ (ip_cache m) !! ip) as [d|];
    destruct rl as [secs|]; cbn [mbind option_bind truthy_int];
    try (destruct (bool_decide (st = "rate_limited"));
         cbn [andb]; try destruct (negb (secs =? 0)));
    repeat split;
    by rewrite ?andb_false_r.
Qed.

(** X11 ([set_ip_status], [check_ip_allowed], [record_request]). A ban
    that passes the guards returns [True] and holds for 86400 seconds:
    before that, [check_ip_allowed] refuses the IP and changes nothing and
    [record_request] refuses its requests; from then on
    [check_ip_allowed] admits the IP and turns its record "active" with
    [auto_unbanned_time] set. *)
Theorem ban_then_admission clk later ip rl m :
  user_protection (default ∅ (ip_cache m)) ip = None →
  0 < time_time clk →
  let banned := (set_ip_status _get_ip_location clk ip "banned" rl None m).2 in
  (set_ip_status _get_ip_location clk ip "banned" rl None m).1 = (true, "")
  ∧ (time_time later - time_time clk < 86400 →
     check_ip_allowed later ip banned = (false, banned)
     ∧ ∀ ep ua mo,
         (record_request _get_ip_location later ip ep ua mo banned).1 = false)
  ∧ (86400 ≤ time_time later - time_time clk →
     (check_ip_allowed later ip banned).1 = true
     ∧ ∃ d, default ∅ (ip_cache (check_ip_allowed later ip banned).2) !! ip
            = Some d
            ∧ status d = Some "active"
            ∧ auto_unbanned_time d = Some (stamp_str later)).
Proof.
  intros Hup Hpos banned. subst banned.
  rewrite set_ip_status_ban_no_operator by done. cbn [fst snd].
  destruct (apply_status_banned _get_ip_location clk ip rl
              (default ∅ (ip_cache m))) as (d & Hd & Hs & Hb).
  split; [done|]. split.
  - intros Hrecent.
    assert (ban_expired later d = false) as He.
    { unfold ban_expired. rewrite Hb. cbn [from_option id].
      apply andb_false_iff. right. apply Z.leb_gt. lia. }
    split.
    + unfold check_ip_allowed. cbn [ip_cache with_dirty with_ips].
      by rewrite Hd, bool_decide_eq_true_2, He.
    + intros ep ua mo. unfold record_request.
      cbn [ip_cache with_dirty with_ips from_option id]. rewrite Hd.
      unfold record_refused. by rewrite bool_decide_eq_true_2.
  - intros Hold.
    assert (ban_expired later d = true) as He.
    { unfold ban_expired. rewrite Hb. cbn [from_option id].
      apply andb_true_iff. split; [by apply Z.ltb_lt | by apply Z.leb_le]. }
    unfold check_ip_allowed. cbn [ip_cache with_dirty with_ips].
    rewrite Hd, bool_decide_eq_true_2, He by done.
    rewrite active_not_rate_limited. cbn [fst snd].
    split; [done|]. eexists. cbn [ip_cache with_dirty with_ips from_option id].
    rewrite lookup_insert_eq. split; [reflexivity|]. done.
Qed.

(** ** A banned record carries its ban time *)

Lemma apply_status_keeps_ban_time clk ip st rl ips k d :
  (∀ k d, ips !! k = Some d → status d = Some "banned" →
          is_Some (banned_time d)) →
  apply_status _get_ip_location clk ip st rl ips !! k = Some d →
  status d = Some "banned" → is_Some (banned_time d).
Proof.
  intros Hinv. unfold apply_status.
  destruct (decide (k = ip)) as [->|Hne].
  - rewrite lookup_insert_eq. intros [= <-].
    destruct (bool_decide (st = "banned")) eqn:Hst.
    + intros _. destruct rl as [secs|]; [destruct (_ && _)|]; by eexists.
    + apply bool_decide_eq_false in Hst.
      destruct rl as [secs|]; [destruct (_ && _)|];
        cbn [status set_status set_rate_limit_seconds]; congruence.
  - rewrite lookup_insert_ne by done. apply Hinv.
Qed.

(** X12 (invariant of [set_ip_status], [record_request],
    [check_ip_allowed], [_auto_unban_expired_ips], [_cleanup_old_ips]). If
    every banned record of the table carries a ban time, then so does
    every banned record of the table after any one of these methods. *)
Theorem banned_time_invariant clk ip m :
  (∀ k d, default ∅ (ip_cache m) !! k = Some d →
          status d = Some "banned" → is_Some (banned_time d)) →
  ∀ m',
    (∃ st rl op, m' = (set_ip_status _get_ip_location clk ip st rl op m).2)
    ∨ (∃ ep ua mo, m' = (record_request _get_ip_location clk ip ep ua mo m).2)
    ∨ m' = (check_ip_allowed clk ip m).2
    ∨ m' = _auto_unban_expired_ips clk m
    ∨ m' = _cleanup_old_ips clk m →
    ∀ k d, default ∅ (ip_cache m') !! k = Some d →
           status d = Some "banned" → is_Some (banned_time d).
Proof.
  intros Hinv m' [(st & rl & op & ->)|[(ep & ua & mo & ->)|[-> | [-> | ->]]]] k d.
  - unfold set_ip_status.
    destruct (negb (valid_status st)); [apply Hinv|].
    destruct (if bool_decide (st = "banned") then _ else _);
      [apply Hinv|].
    destruct (match op with Some _ => _ | None => _ end)
      as [[allowed msg] file1].
    destruct allowed; cbn [negb snd]; [|apply Hinv].
    assert (∀ m2 : manager,
              default ∅ (ip_cache
                (match op with
                 | Some o =>
                     if bool_decide (st = "banned") && truthy_str op
                     then with_ban_file (_record_ban_operation clk o file1) m2
                     else m2
                 | None => m2
                 end)) = default ∅ (ip_cache m2)) as ->.
    { intros m2. destruct op; [destruct (_ && _)|]; done. }
    apply apply_status_keeps_ban_time, Hinv.
  - rewrite record_request_unfold. cbv zeta.
    destruct (default ∅ (ip_cache m) !! ip) as [d0|] eqn:Hd0;
      [destruct (record_refused clk d0)|]; cbn [snd]; [apply Hinv| |];
      rewrite table_with_dirty_with_ips;
      (destruct (decide (k = ip)) as [->|Hne];
       [rewrite lookup_insert_eq; intros [= <-]
       |rewrite lookup_insert_ne by done; apply Hinv]).
    + destruct (recorded_counters clk ep ua mo d0)
        as (_ & _ & _ & _ & _ & _ & -> & -> & _). by apply (Hinv ip d0).
    + destruct (recorded_counters clk ep ua mo
                  (new_ip_data clk (_get_ip_location ip)))
        as (_ & _ & _ & _ & _ & _ & -> & _). done.
  - rewrite check_ip_allowed_lookup. case_decide; [subst k|apply Hinv].
    destruct (default ∅ (ip_cache m) !! ip) as [d0|] eqn:Hd0; [|done].
    intros [= <-]. unfold auto_unban_one.
    destruct (unban_due clk d0); [done|by apply (Hinv ip d0)].
  - rewrite auto_unban_sweep_lookup.
    destruct (default ∅ (ip_cache m) !! k) as [d0|] eqn:Hd0; [|done].
    intros [= <-]. unfold auto_unban_one.
    destruct (unban_due clk d0); [done|by apply (Hinv k d0)].
  - rewrite cleanup_lookup.
    destruct (default ∅ (ip_cache m) !! k) as [d0|] eqn:Hd0; [|done].
    destruct (should_remove _ d0); [done|]. intros [= <-]. by apply (Hinv k d0).
Qed.

(** ** One turn of the periodic task *)

(** X13 ([_periodic_unban_check]). One turn of the periodic task gives
    each record first the unban sweep and then the cleanup: a record is
    dropped when, after the sweep, it qualifies for removal, and is kept in
    its swept form otherwise. A record that is still banned after the
    sweep survives the turn unchanged; a record whose ban has run out and
    whose last request is at least seven days old is unbanned and removed
    in the same turn. *)
Theorem periodic_turn clk_unban clk_cleanup m ip :
  let before := default ∅ (ip_cache m) in
  let after :=
    default ∅ (ip_cache (_periodic_unban_check clk_unban clk_cleanup m)) in
  after !! ip
  = match before !! ip with
    | Some d =>
        if should_remove (time_time clk_cleanup) (auto_unban_one clk_unban d)
        then None else Some (auto_unban_one clk_unban d)
    | None => None
    end
  ∧ (∀ d, before !! ip = Some d → status d = Some "banned" →
       unban_due clk_unban d = false → after !! ip = Some d)
  ∧ (∀ d, before !! ip = Some d → unban_due clk_unban d = true →
       default 0 (last_request_time d) ≠ 0 →
       7 * 86400 ≤ time_time clk_cleanup - default 0 (last_request_time d) →
       after !! ip = None).
Proof.
  intros before after. subst before after. unfold _periodic_unban_check.
  rewrite cleanup_lookup, auto_unban_sweep_lookup.
  split; [by destruct (_ !! ip)|]. split.
  - intros d -> Hs Hdue. cbn [fmap option_fmap option_map].
    unfold auto_unban_one. rewrite Hdue.
    destruct (should_remove _ d) eqn:Hrm; [|done].
    apply should_remove_spec in Hrm as (Hnb & _). by rewrite Hs in Hnb.
  - intros d -> Hdue Hlast Hold. cbn [fmap option_fmap option_map].
    unfold auto_unban_one. rewrite Hdue.
    assert (should_remove (time_time clk_cleanup)
              (set_auto_unbanned_time (stamp_str clk_unban)
                 (set_status "active" d)) = true) as ->; [|done].
    apply should_remove_spec.
    cbn [status last_request_time total_requests set_auto_unbanned_time
           set_status from_option id].
    split; [done|]. split; [done|]. cbv zeta.
    destruct (Z.le_gt_cases 300 (default 0 (total_requests d)));
      [left; lia|].
    destruct (Z.le_gt_cases 50 (default 0 (total_requests d)));
      [right; left; lia | right; right; lia].
Qed.

(** ** The throttle below its limit *)

Lemma check_limit_allowed_iff clk op file :
  (_check_ban_operation_limit clk op file).1 = (true, "")
  ↔ (length (default []
       (default ∅ (operators (_load_ban_operations clk file).1) !! op))
     < 3)%nat.
Proof.
  rewrite check_limit_unfold. cbv zeta. cbn [fst]. unfold max_bans.
  destruct (3 <=? _)%nat eqn:Hlen.
  - apply Nat.leb_le in Hlen. split; [done|lia].
  - apply Nat.leb_gt in Hlen. done.
Qed.

Lemma valid_timestamps_none now ts :
  Forall (λ t, time_window ≤ now - t) ts → valid_timestamps now ts = [].
Proof.
  unfold valid_timestamps. induction 1 as [|t ts Ht _ IH]; [done|].
  by rewrite filter_cons_False by lia.
Qed.

(** X14 ([_check_ban_operation_limit]). The throttle lets an operator
    through with an empty message when the file has no entry for the
    operator, when the entry holds fewer than three time stamps, and when
    all its time stamps are at least an hour old; in the last case the
    file is rewritten without the operator. *)
Theorem check_limit_allows clk op file :
  let stored := default ∅ (operators (default empty_ban_data file)) in
  (stored !! op = None →
   (_check_ban_operation_limit clk op file).1 = (true, ""))
  ∧ (∀ ts, stored !! op = Some ts → (length ts < 3)%nat →
       (_check_ban_operation_limit clk op file).1 = (true, ""))
  ∧ (∀ ts, stored !! op = Some ts →
       Forall (λ t, time_window ≤ time_time clk - t) ts →
       (_check_ban_operation_limit clk op file).1 = (true, "")
       ∧ ∃ cleaned,
           (_check_ban_operation_limit clk op file).2
           = Some {| operators := Some cleaned |}
           ∧ cleaned !! op = None).
Proof.
  intros stored. subst stored. split; [|split].
  - intros Hnone. apply check_limit_allowed_iff. rewrite load_unfold.
    cbv zeta. destruct (0 <? _)%nat; cbn [fst operators from_option id].
    + rewrite compact_lookup, Hnone. simpl. lia.
    + rewrite Hnone. simpl. lia.
  - intros ts Hop Hlen. apply check_limit_allowed_iff. rewrite load_unfold.
    cbv zeta. destruct (0 <? _)%nat; cbn [fst operators from_option id].
    + rewrite compact_lookup, Hop.
      pose proof (length_filter (λ t, time_time clk - t < time_window) ts)
        as Hf. fold (valid_timestamps (time_time clk) ts) in Hf.
      destruct (valid_timestamps (time_time clk) ts); cbn [from_option id] in *;
        [simpl; lia | lia].
    + by rewrite Hop.
  - intros ts Hop Hexp.
    pose proof (valid_timestamps_none _ _ Hexp) as Hnil.
    assert ((0 <? (compact (time_time clk)
                     (default ∅ (operators (default empty_ban_data file)))).2)%nat
            = true) as Hcount.
    { apply Nat.ltb_lt.
      destruct ((compact _ _).2) eqn:Hz; [|lia].
      by destruct (proj1 (compact_count_zero _ _) Hz op ts Hop). }
    split.
    + apply check_limit_allowed_iff. rewrite load_unfold. cbv zeta.
      rewrite Hcount. cbn [fst operators from_option id].
      rewrite compact_lookup, Hop, Hnil. simpl. lia.
    + rewrite check_limit_unfold. cbv zeta. cbn [snd]. rewrite load_unfold.
      cbv zeta. rewrite Hcount. cbn [snd]. eexists. split; [reflexivity|].
      by rewrite compact_lookup, Hop, Hnil.
Qed.

(** X15 ([_load_ban_operations]). When every time stamp of some operator
    is at least an hour old, loading rewrites the file, and what is
    written is what is returned: that operator is gone, and an operator is
    in the result exactly with the time stamps of it that are less than an
    hour old, provided there is one. *)
Theorem load_compacts_when_an_operator_expires clk file expired ts0 :
  let stored := default ∅ (operators (default empty_ban_data file)) in
  stored !! expired = Some ts0 →
  valid_timestamps (time_time clk) ts0 = [] →
  ∃ cleaned,
    _load_ban_operations clk file
    = ({| operators := Some cleaned |}, Some {| operators := Some cleaned |})
    ∧ cleaned !! expired = None
    ∧ ∀ k ts,
        cleaned !! k = Some ts
        ↔ ts ≠ []
          ∧ ∃ old, stored !! k = Some old
                   ∧ ts = valid_timestamps (time_time clk) old.
Proof.
  intros stored Hop Hnil. subst stored. rewrite load_unfold. cbv zeta.
  assert ((0 <? (compact (time_time clk)
                   (default ∅ (operators (default empty_ban_data file)))).2)%nat
          = true) as ->.
  { apply Nat.ltb_lt.
    destruct ((compact _ _).2) eqn:Hz; [|lia].
    by destruct (proj1 (compact_count_zero _ _) Hz expired ts0 Hop). }
  eexists. split; [reflexivity|]. split.
  - by rewrite compact_lookup, Hop, Hnil.
  - intros k ts. rewrite compact_lookup.
    destruct (_ !! k) as [old|]; [|by split; [|intros (_ & ? & ? & _)]].
    destruct (valid_timestamps (time_time clk) old) as [|t vs] eqn:Hv.
    + split; [done|]. intros (Hne & old' & [= <-] & ->). by rewrite Hv in Hne.
    + split.
      * intros [= <-]. split; [done|]. exists old. by rewrite Hv.
      * intros (_ & old' & [= <-] & ->). by rewrite Hv.
Qed.

(** The entries of the loaded throttle data: none is empty, and each is
    the stored list of its operator or that list without the time stamps
    of an hour ago or older. *)
Lemma load_entries clk file k ts :
  default ∅ (operators (_load_ban_operations clk file).1) !! k = Some ts →
  ts ≠ []
  ∧ ∃ old, default ∅ (operators (default empty_ban_data file)) !! k = Some old
           ∧ (ts = old ∨ ts = valid_timestamps (time_time clk) old)
           ∧ valid_timestamps (time_time clk) ts
             = valid_timestamps (time_time clk) old.
Proof.
  intros Hk.
  split; [intros ->; by apply (load_no_empty_list clk file k)|].
  revert Hk. rewrite load_unfold. cbv zeta.
  destruct (0 <? _)%nat; cbn [fst operators from_option id].
  - rewrite compact_lookup. destruct (_ !! k) as [old|]; [|done].
    destruct (valid_timestamps (time_time clk) old) as [|t vs] eqn:Hv; [done|].
    intros [= <-]. exists old. split; [done|]. split; [by right|].
    by rewrite <- Hv, valid_timestamps_idemp.
  - intros Hk. exists ts. auto.
Qed.

(** X16 ([_load_ban_operations]). Loading what a load has left in the
    file gives the same data and the same file again, under the same
    clock. No operator of the loaded data has an empty list; each list is
    the stored one or the stored one without its time stamps of an hour
    ago or older, and has the same recent time stamps as the stored
    one. *)
Theorem load_is_stable clk file :
  let loaded := default ∅ (operators (_load_ban_operations clk file).1) in
  let stored := default ∅ (operators (default empty_ban_data file)) in
  _load_ban_operations clk (_load_ban_operations clk file).2
  = _load_ban_operations clk file
  ∧ ∀ k ts,
      loaded !! k = Some ts →
      ts ≠ []
      ∧ ∃ old, stored !! k = Some old
               ∧ (ts = old ∨ ts = valid_timestamps (time_time clk) old)
               ∧ valid_timestamps (time_time clk) ts
                 = valid_timestamps (time_time clk) old.
Proof.
  cbv zeta. split; [apply load_idempotent|]. intros k ts.
  apply load_entries.
Qed.

(** X17 ([_record_ban_operation], [_check_ban_operation_limit]).
    Recording a ban of an operator writes the loaded data with the time of
    the call appended to the list of that operator, the lists of the other
    operators as loaded. The throttle, asked right after under the same
    clock, lets the operator through exactly when the loaded list had
    fewer than two time stamps. *)
Theorem record_ban_operation_appends clk op file :
  let loaded := default ∅ (operators (_load_ban_operations clk file).1) in
  ∃ written,
    _record_ban_operation clk op file = Some {| operators := Some written |}
    ∧ written !! op = Some (default [] (loaded !! op) ++ [time_time clk])
    ∧ (∀ other, other ≠ op → written !! other = loaded !! other)
    ∧ (_check_ban_operation_limit clk op
         (_record_ban_operation clk op file)).1.1
      = (length (default [] (loaded !! op)) + 1 <? 3)%nat.
Proof.
  cbv zeta. rewrite record_ban_operation_unfold. cbv zeta.
  eexists. split; [reflexivity|]. split; [apply lookup_insert_eq|]. split.
  { intros other Hne. by apply lookup_insert_ne. }
  rewrite check_limit_unfold. cbv zeta. cbn [fst].
  rewrite load_without_drop.
  - cbn [fst operators from_option id]. rewrite lookup_insert_eq.
    cbn [from_option id]. rewrite length_app. cbn [length]. unfold max_bans.
    destruct (Nat.leb_spec 3 (length (default [] (default ∅
                (operators (_load_ban_operations clk file).1) !! op)) + 1));
      destruct (Nat.ltb_spec (length (default [] (default ∅
                (operators (_load_ban_operations clk file).1) !! op)) + 1) 3);
      try done; lia.
  - cbn [operators from_option id]. intros k ts.
    destruct (decide (k = op)) as [->|Hne].
    + rewrite lookup_insert_eq. intros [= <-]. unfold valid_timestamps.
      rewrite filter_app, filter_cons_True by (unfold time_window; lia).
      by destruct (filter _ _).
    + rewrite lookup_insert_ne by done. intros Hk Hnil.
      destruct (load_entries clk file k ts Hk)
        as (Hne' & old & Hold & Hcase & Hv).
      rewrite Hnil in Hv.
      revert Hk. rewrite load_unfold. cbv zeta.
      destruct (0 <? _)%nat eqn:Hcount; cbn [fst operators from_option id].
      * rewrite compact_lookup, Hold, <- Hv. done.
      * intros _. apply Nat.ltb_ge in Hcount.
        assert ((compact (time_time clk)
                   (default ∅ (operators (default empty_ban_data file)))).2
                = 0%nat) as Hz by lia.
        by destruct (proj1 (compact_count_zero _ _) Hz k old Hold).
Qed.
End StatusProperties.

Section StatusExamples.
Import IPManager IPManagerViews Samples Scenarios.

Lemma set_ip_status_unguarded_witness :
  ("rate_limited" = "active" ∨ "rate_limited" = "rate_limited")
  ∧ ∃ d',
      set_ip_status resolver noon "203.0.113.9" "rate_limited" (Some 30)
        (Some "admin") empty_store
      = ((true, ""),
         with_dirty
           (with_ips
              (<["203.0.113.9" := d']> (default ∅ (ip_cache empty_store)))
              empty_store))
      ∧ status d' = Some "rate_limited"
      ∧ rate_limit_seconds d' = Some 30.
Proof.
  assert ("rate_limited" = "active" ∨ "rate_limited" = "rate_limited") as Hst
    by (by right).
  split; [exact Hst|].
  destruct (set_ip_status_unguarded resolver noon "203.0.113.9"
              "rate_limited" (Some 30) (Some "admin") empty_store Hst)
    as (d' & Hrun & Hstatus & Hrl & _).
  exists d'. split; [exact Hrun|]. split; [exact Hstatus|]. exact Hrl.
Defined.

Lemma ban_then_admission_witness :
  let m := store "198.51.100.7" (visitor 80 "2023-11-15" "active" None) in
  let banned :=
    (set_ip_status resolver noon "198.51.100.7" "banned" None None m).2 in
  (user_protection (default ∅ (ip_cache m)) "198.51.100.7" = None
   ∧ 0 < time_time noon
   ∧ time_time hour_later - time_time noon < 86400)
  ∧ (set_ip_status resolver noon "198.51.100.7" "banned" None None m).1
    = (true, "")
  ∧ check_ip_allowed hour_later "198.51.100.7" banned = (false, banned).
Proof.
  intros m banned.
  assert (user_protection (default ∅ (ip_cache m)) "198.51.100.7" = None)
    as Hup.
  { unfold user_protection, m, store. cbn [ip_cache from_option id].
    by rewrite lookup_singleton_eq. }
  assert (0 < time_time noon) as Hpos by (simpl; lia).
  assert (time_time hour_later - time_time noon < 86400) as Hrecent
    by (simpl; lia).
  split; [done|].
  destruct (ban_then_admission resolver noon hour_later "198.51.100.7" None m
              Hup Hpos) as (Hok & Hholds & _).
  split; [exact Hok|]. exact (proj1 (Hholds Hrecent)).
Defined.

Lemma banned_time_invariant_witness :
  let m := store "198.51.100.7" (visitor 80 "2023-11-15" "active" None) in
  let m' := (set_ip_status resolver noon "198.51.100.7" "banned" None None m).2
  in
  (∀ k d, default ∅ (ip_cache m) !! k = Some d →
          status d = Some "banned" → is_Some (banned_time d))
  ∧ ∀ k d, default ∅ (ip_cache m') !! k = Some d →
           status d = Some "banned" → is_Some (banned_time d).
Proof.
  intros m m'.
  assert (∀ k d, default ∅ (ip_cache m) !! k = Some d →
                 status d = Some "banned" → is_Some (banned_time d)) as Hinv.
  { intros k d Hk. unfold m, store in Hk.
    cbn [ip_cache from_option id] in Hk.
    apply lookup_singleton_Some in Hk as [_ <-]. done. }
  split; [exact Hinv|].
  apply (banned_time_invariant resolver noon "198.51.100.7" m Hinv m').
  left. by exists "banned", None, None.
Defined.

Lemma periodic_turn_witness :
  let d := visitor 120 "2023-11-13" "banned" (Some 1699900000) in
  let m := store "198.51.100.7" d in
  (default ∅ (ip_cache m) !! "198.51.100.7" = Some d
   ∧ unban_due noon d = true
   ∧ default 0 (last_request_time d) ≠ 0
   ∧ 7 * 86400 ≤ time_time week_later - default 0 (last_request_time d))
  ∧ default ∅ (ip_cache (_periodic_unban_check noon week_later m))
      !! "198.51.100.7" = None.
Proof.
  intros d m.
  assert (default ∅ (ip_cache m) !! "198.51.100.7" = Some d) as Hd
    by apply lookup_singleton_eq.
  assert (default 0 (last_request_time d) ≠ 0) as Hlast by (simpl; lia).
  assert (7 * 86400 ≤ time_time week_later - default 0 (last_request_time d))
    as Hold by (simpl; lia).
  split; [done|].
  destruct (periodic_turn noon week_later m "198.51.100.7")
    as (_ & _ & Hgone).
  exact (Hgone d Hd eq_refl Hlast Hold).
Defined.

Lemma check_limit_allows_witness :
  let file := throttle_file "admin" [1699990000; 1699991000; 1699992000] in
  (default ∅ (operators (default empty_ban_data file)) !! "admin"
   = Some [1699990000; 1699991000; 1699992000]
   ∧ Forall (λ t, time_window ≤ time_time noon - t)
       [1699990000; 1699991000; 1699992000])
  ∧ (_check_ban_operation_limit noon "admin" file).1 = (true, "").
Proof.
  intros file.
  assert (default ∅ (operators (default empty_ban_data file)) !! "admin"
          = Some [1699990000; 1699991000; 1699992000]) as Hop
    by apply lookup_singleton_eq.
  assert (Forall (λ t, time_window ≤ time_time noon - t)
            [1699990000; 1699991000; 1699992000]) as Hexp.
  { repeat constructor; unfold time_window; simpl; lia. }
  split; [done|].
  destruct (check_limit_allows noon "admin" file) as (_ & _ & Hold).
  exact (proj1 (Hold _ Hop Hexp)).
Defined.

Lemma load_compacts_when_an_operator_expires_witness :
  let file := throttle_file "admin" [1699990000] in
  (default ∅ (operators (default empty_ban_data file)) !! "admin"
   = Some [1699990000]
   ∧ valid_timestamps (time_time noon) [1699990000] = [])
  ∧ ∃ cleaned,
      _load_ban_operations noon file
      = ({| operators := Some cleaned |}, Some {| operators := Some cleaned |})
      ∧ cleaned !! "admin" = None.
Proof.
  intros file.
  assert (default ∅ (operators (default empty_ban_data file)) !! "admin"
          = Some [1699990000]) as Hop by apply lookup_singleton_eq.
  assert (valid_timestamps (time_time noon) [1699990000] = []) as Hnil
    by reflexivity.
  split; [done|].
  destruct (load_compacts_when_an_operator_expires noon file "admin"
              [1699990000] Hop Hnil) as (cleaned & Hload & Hgone & _).
  exists cleaned. by split.
Defined.
End StatusExamples.

(** * Properties of the summary, the ranking and the location resolver *)

Section SummaryProperties.
Import IPManager IPManagerViews.

Variable _get_ip_location : string → string.

Lemma count_status_insert st k d (ips : gmap string ip_data) :
  ips !! k = None →
  count_status st (<[k := d]> ips)
  = ((if bool_decide (status d = Some st) then 1 else 0)
     + count_status st ips)%nat.
Proof.
  intros Hk. unfold count_status. rewrite map_fold_insert_L; [|..|done].
  - by destruct (bool_decide _).
  - intros. by repeat destruct (bool_decide _).
Qed.

Lemma sum_field_insert f k d (ips : gmap string ip_data) :
  ips !! k = None →
  sum_field f (<[k := d]> ips) = sum_field f ips + default 0 (f d).
Proof.
  intros Hk. unfold sum_field. rewrite map_fold_insert_L; [done| |done].
  intros. lia.
Qed.

Lemma sum_field_update f k d d' (ips : gmap string ip_data) :
  ips !! k = Some d →
  sum_field f (<[k := d']> ips)
  = sum_field f ips - default 0 (f d) + default 0 (f d').
Proof.
  intros Hk. rewrite <- (insert_delete_eq ips).
  rewrite <- (insert_id ips k d) at 2 by done.
  rewrite <- (insert_delete_eq ips k d).
  rewrite !sum_field_insert by apply lookup_delete_eq. lia.
Qed.

(** X18 ([get_all_ips_summary]). The numbers of active, banned and rate
    limited IPs of the summary add up to no more than the number of IPs,
    and to exactly that number when every record has one of the three
    statuses. *)
Theorem summary_counts m :
  let s := get_all_ips_summary m in
  (active_ips s + banned_ips s + rate_limited_ips s ≤ total_ips s)%nat
  ∧ ((∀ k d, default ∅ (ip_cache m) !! k = Some d →
             status d ∈ [Some "active"; Some "banned"; Some "rate_limited"]) →
     (active_ips s + banned_ips s + rate_limited_ips s = total_ips s)%nat).
Proof.
  cbv zeta. unfold get_all_ips_summary.
  cbn [total_ips active_ips banned_ips rate_limited_ips].
  induction (default ∅ (ip_cache m)) as [|k d ips Hk IH] using map_ind.
  - unfold count_status. rewrite !map_fold_empty, map_size_empty. split; lia.
  - rewrite !count_status_insert, map_size_insert_None by done.
    destruct IH as [IHle IHeq]. split.
    + repeat case_bool_decide; simplify_eq; lia.
    + intros Hall.
      assert (active_ips_eq :
                (count_status "active" ips + count_status "banned" ips
                 + count_status "rate_limited" ips = size ips)%nat).
      { apply IHeq. intros k' d' Hk'. apply (Hall k' d').
        rewrite lookup_insert_ne; [done|]. intros <-. congruence. }
      specialize (Hall k d (lookup_insert_eq _ _ _)).
      repeat (apply elem_of_cons in Hall as [Hall|Hall];
              [rewrite Hall; repeat case_bool_decide; simplify_eq; lia|]).
      by apply elem_of_nil in Hall.
Qed.

(** X19 ([get_all_ips_summary] after [record_request]). An admitted
    request raises the total of requests of the summary by exactly one,
    raises the number of IPs by one when the IP was unknown and leaves it
    otherwise, and leaves the number of banned IPs as it was. *)
Theorem summary_after_record clk ip ep ua mo m :
  (record_request _get_ip_location clk ip ep ua mo m).1 = true →
  let before := get_all_ips_summary m in
  let after :=
    get_all_ips_summary
      (record_request _get_ip_location clk ip ep ua mo m).2 in
  summary_total_requests after = summary_total_requests before + 1
  ∧ total_ips after
    = (match default ∅ (ip_cache m) !! ip with
       | Some _ => total_ips before
       | None => S (total_ips before)
       end)
  ∧ banned_ips after = banned_ips before.
Proof.
  rewrite record_request_unfold. cbv zeta. unfold get_all_ips_summary.
  cbn [total_ips banned_ips summary_total_requests].
  destruct (default ∅ (ip_cache m) !! ip) as [d|] eqn:Hd.
  - destruct (record_refused clk d) eqn:Hadm; [done|]. intros _. cbn [snd].
    rewrite table_with_dirty_with_ips.
    destruct (recorded_counters clk ep ua mo d)
      as (Htot & _ & _ & _ & _ & _ & Hst & _).
    rewrite (sum_field_update _ _ d) by done. rewrite Htot.
    cbn [from_option id]. split; [lia|]. split.
    + apply map_size_insert_Some. by eexists.
    + rewrite <- (insert_delete_eq (default ∅ (ip_cache m))).
      rewrite <- (insert_id (default ∅ (ip_cache m)) ip d) at 2 by done.
      rewrite <- (insert_delete_eq (default ∅ (ip_cache m)) ip d).
      rewrite !count_status_insert by apply lookup_delete_eq.
      by rewrite Hst.
  - intros _. cbn [snd]. rewrite table_with_dirty_with_ips.
    destruct (recorded_counters clk ep ua mo
                (new_ip_data clk (_get_ip_location ip)))
      as (Htot & _ & _ & _ & _ & _ & Hst & _).
    rewrite sum_field_insert, Htot by done. split; [done|]. split.
    + by apply map_size_insert_None.
    + rewrite count_status_insert, Hst by done.
      cbn [new_ip_data status]. by rewrite bool_decide_eq_false_2.
Qed.
End SummaryProperties.


(** * Properties of the ranking *)

Section RankingProperties.
Import Ranking.

(** ** The sort *)

Lemma insert_desc_perm key x l : insert_desc key x l ≡ₚ x :: l.
Proof.
  induction l as [|y l IH]; [done|]. cbn [insert_desc].
  destruct (key x <? key y); [|done]. rewrite IH. apply Permutation_swap.
Qed.

Lemma sorted_desc_perm key l : sorted_desc key l ≡ₚ l.
Proof.
  induction l as [|x l IH]; [done|]. cbn [sorted_desc foldr].
  fold (sorted_desc key l). by rewrite insert_desc_perm, IH.
Qed.

Lemma insert_desc_sorted key x l :
  StronglySorted (λ a b, key b ≤ key a) l →
  StronglySorted (λ a b, key b ≤ key a) (insert_desc key x l).
Proof.
  induction 1 as [|y l Hl IH Hy]; cbn [insert_desc].
  - repeat constructor.
  - destruct (Z.ltb_spec (key x) (key y)) as [Hlt|Hge].
    + constructor; [done|]. rewrite insert_desc_perm.
      constructor; [lia|done].
    + constructor; [by constructor|].
      constructor; [done|]. eapply Forall_impl; [exact Hy|].
      intros z Hz. simpl in Hz. lia.
Qed.

Lemma sorted_desc_sorted key l :
  StronglySorted (λ a b, key b ≤ key a) (sorted_desc key l).
Proof.
  induction l as [|x l IH]; [constructor|]. cbn [sorted_desc foldr].
  by apply insert_desc_sorted.
Qed.

(** Stability: among the entries of one key the order of the input is
    kept. *)
Lemma insert_desc_stable key v x l :
  StronglySorted (λ a b, key b ≤ key a) l →
  filter (λ e, key e = v) (insert_desc key x l)
  = filter (λ e, key e = v) (x :: l).
Proof.
  induction 1 as [|y l Hl IH Hy]; [done|]. cbn [insert_desc].
  destruct (Z.ltb_spec (key x) (key y)) as [Hlt|Hge]; [|done].
  rewrite filter_cons, IH, !filter_cons.
  repeat case_decide; try done; lia.
Qed.

Lemma sorted_desc_stable key v l :
  filter (λ e, key e = v) (sorted_desc key l) = filter (λ e, key e = v) l.
Proof.
  induction l as [|x l IH]; [done|]. cbn [sorted_desc foldr].
  fold (sorted_desc key l).
  rewrite insert_desc_stable by apply sorted_desc_sorted.
  by rewrite !filter_cons, IH.
Qed.

Lemma filtered_ips_elem include_banned all_ips e :
  e ∈ filtered_ips include_banned all_ips
  ↔ ∃ kv, kv ∈ all_ips ∧ e = make_entry kv
          ∧ ¬ (include_banned = false
               ∧ IPManager.status kv.2 = Some "banned").
Proof.
  unfold filtered_ips. rewrite list_elem_of_fmap. split.
  - intros (kv & -> & [Hok Hin]%list_elem_of_filter). by exists kv.
  - intros (kv & Hin & -> & Hok). exists kv. split; [done|].
    by apply list_elem_of_filter.
Qed.

(** X20 ([get_ip_ranking]). The ranked list is a rearrangement of the
    filtered entries, in decreasing order of the key of the ranking, with
    entries of equal key in the order of the table. Its entries are those
    of the table, none of them banned unless banned IPs were asked for,
    and every record of the table that is not banned, or any record when
    banned IPs were asked for, has its entry in it. *)
Theorem ranking_order rank_by include_banned all_ips :
  let key := sort_key rank_by in
  let sorted := sorted_desc key (filtered_ips include_banned all_ips) in
  sorted ≡ₚ filtered_ips include_banned all_ips
  ∧ StronglySorted (λ a b, key b ≤ key a) sorted
  ∧ (∀ v, filter (λ e, key e = v) sorted
          = filter (λ e, key e = v) (filtered_ips include_banned all_ips))
  ∧ (∀ e, e ∈ sorted →
       ∃ kv, kv ∈ all_ips ∧ e = make_entry kv
             ∧ (include_banned = false →
                IPManager.status kv.2 ≠ Some "banned"
                ∧ status e ≠ "banned"))
  ∧ (∀ kv, kv ∈ all_ips →
       include_banned = true ∨ IPManager.status kv.2 ≠ Some "banned" →
       make_entry kv ∈ sorted).
Proof.
  cbv zeta. split; [apply sorted_desc_perm|].
  split; [apply sorted_desc_sorted|]. split; [intros v; apply sorted_desc_stable|].
  split.
  - intros e. rewrite sorted_desc_perm, filtered_ips_elem.
    intros (kv & Hin & -> & Hok). exists kv. split; [done|]. split; [done|].
    intros ->. assert (IPManager.status kv.2 ≠ Some "banned") as Hnb by tauto.
    split; [done|]. cbn [make_entry status].
    destruct (IPManager.status kv.2) as [st|]; cbn [from_option id];
      [congruence|done].
  - intros kv Hin Hok. rewrite sorted_desc_perm, filtered_ips_elem.
    exists kv. split; [done|]. split; [done|]. intros [-> Hb].
    by destruct Hok.
Qed.

(** ** Pages *)

Lemma slice_forward {A} (l : list A) (a n : Z) :
  0 ≤ a → 0 ≤ n →
  slice l a (a + n) = take (Z.to_nat n) (drop (Z.to_nat a) l).
Proof.
  intros Ha Hn. unfold slice, clamp_index. cbv zeta.
  rewrite (proj2 (Z.ltb_ge a 0)) by done.
  rewrite (proj2 (Z.ltb_ge (a + n) 0)) by lia.
  destruct (Z.le_gt_cases (Z.of_nat (length l)) a) as [Hout|Hin].
  - rewrite !Z.min_r by lia. rewrite !drop_ge by lia. by rewrite !take_nil.
  - rewrite (Z.min_l a) by lia.
    destruct (Z.le_gt_cases (a + n) (Z.of_nat (length l))) as [Hfit|Hcut].
    + rewrite Z.min_l by lia. f_equal. lia.
    + rewrite Z.min_r by lia.
      rewrite !take_ge; [done| |]; rewrite length_drop; lia.
Qed.

(** Cutting a list into [n] pieces of [size] elements loses nothing when
    [n * size] reaches its length. *)
Lemma pages_cover {A} (size n : nat) (l : list A) :
  (length l ≤ n * size)%nat →
  concat ((λ i, take size (drop (i * size) l)) <$> seq 0 n) = l.
Proof.
  revert l. induction n as [|n IH]; intros l Hlen.
  - destruct l; [done|]. simpl in Hlen. lia.
  - change (seq 0 (S n)) with (0%nat :: seq 1 n). rewrite <- fmap_S_seq.
    rewrite fmap_cons, <- list_fmap_compose. cbn [concat].
    rewrite (list_fmap_ext _ (λ i, take size (drop (i * size) (drop size l)))).
    2:{ intros _ i _. cbn [compose]. by rewrite drop_drop. }
    rewrite IH by (rewrite length_drop; lia).
    cbn [Nat.mul]. rewrite drop_0. apply take_drop.
Qed.

Lemma total_pages_bounds (total page_size : Z) :
  0 < page_size → 0 ≤ total →
  let total_pages := (total + page_size - 1) `div` page_size in
  0 ≤ total_pages
  ∧ (total_pages - 1) * page_size < total ≤ total_pages * page_size.
Proof.
  intros Hps Htot. cbv zeta.
  pose proof (Z.div_mod (total + page_size - 1) page_size) as Hdm.
  pose proof (Z.mod_pos_bound (total + page_size - 1) page_size Hps) as Hmod.
  specialize (Hdm ltac:(lia)).
  split; [apply Z.div_pos; lia|]. nia.
Qed.

(** The items of a page within range: [page_size] entries of the ranked
    list from index [(page - 1) * page_size] on. *)
Lemma get_ip_ranking_items rank_by page page_size include_banned all_ips :
  let sorted :=
    sorted_desc (sort_key rank_by) (filtered_ips include_banned all_ips) in
  0 < page_size →
  1 ≤ page ≤ (Z.of_nat (length sorted) + page_size - 1) `div` page_size →
  ∃ r,
    get_ip_ranking rank_by page page_size include_banned all_ips = Some r
    ∧ items r
      = take (Z.to_nat page_size)
          (drop (Z.to_nat ((page - 1) * page_size)) sorted).
Proof.
  cbv zeta. unfold get_ip_ranking. cbv zeta. set (sorted := sorted_desc _ _).
  intros Hps Hpage.
  rewrite (proj2 (Z.eqb_neq page_size 0)) by lia.
  eexists. split; [reflexivity|]. cbn [items].
  set (tp := (Z.of_nat (length sorted) + page_size - 1) `div` page_size) in *.
  rewrite (proj2 (Z.ltb_lt 0 tp)) by lia.
  rewrite Z.min_l, Z.max_r by lia.
  by rewrite slice_forward by nia.
Qed.

(** X21 ([get_ip_ranking]). The call fails exactly for a page size of
    zero. For a positive page size: [total] is the number of ranked
    entries and [total_pages] the least number of pages that hold them;
    the page returned is the one asked for when that is in range, the
    first when it is below one and the last, or the first when there is no
    page, when it is beyond the last; the items are the [page_size]
    entries of the ranked list from index [(page - 1) * page_size] on,
    fewer on the last page; [has_next] and [has_prev] say whether the page
    returned is before the last and after the first. *)
Theorem ranking_page rank_by page page_size include_banned all_ips :
  let sorted :=
    sorted_desc (sort_key rank_by) (filtered_ips include_banned all_ips) in
  (get_ip_ranking rank_by page page_size include_banned all_ips = None
   ↔ page_size = 0)
  ∧ (0 < page_size →
     ∃ r,
       get_ip_ranking rank_by page page_size include_banned all_ips = Some r
       ∧ total r = Z.of_nat (length sorted)
       ∧ total_pages r = (total r + page_size - 1) `div` page_size
       ∧ 0 ≤ total_pages r
       ∧ (total_pages r - 1) * page_size < total r ≤ total_pages r * page_size
       ∧ 1 ≤ Ranking.page r ≤ Z.max 1 (total_pages r)
       ∧ (1 ≤ page ≤ total_pages r → Ranking.page r = page)
       ∧ (page < 1 → Ranking.page r = 1)
       ∧ (total_pages r < page → Ranking.page r = Z.max 1 (total_pages r))
       ∧ items r
         = take (Z.to_nat page_size)
             (drop (Z.to_nat ((Ranking.page r - 1) * page_size)) sorted)
       ∧ Z.of_nat (length (items r))
         = Z.min page_size (total r - (Ranking.page r - 1) * page_size)
       ∧ (has_next r = true ↔ Ranking.page r < total_pages r)
       ∧ (has_prev r = true ↔ 1 < Ranking.page r)).
Proof.
  cbv zeta. unfold get_ip_ranking. cbv zeta.
  set (sorted := sorted_desc _ _).
  destruct (Z.eqb_spec page_size 0) as [->|Hnz].
  { split; [done|lia]. }
  split; [split; [done|lia]|]. intros Hps.
  set (len := Z.of_nat (length sorted)).
  destruct (total_pages_bounds len page_size Hps ltac:(lia)) as [Htp0 Htp].
  set (tp := (len + page_size - 1) `div` page_size) in *.
  set (pg := Z.max 1 (Z.min page (if 0 <? tp then tp else 1))).
  assert (1 ≤ pg ≤ Z.max 1 tp) as Hpg.
  { subst pg. destruct (Z.ltb_spec 0 tp); lia. }
  eexists. split; [reflexivity|].
  cbn [total total_pages Ranking.page items has_next has_prev].
  split; [done|]. split; [done|]. split; [done|]. split; [done|].
  split; [done|].
  split; [subst pg; destruct (Z.ltb_spec 0 tp); lia|].
  split; [subst pg; destruct (Z.ltb_spec 0 tp); lia|].
  split; [subst pg; destruct (Z.ltb_spec 0 tp); lia|].
  rewrite slice_forward by nia.
  split; [done|]. split.
  - rewrite length_take, length_drop.
    assert (0 ≤ (pg - 1) * page_size ≤ len) as Hstart by nia.
    subst len. lia.
  - by rewrite !Z.ltb_lt.
Qed.

(** X22 ([get_ip_ranking]). For a positive page size, the items of the
    pages 1 to [total_pages], one after the other, are the ranked list: no
    entry is lost or shown twice. *)
Theorem ranking_pages_cover rank_by page_size include_banned all_ips :
  0 < page_size →
  let sorted :=
    sorted_desc (sort_key rank_by) (filtered_ips include_banned all_ips) in
  let total_pages :=
    (Z.of_nat (length sorted) + page_size - 1) `div` page_size in
  concat
    ((λ p : nat,
        match get_ip_ranking rank_by (Z.of_nat p) page_size include_banned
                all_ips with
        | Some r => items r
        | None => []
        end) <$> seq 1 (Z.to_nat total_pages))
  = sorted.
Proof.
  intros Hps. cbv zeta. set (sorted := sorted_desc _ _).
  destruct (total_pages_bounds (Z.of_nat (length sorted)) page_size Hps
              ltac:(lia)) as [Htp0 Htp].
  set (tp := (Z.of_nat (length sorted) + page_size - 1) `div` page_size) in *.
  etransitivity;
    [|apply (pages_cover (Z.to_nat page_size) (Z.to_nat tp) sorted); nia].
  rewrite <- fmap_S_seq, <- list_fmap_compose. f_equal.
  apply list_fmap_ext. intros j i Hi%lookup_seq. cbn [compose].
  destruct (get_ip_ranking_items rank_by (Z.of_nat (S i)) page_size
              include_banned all_ips Hps) as (r & -> & ->).
  { fold sorted. fold tp. lia. }
  fold sorted. do 2 f_equal. lia.
Qed.
End RankingProperties.


(** * Properties of the location resolver *)

Section LocationProperties.
Import IPManagerViews.

Lemma describe_nonempty parts isp : describe parts isp ≠ "".
Proof.
  unfold describe. cbv zeta.
  destruct (truthy (if truthy isp then _ else _)) eqn:Ht.
  - unfold truthy in Ht. apply negb_true_iff, bool_decide_eq_false in Ht.
    exact Ht.
  - done.
Qed.

(** X23 ([_get_ip_location]). The location is never the empty string,
    whatever the three providers answer, and for a loopback or private
    address it is the local label, with no provider looked at. *)
Theorem location_never_empty first second third ip :
  _get_ip_location first second third ip ≠ ""
  ∧ (is_local_ip ip = true →
     _get_ip_location first second third ip = local_label).
Proof.
  unfold _get_ip_location. split.
  - destruct (is_local_ip ip); [done|].
    destruct first as [|c1 d1]; cbn [from_ip_api];
      [|destruct (_ && _); [apply describe_nonempty|]];
      (destruct second as [|c2 d2]; cbn [from_ip_who];
       [|destruct (_ && _); [apply describe_nonempty|]];
       (destruct third as [|c3 d3]; cbn [from_pconline from_option id];
        [done|destruct (_ =? _); [apply describe_nonempty|done]])).
  - by intros ->.
Qed.

(** X24 ([_get_ip_location]). For an address that is not local, the
    providers count in their order: when the first answers 200 with
    status "success", the answers of the other two make no difference;
    when the first gives nothing and the second answers 200 with success,
    the answer of the third makes no difference; and when each of the
    three fails or answers without success (the third: with another code
    than 200), the location is the unknown label. *)
Theorem location_provider_order first second third ip :
  is_local_ip ip = false →
  (∀ data, first = Answered 200 data → api_status data = Some "success" →
     ∀ second' third',
       _get_ip_location first second' third' ip
       = _get_ip_location first second third ip)
  ∧ (from_ip_api first = None →
     ∀ data, second = Answered 200 data → who_success data = true →
       ∀ third',
         _get_ip_location first second third' ip
         = _get_ip_location first second third ip)
  ∧ ((first = Failed
      ∨ ∃ code data, first = Answered code data
                     ∧ (code ≠ 200 ∨ api_status data ≠ Some "success")) →
     (second = Failed
      ∨ ∃ code data, second = Answered code data
                     ∧ (code ≠ 200 ∨ who_success data = false)) →
     (third = Failed ∨ ∃ code data, third = Answered code data ∧ code ≠ 200) →
     _get_ip_location first second third ip = unknown_label).
Proof.
  intros Hip. unfold _get_ip_location. rewrite Hip. split; [|split].
  - intros data -> Hs second' third'. cbn [from_ip_api].
    by rewrite bool_decide_eq_true_2.
  - intros -> data -> Hs third'. cbn [from_ip_who]. by rewrite Hs.
  - intros H1 H2 H3.
    assert (from_ip_api first = None) as ->.
    { destruct H1 as [->|(code & data & -> & [Hc|Hst])]; [done|..];
        cbn [from_ip_api].
      - by rewrite (proj2 (Z.eqb_neq code 200)).
      - by rewrite bool_decide_eq_false_2, andb_false_r. }
    assert (from_ip_who second = None) as ->.
    { destruct H2 as [->|(code & data & -> & [Hc|Hst])]; [done|..];
        cbn [from_ip_who].
      - by rewrite (proj2 (Z.eqb_neq code 200)).
      - by rewrite Hst, andb_false_r. }
    destruct H3 as [->|(code & data & -> & Hc)]; [done|].
    cbn [from_pconline]. by rewrite (proj2 (Z.eqb_neq code 200)).
Qed.
End LocationProperties.

Section ViewExamples.
Import IPManager IPManagerViews Samples Scenarios.

Lemma summary_counts_witness :
  let m := store "198.51.100.7" (visitor 5 "2023-11-15" "active" None) in
  let s := get_all_ips_summary m in
  (∀ k d, default ∅ (ip_cache m) !! k = Some d →
          status d ∈ [Some "active"; Some "banned"; Some "rate_limited"])
  ∧ (active_ips s + banned_ips s + rate_limited_ips s = total_ips s)%nat.
Proof.
  intros m s.
  assert (∀ k d, default ∅ (ip_cache m) !! k = Some d →
                 status d
                 ∈ [Some "active"; Some "banned"; Some "rate_limited"])
    as Hall.
  { intros k d Hk. unfold m, store in Hk.
    cbn [ip_cache from_option id] in Hk.
    apply lookup_singleton_Some in Hk as [_ <-]. apply elem_of_cons.
    by left. }
  split; [exact Hall|]. exact (proj2 (summary_counts m) Hall).
Defined.

Lemma summary_after_record_witness :
  let after :=
    record_request resolver noon "203.0.113.9" "/v1/models" None None
      empty_store in
  after.1 = true
  ∧ summary_total_requests (get_all_ips_summary after.2)
    = summary_total_requests (get_all_ips_summary empty_store) + 1.
Proof.
  intros after.
  assert (after.1 = true) as Hok by reflexivity.
  split; [exact Hok|].
  exact (proj1 (summary_after_record resolver noon "203.0.113.9" "/v1/models"
                  None None empty_store Hok)).
Defined.

Lemma ranking_order_witness :
  Forall (λ e, Ranking.status e ≠ "banned")
    (Ranking.sorted_desc (Ranking.sort_key "today")
       (Ranking.filtered_ips false three_visitors)).
Proof.
  apply Forall_forall. intros e He.
  destruct (ranking_order "today" false three_visitors)
    as (_ & _ & _ & Hfrom & _).
  destruct (Hfrom e He) as (kv & _ & _ & Hnot).
  exact (proj2 (Hnot eq_refl)).
Defined.

Lemma ranking_page_witness :
  0 < 2
  ∧ ∃ r,
      Ranking.get_ip_ranking "today" 5 2 true three_visitors = Some r
      ∧ Ranking.total r = 3
      ∧ 1 ≤ Ranking.page r ≤ Z.max 1 (Ranking.total_pages r).
Proof.
  assert (0 < 2) as Hps by lia.
  split; [exact Hps|].
  destruct (ranking_page "today" 5 2 true three_visitors) as (_ & Hpage).
  destruct (Hpage Hps) as (r & Hr & Htotal & _ & _ & _ & Hrange & _).
  exists r. split; [exact Hr|]. split; [|exact Hrange].
  rewrite Htotal. reflexivity.
Defined.

Lemma ranking_pages_cover_witness :
  0 < 2
  ∧ concat
      ((λ p : nat,
          match Ranking.get_ip_ranking "total" (Z.of_nat p) 2 true
                  three_visitors with
          | Some r => Ranking.items r
          | None => []
          end)
       <$> seq 1
             (Z.to_nat
                ((Z.of_nat
                    (length
                       (Ranking.sorted_desc (Ranking.sort_key "total")
                          (Ranking.filtered_ips true three_visitors)))
                  + 2 - 1) `div` 2)))
    = Ranking.sorted_desc (Ranking.sort_key "total")
        (Ranking.filtered_ips true three_visitors).
Proof.
  assert (0 < 2) as Hps by lia.
  split; [exact Hps|].
  exact (ranking_pages_cover "total" 2 true three_visitors Hps).
Defined.

Lemma location_never_empty_witness :
  is_local_ip "192.168.1.20" = true
  ∧ _get_ip_location Failed Failed Failed "192.168.1.20" = local_label.
Proof.
  assert (is_local_ip "192.168.1.20" = true) as Hlocal by reflexivity.
  split; [exact Hlocal|].
  exact (proj2 (location_never_empty Failed Failed Failed "192.168.1.20")
           Hlocal).
Defined.

Lemma location_provider_order_witness :
  let down : pconline := {| pc_pro := None; pc_city := None;
                            pc_addr := None |} in
  (is_local_ip "203.0.113.9" = false ∧ 503 ≠ 200)
  ∧ _get_ip_location Failed Failed (Answered 503 down) "203.0.113.9"
    = unknown_label.
Proof.
  intros down.
  assert (is_local_ip "203.0.113.9" = false) as Hip by reflexivity.
  assert (503 ≠ 200) as Hcode by lia.
  split; [done|].
  destruct (location_provider_order Failed Failed (Answered 503 down)
              "203.0.113.9" Hip) as (_ & _ & Hnone).
  apply Hnone; [by left | by left |].
  right. by exists 503, down.
Defined.
End ViewExamples.

(** * Further properties of the proxy engine *)

Section EngineTurns.
Import Effect GoogleChatApi.

Variable json_loads : string → option json.
Variable json_dumps : json → string.
Variable cfg : config.

Lemma upstream_call_error call s :
  (∀ code content rest, upstream s ≠ Reply code content :: rest) →
  ∃ msg,
    upstream_call call s = (Raised (Exception msg), [call], drop_reply s)
    ∧ msg = match upstream s with
            | TransportError msg :: _ => msg
            | _ => "connection failed"
            end.
Proof.
  intros Hno. unfold upstream_call, mbind, M_bind, bind, emit, gets, modify.
  cbn. destruct (upstream s) as [|[msg|code content] rest] eqn:Hup; cbn.
  - by eexists.
  - by eexists.
  - by destruct (Hno code content rest).
Qed.

(** X25 ([send_gemini_request], one turn). A 5xx answer with a retry left
    is retried with the same credential: no refresh, no ban, no rotation,
    only the back-off sleep of [retry_interval * 2 ** attempt] seconds.
    The streaming path has recorded the failure of the call before, the
    other path records nothing. *)
Theorem server_error_retries_same_credential (is_streaming : bool) url model
    attempt l s code content rest :
  upstream s = Reply code content :: rest →
  500 ≤ code < 600 →
  Z.of_nat attempt < retry_429_max_retries cfg →
  current_file l ≠ "" →
  one_attempt json_loads json_dumps cfg is_streaming url model attempt l s
  = (Ok (Continue l),
     (if is_streaming
      then [CreateStreamingClient; StreamEnter url (bearer l) (project l);
            RecordApiCallResult (current_file l) false (Some code);
            StreamExit; ClientClose]
      else [Post url (bearer l) (project l)])
     ++ [Sleep (retry_429_interval cfg * inject_Z (2 ^ Z.of_nat attempt))],
     drop_reply s).
Proof.
  intros Hup Hcode Hcan%can_retry_true Hfile.
  assert ((code =? 429) = false) as H429 by (apply Z.eqb_neq; lia).
  assert ((code =? 200) = false) as H200 by (apply Z.eqb_neq; lia).
  assert (is_server_error code = true) as H5xx.
  { unfold is_server_error. apply andb_true_iff.
    split; [apply Z.leb_le | apply Z.ltb_lt]; lia. }
  unfold one_attempt. apply try_except_ok. destruct is_streaming.
  - unfold streaming_attempt.
    rewrite (bind_ok _ _ s tt [CreateStreamingClient] s eq_refl).
    erewrite try_except_ok; [reflexivity|].
    rewrite (bind_ok _ _ _ _ _ _ (upstream_call_reply _ _ _ _ _ Hup)).
    rewrite H429, H200. cbn [negb].
    rewrite (bind_ok _ _ _ _ _ _ (record_failure_run _ code _ Hfile)).
    rewrite (bind_ok _ _ (drop_reply s) tt [StreamExit] _ eq_refl).
    rewrite (bind_ok _ _ (drop_reply s) tt [ClientClose] _ eq_refl).
    rewrite H5xx, Hcan. reflexivity.
  - unfold unary_attempt.
    rewrite (bind_ok _ _ _ _ _ _ (upstream_call_reply _ _ _ _ _ Hup)).
    rewrite H429, H200, H5xx, Hcan. reflexivity.
Qed.

(** X26 ([send_gemini_request], one turn). When the call upstream raises
    (a transport error, or no answer at all), the turn touches no
    credential and records nothing; the streaming path closes its client.
    With a retry left the turn sleeps the back-off delay and goes on with
    the same credential; without one the request ends with the response
    500 "Request failed: " followed by the message of the exception. *)
Theorem transport_error_turn (is_streaming : bool) url model attempt l s :
  (∀ code content rest, upstream s ≠ Reply code content :: rest) →
  let msg := match upstream s with
             | TransportError msg :: _ => msg
             | _ => "connection failed"
             end in
  let call :=
    if is_streaming
    then [CreateStreamingClient; StreamEnter url (bearer l) (project l);
          ClientClose]
    else [Post url (bearer l) (project l)] in
  (Z.of_nat attempt < retry_429_max_retries cfg →
   one_attempt json_loads json_dumps cfg is_streaming url model attempt l s
   = (Ok (Continue l),
      call
      ++ [Sleep (retry_429_interval cfg * inject_Z (2 ^ Z.of_nat attempt))],
      drop_reply s))
  ∧ (retry_429_max_retries cfg ≤ Z.of_nat attempt →
     one_attempt json_loads json_dumps cfg is_streaming url model attempt l s
     = (Ok (Return (ErrorResponse ("Request failed: " +:+ msg) 500)), call,
        drop_reply s)).
Proof.
  intros Hno msg call. subst msg call.
  assert (∃ msg,
            (if is_streaming
             then streaming_attempt cfg url model attempt l
             else unary_attempt json_loads json_dumps cfg url model attempt l) s
            = (Raised (Exception msg),
               if is_streaming
               then [CreateStreamingClient;
                     StreamEnter url (bearer l) (project l); ClientClose]
               else [Post url (bearer l) (project l)],
               drop_reply s)
            ∧ msg = match upstream s with
                    | TransportError msg :: _ => msg
                    | _ => "connection failed"
                    end) as (msg & Hbody & ->).
  { destruct is_streaming.
    - destruct (upstream_call_error
                  (StreamEnter url (bearer l) (project l)) s Hno)
        as (msg & Hcall & Hmsg).
      exists msg. split; [|done]. unfold streaming_attempt.
      rewrite (bind_ok _ _ s tt [CreateStreamingClient] s eq_refl).
      erewrite try_except_caught;
        [|by rewrite (bind_raised _ _ _ _ _ _ Hcall)].
      reflexivity.
    - destruct (upstream_call_error (Post url (bearer l) (project l)) s Hno)
        as (msg & Hcall & Hmsg).
      exists msg. split; [|done]. unfold unary_attempt.
      by rewrite (bind_raised _ _ _ _ _ _ Hcall). }
  unfold one_attempt. split.
  - intros Hcan%can_retry_true.
    erewrite try_except_caught; [|exact Hbody]. by rewrite Hcan.
  - intros Hcan%can_retry_false.
    erewrite try_except_caught; [|exact Hbody]. rewrite Hcan.
    cbn. by rewrite app_nil_r.
Qed.

(** X27 ([send_gemini_request], one turn). An answer whose status is on
    the auto-ban list and is none of 200, 429 and 5xx (for those see C5 and
    X25: they are retried or returned without a ban, on the list or not)
    and none of 400, 401 and 404, with auto-ban on, a retry left and a
    credential file at hand, is never refreshed: the failure is recorded,
    the credential is disabled, the pool is rotated, the next credential
    is fetched, and after half a second the request goes on with it, or
    with the old one when the pool gave none. The pool is one whose next
    credential, if it gives one, has a token and a project id. *)
Theorem auto_ban_disables_and_rotates (is_streaming : bool) url model attempt
    l s code content rest next :
  upstream s = Reply code content :: rest →
  code ≠ 429 → code ≠ 200 → ¬ 500 ≤ code < 600 →
  code ∉ [400; 401; 404] →
  auto_ban_enabled cfg = true → code ∈ auto_ban_error_codes cfg →
  Z.of_nat attempt < retry_429_max_retries cfg →
  current_file l ≠ "" →
  _get_next_credential (drop_reply s)
  = (Ok next, [GetValidCredential], drop_credential (drop_reply s)) →
  one_attempt json_loads json_dumps cfg is_streaming url model attempt l s
  = (Ok (Continue (default l next)),
     (if is_streaming
      then [CreateStreamingClient; StreamEnter url (bearer l) (project l);
            RecordApiCallResult (current_file l) false (Some code);
            StreamExit; ClientClose]
      else [Post url (bearer l) (project l);
            RecordApiCallResult (current_file l) false (Some code)])
     ++ [SetCredDisabled (current_file l); ForceRotateCredential;
         GetValidCredential; Sleep (1 # 2)],
     drop_credential (drop_reply s)).
Proof.
  intros Hup H429%Z.eqb_neq H200%Z.eqb_neq H5xx Hauth Hen Hin
    Hcan%can_retry_true Hfile Hnext.
  assert (is_server_error code = false) as Hsrv.
  { unfold is_server_error. apply andb_false_iff.
    destruct (Z.le_gt_cases 500 code);
      [right; apply Z.ltb_ge | left; apply Z.leb_gt]; lia. }
  assert (_check_should_auto_ban cfg code = true) as Hban.
  { unfold _check_should_auto_ban. by rewrite Hen, bool_decide_eq_true_2. }
  assert (refresh_or_ban code l (drop_reply s)
          = (Ok (Continue (default l next)),
             [SetCredDisabled (current_file l); ForceRotateCredential;
              GetValidCredential; Sleep (1 # 2)],
             drop_credential (drop_reply s))) as Hrun.
  { unfold refresh_or_ban, is_auth_code.
    rewrite bool_decide_eq_false_2 by done.
    rewrite (bind_ok _ _ (drop_reply s) false [] (drop_reply s) eq_refl).
    rewrite (bind_ok _ _ _ _ _ _ (handle_auto_ban_run _ _ Hfile)).
    rewrite (bind_ok _ _ _ _ _ _ Hnext). reflexivity. }
  unfold one_attempt. apply try_except_ok. destruct is_streaming.
  - unfold streaming_attempt.
    rewrite (bind_ok _ _ s tt [CreateStreamingClient] s eq_refl).
    erewrite try_except_ok; [reflexivity|].
    rewrite (bind_ok _ _ _ _ _ _ (upstream_call_reply _ _ _ _ _ Hup)).
    rewrite H429, H200. cbn [negb].
    rewrite (bind_ok _ _ _ _ _ _ (record_failure_run _ code _ Hfile)).
    rewrite (bind_ok _ _ (drop_reply s) tt [StreamExit] _ eq_refl).
    rewrite (bind_ok _ _ (drop_reply s) tt [ClientClose] _ eq_refl).
    rewrite Hsrv, Hban, Hcan. cbn [andb]. by rewrite Hrun.
  - unfold unary_attempt.
    rewrite (bind_ok _ _ _ _ _ _ (upstream_call_reply _ _ _ _ _ Hup)).
    rewrite H429, H200, Hsrv, Hban, Hcan. cbn [negb andb].
    rewrite (bind_ok _ _ _ _ _ _ (record_failure_run _ code _ Hfile)).
    by rewrite Hrun.
Qed.

Lemma handle_api_error_run code file (s : script) :
  code ≠ 429 → file ≠ "" →
  _handle_api_error cfg code file s
  = (Ok tt,
     if _check_should_auto_ban cfg code
     then [SetCredDisabled file; ForceRotateCredential] else [],
     s).
Proof.
  intros H429%Z.eqb_neq Hfile. unfold _handle_api_error, nonempty.
  rewrite H429, bool_decide_eq_false_2 by done. cbn [negb].
  by destruct (_check_should_auto_ban cfg code).
Qed.

(** X28 ([send_gemini_request], one turn). An answer that is neither 200
    nor 429 ends the request when no retry is left, or when its status is
    neither 5xx nor on the auto-ban list (or auto-ban is off): the failure
    is recorded once, the credential is disabled and the pool rotated
    exactly when the status is on the auto-ban list with auto-ban on, and
    the response carries the status of the upstream. *)
Theorem final_error_turn (is_streaming : bool) url model attempt l s code
    content rest :
  upstream s = Reply code content :: rest →
  code ≠ 429 → code ≠ 200 →
  retry_429_max_retries cfg ≤ Z.of_nat attempt
  ∨ (¬ 500 ≤ code < 600
     ∧ (auto_ban_enabled cfg = false ∨ code ∉ auto_ban_error_codes cfg)) →
  current_file l ≠ "" →
  ∃ r,
    error_code r = Some code
    ∧ one_attempt json_loads json_dumps cfg is_streaming url model attempt l s
      = (Ok (Return r),
         (if is_streaming
          then [CreateStreamingClient; StreamEnter url (bearer l) (project l);
                RecordApiCallResult (current_file l) false (Some code);
                StreamExit; ClientClose]
          else [Post url (bearer l) (project l);
                RecordApiCallResult (current_file l) false (Some code)])
         ++ (if auto_ban_enabled cfg
                && bool_decide (code ∈ auto_ban_error_codes cfg)
             then [SetCredDisabled (current_file l); ForceRotateCredential]
             else []),
         drop_reply s).
Proof.
  intros Hup H429 H200 Hfinal Hfile.
  pose proof (handle_api_error_run code (current_file l) (drop_reply s)
                H429 Hfile) as Herr.
  apply Z.eqb_neq in H429 as H429'. apply Z.eqb_neq in H200 as H200'.
  assert (is_server_error code && can_retry cfg attempt = false) as Hsrv.
  { destruct Hfinal as [Hlast%can_retry_false|[H5xx _]].
    - by rewrite Hlast, andb_false_r.
    - apply andb_false_iff. left. unfold is_server_error.
      apply andb_false_iff.
      destruct (Z.le_gt_cases 500 code);
        [right; apply Z.ltb_ge | left; apply Z.leb_gt]; lia. }
  assert (_check_should_auto_ban cfg code && can_retry cfg attempt = false)
    as Hban.
  { destruct Hfinal as [Hlast%can_retry_false|[_ Hoff]].
    - by rewrite Hlast, andb_false_r.
    - apply andb_false_iff. left. unfold _check_should_auto_ban.
      destruct Hoff as [->|Hnot]; [done|].
      by rewrite bool_decide_eq_false_2, andb_false_r. }
  unfold _check_should_auto_ban in Herr.
  unfold one_attempt. destruct is_streaming.
  - exists (ErrorStream (api_error_msg code) code). split; [done|].
    apply try_except_ok. unfold streaming_attempt.
    rewrite (bind_ok _ _ s tt [CreateStreamingClient] s eq_refl).
    erewrite try_except_ok; [reflexivity|].
    rewrite (bind_ok _ _ _ _ _ _ (upstream_call_reply _ _ _ _ _ Hup)).
    rewrite H429', H200'. cbn [negb].
    rewrite (bind_ok _ _ _ _ _ _ (record_failure_run _ code _ Hfile)).
    rewrite (bind_ok _ _ (drop_reply s) tt [StreamExit] _ eq_refl).
    rewrite (bind_ok _ _ (drop_reply s) tt [ClientClose] _ eq_refl).
    rewrite Hsrv, Hban.
    rewrite (bind_ok _ _ _ _ _ _ Herr). cbn. by rewrite app_nil_r.
  - exists (ErrorResponse (api_error_msg code) code). split; [done|].
    apply try_except_ok. unfold unary_attempt.
    rewrite (bind_ok _ _ _ _ _ _ (upstream_call_reply _ _ _ _ _ Hup)).
    rewrite H429', H200'. cbn [negb andb].
    rewrite Hsrv, Hban.
    assert (_handle_non_streaming_response json_loads json_dumps cfg code
              content model (current_file l) (drop_reply s)
            = (Ok (ErrorResponse (api_error_msg code) code),
               RecordApiCallResult (current_file l) false (Some code)
               :: (if auto_ban_enabled cfg
                      && bool_decide (code ∈ auto_ban_error_codes cfg)
                   then [SetCredDisabled (current_file l);
                         ForceRotateCredential]
                   else []),
               drop_reply s)) as Hresp.
    { unfold _handle_non_streaming_response. rewrite H200'.
      rewrite (bind_ok _ _ _ _ _ _ (record_failure_run _ code _ Hfile)).
      rewrite (bind_ok _ _ _ _ _ _ Herr). cbn. by rewrite app_nil_r. }
    rewrite (bind_ok _ _ _ _ _ _ Hresp). cbn. by rewrite app_nil_r.
Qed.
End EngineTurns.


(** ** Requests that end before any call upstream *)

Section EarlyExit.
Import Effect GoogleChatApi.

Variable json_loads : string → option json.
Variable json_dumps : json → string.
Variable cfg : config.

(** X30 ([send_gemini_request]). The request ends with a plain error
    response, streaming or not, before any call upstream: with no
    credential manager, 500 and not even a look at the pool; with a pool
    that gives no credential, 500; with a credential without token or
    without project id, 500 with the message of the exception; and with a
    negative number of retries, 429 "Max retries exceeded". In all but
    the first case the pool has been asked exactly once. *)
Theorem request_ends_before_any_call model (is_streaming : bool) s :
  let first := mjoin (head (credentials s)) in
  let bearer_of cd :=
    if truthy_str (token cd) then default "" (token cd)
    else default "" (access_token cd) in
  send_gemini_request json_loads json_dumps cfg model is_streaming false s
  = (Ok (ErrorResponse "Credential manager not provided" 500), [], s)
  ∧ (first = None →
     send_gemini_request json_loads json_dumps cfg model is_streaming true s
     = (Ok (ErrorResponse "No valid credentials available" 500),
        [GetValidCredential], drop_credential s))
  ∧ (∀ file cd, first = Some (file, cd) → bearer_of cd = "" →
     send_gemini_request json_loads json_dumps cfg model is_streaming true s
     = (Ok (ErrorResponse no_token_msg 500), [GetValidCredential],
        drop_credential s))
  ∧ (∀ file cd, first = Some (file, cd) → bearer_of cd ≠ "" →
     default "" (project_id cd) = "" →
     send_gemini_request json_loads json_dumps cfg model is_streaming true s
     = (Ok (ErrorResponse no_project_msg 500), [GetValidCredential],
        drop_credential s))
  ∧ (∀ file cd, first = Some (file, cd) → bearer_of cd ≠ "" →
     default "" (project_id cd) ≠ "" →
     retry_429_max_retries cfg < 0 →
     send_gemini_request json_loads json_dumps cfg model is_streaming true s
     = (Ok (ErrorResponse "Max retries exceeded" 429), [GetValidCredential],
        drop_credential s)).
Proof.
  cbv zeta. split; [reflexivity|].
  unfold send_gemini_request. cbn [negb].
  repeat split.
  - intros Hnone.
    erewrite bind_ok;
      [|apply try_except_ok;
        rewrite (bind_ok _ _ _ _ _ _ (get_valid_credential_run s)), Hnone;
        reflexivity].
    reflexivity.
  - intros file cd Hfirst Htoken.
    erewrite bind_ok.
    2:{ erewrite try_except_caught; [reflexivity|].
        rewrite (bind_ok _ _ _ _ _ _ (get_valid_credential_run s)), Hfirst.
        erewrite bind_raised; [reflexivity|].
        unfold _prepare_request_headers_and_payload, nonempty.
        rewrite Htoken. reflexivity. }
    reflexivity.
  - intros file cd Hfirst Htoken Hproject.
    erewrite bind_ok.
    2:{ erewrite try_except_caught; [reflexivity|].
        rewrite (bind_ok _ _ _ _ _ _ (get_valid_credential_run s)), Hfirst.
        erewrite bind_raised; [reflexivity|].
        unfold _prepare_request_headers_and_payload, nonempty.
        rewrite (bool_decide_eq_false_2 _ Htoken), Hproject. reflexivity. }
    reflexivity.
  - intros file cd Hfirst Htoken Hproject Hneg.
    erewrite bind_ok.
    2:{ apply try_except_ok.
        rewrite (bind_ok _ _ _ _ _ _ (get_valid_credential_run s)), Hfirst.
        erewrite bind_ok; [reflexivity|].
        unfold _prepare_request_headers_and_payload, nonempty.
        rewrite (bool_decide_eq_false_2 _ Htoken),
          (bool_decide_eq_false_2 _ Hproject). reflexivity. }
    replace (Z.to_nat (retry_429_max_retries cfg + 1)) with 0%nat by lia.
    reflexivity.
Qed.
End EarlyExit.


(** ** Bounds on a whole request *)

Section TraceBounds.
Import Effect GoogleChatApi Trace.

Lemma count_app p evs1 evs2 :
  count p (evs1 ++ evs2) = (count p evs1 + count p evs2)%nat.
Proof. unfold count. by rewrite filter_app, length_app. Qed.

Lemma emits_weaken {S A} p n n' (m : M S A) :
  (n ≤ n')%nat → emits p n m → emits p n' m.
Proof. intros Hle Hm s. specialize (Hm s). lia. Qed.

Lemma emits_ret {S A} p (a : A) : emits p 0 (mret a : M S A).
Proof. intros s. cbn. lia. Qed.

Lemma emits_raise {S A} p e : emits p 0 (raise e : M S A).
Proof. intros s. cbn. lia. Qed.

Lemma emits_gets {S A} p (f : S → A) : emits p 0 (gets f).
Proof. intros s. cbn. lia. Qed.

Lemma emits_modify {S} p (f : S → S) : emits p 0 (modify f).
Proof. intros s. cbn. lia. Qed.

Lemma emits_emit_other {S} p e : p e = false → emits p 0 (emit e : M S unit).
Proof.
  intros He s. unfold emit, count. cbn [fst snd].
  by rewrite filter_cons_False by congruence.
Qed.

Lemma emits_emit {S} p e : emits p 1 (emit e : M S unit).
Proof.
  intros s. unfold emit, count. cbn [fst snd].
  pose proof (length_filter (λ e, p e = true) [e]). simpl in *. lia.
Qed.

Lemma emits_bind {S A B} p n1 n2 (m : M S A) (k : A → M S B) :
  emits p n1 m → (∀ a, emits p n2 (k a)) → emits p (n1 + n2) (x ← m; k x).
Proof.
  intros Hm Hk s. specialize (Hm s). unfold mbind, M_bind, bind.
  destruct (m s) as [[[a|e] evs] s']; cbn [fst snd] in *; [|lia].
  specialize (Hk a s'). destruct (k a s') as [[r evs'] s''].
  cbn [fst snd] in *. rewrite count_app. lia.
Qed.

Lemma emits_try_except {S A} p n1 n2 (m : M S A) h :
  emits p n1 m → (∀ msg, emits p n2 (h msg)) →
  emits p (n1 + n2) (try_except m h).
Proof.
  intros Hm Hh s. specialize (Hm s). unfold try_except.
  destruct (m s) as [[[a|[msg| |]] evs] s']; cbn [fst snd] in *; try lia.
  specialize (Hh msg s'). destruct (h msg s') as [[r evs'] s''].
  cbn [fst snd] in *. rewrite count_app. lia.
Qed.

Lemma mild_ret {S A} (a : A) : mild (mret a : M S A).
Proof. by intros s. Qed.

Lemma mild_raise {S A} msg : mild (raise (Exception msg) : M S A).
Proof. by intros s. Qed.

Lemma mild_emit {S} e : mild (emit e : M S unit).
Proof. by intros s. Qed.

Lemma mild_gets {S A} (f : S → A) : mild (gets f).
Proof. by intros s. Qed.

Lemma mild_modify {S} (f : S → S) : mild (modify f).
Proof. by intros s. Qed.

Lemma mild_bind {S A B} (m : M S A) (k : A → M S B) :
  mild m → (∀ a, mild (k a)) → mild (x ← m; k x).
Proof.
  intros Hm Hk s. specialize (Hm s). unfold mbind, M_bind, bind.
  destruct (m s) as [[[a|e] evs] s']; cbn [fst snd] in *; [|done].
  specialize (Hk a s'). by destruct (k a s') as [[r evs'] s''].
Qed.

Lemma mild_try_except {S A} (m : M S A) h :
  mild m → (∀ msg, mild (h msg)) → mild (try_except m h).
Proof.
  intros Hm Hh s. specialize (Hm s). unfold try_except.
  destruct (m s) as [[[a|[msg| |]] evs] s']; cbn [fst snd] in *; try done.
  specialize (Hh msg s'). by destruct (h msg s') as [[r evs'] s''].
Qed.

Lemma safe_ret {S A} (a : A) : safe (mret a : M S A).
Proof. intros s. by eexists. Qed.

Lemma safe_bind {S A B} (m : M S A) (k : A → M S B) :
  safe m → (∀ a, safe (k a)) → safe (x ← m; k x).
Proof.
  intros Hm Hk s. destruct (Hm s) as [a Ha]. unfold mbind, M_bind, bind.
  destruct (m s) as [[r evs] s']; cbn [fst snd] in *. subst r.
  destruct (Hk a s') as [b Hb]. destruct (k a s') as [[r evs'] s''].
  cbn [fst snd] in *. by eexists.
Qed.

Lemma safe_try_except {S A} (m : M S A) h :
  mild m → (∀ msg, safe (h msg)) → safe (try_except m h).
Proof.
  intros Hm Hh s. specialize (Hm s). unfold try_except.
  destruct (m s) as [[[a|[msg| |]] evs] s']; cbn [fst snd] in *; try done.
  - by eexists.
  - destruct (Hh msg s') as [b Hb]. destruct (h msg s') as [[r evs'] s''].
    cbn [fst snd] in *. by eexists.
Qed.

Ltac emits0 :=
  repeat first
    [ apply emits_ret | apply emits_raise | apply emits_gets
    | apply emits_modify
    | apply emits_emit_other; reflexivity
    | apply (emits_bind _ 0 0); [|intros ?]
    | apply (emits_try_except _ 0 0); [|intros ?]
    | match goal with
      | |- emits _ _ (if ?b then _ else _) => destruct b
      | |- emits _ _ (match ?x with _ => _ end) => destruct x
      end ].

Ltac mild0 :=
  repeat first
    [ apply mild_ret | apply mild_raise | apply mild_emit | apply mild_gets
    | apply mild_modify
    | apply mild_bind; [|intros ?]
    | apply mild_try_except; [|intros ?]
    | match goal with
      | |- mild (if ?b then _ else _) => destruct b
      | |- mild (match ?x with _ => _ end) => destruct x
      end ].

Section Helpers.
Variable cfg : config.
Variable p : event → bool.
Hypothesis p_call_or_record :
  ∀ e, p e = true → is_upstream_call e = true ∨ is_record e = true.

Lemma p_other e : is_upstream_call e = false → is_record e = false → p e = false.
Proof.
  intros Hc Hr. destruct (p e) eqn:Hp; [|done].
  destruct (p_call_or_record e Hp); congruence.
Qed.

Ltac silent :=
  repeat first
    [ apply emits_ret | apply emits_raise | apply emits_gets
    | apply emits_modify
    | apply emits_emit_other, p_other; reflexivity
    | apply (emits_bind _ 0 0); [|intros ?]
    | apply (emits_try_except _ 0 0); [|intros ?]
    | match goal with
      | |- emits _ _ (if ?b then _ else _) => destruct b
      | |- emits _ _ (match ?x with _ => _ end) => destruct x
      end ].

Lemma silent_get_valid_credential : emits p 0 get_valid_credential.
Proof. unfold get_valid_credential. silent. Qed.

Lemma silent_force_refresh : emits p 0 force_refresh_current_token.
Proof. unfold force_refresh_current_token. silent. Qed.

Lemma silent_prepare file cd :
  emits p 0 (_prepare_request_headers_and_payload file cd).
Proof. unfold _prepare_request_headers_and_payload. silent. Qed.

Lemma silent_get_next_credential : emits p 0 _get_next_credential.
Proof.
  unfold _get_next_credential.
  apply (emits_bind _ 0 0); [apply silent_get_valid_credential|].
  intros [[file cd]|]; [|silent].
  apply (emits_bind _ 0 0); [apply silent_prepare|]. intros ?. silent.
Qed.

Lemma silent_handle_auto_ban file : emits p 0 (_handle_auto_ban file).
Proof. unfold _handle_auto_ban. silent. Qed.

Lemma silent_handle_api_error code file :
  emits p 0 (_handle_api_error cfg code file).
Proof. unfold _handle_api_error. silent. Qed.

Lemma silent_sleep q : emits p 0 (sleep q).
Proof. unfold sleep. silent. Qed.

Lemma silent_refresh_or_ban code l : emits p 0 (refresh_or_ban code l).
Proof.
  unfold refresh_or_ban.
  apply (emits_bind _ 0 0).
  { destruct (is_auth_code code); [apply silent_force_refresh | silent]. }
  intros [|].
  - apply (emits_bind _ 0 0); [apply silent_get_next_credential|]. intros ?.
    apply (emits_bind _ 0 0); [apply silent_sleep|]. intros ?. silent.
  - apply (emits_bind _ 0 0); [apply silent_handle_auto_ban|]. intros ?.
    apply (emits_bind _ 0 0); [apply silent_get_next_credential|]. intros ?.
    apply (emits_bind _ 0 0); [apply silent_sleep|]. intros ?. silent.
Qed.

Lemma silent_retry_429 attempt l r : emits p 0 (retry_429 cfg attempt l r).
Proof.
  unfold retry_429. destruct (_ && _); [|silent].
  apply (emits_bind _ 0 0); [silent|]. intros ?.
  apply (emits_bind _ 0 0); [apply silent_get_next_credential|]. intros ?.
  apply (emits_bind _ 0 0); [apply silent_sleep|]. intros ?. silent.
Qed.

Lemma bounded_upstream_call call : emits p 1 (upstream_call call).
Proof.
  unfold upstream_call. apply (emits_bind _ 1 0); [apply emits_emit|].
  intros ?. silent.
Qed.

Lemma bounded_record file ok code :
  emits p 1 (record_api_call_result file ok code).
Proof.
  unfold record_api_call_result.
  destruct (nonempty file); [apply emits_emit|].
  eapply emits_weaken; [|apply emits_ret]. lia.
Qed.
End Helpers.

Section Turns.
Variable json_loads : string → option json.
Variable json_dumps : json → string.
Variable cfg : config.

Lemma calls_only e :
  is_upstream_call e = true → is_upstream_call e = true ∨ is_record e = true.
Proof. by left. Qed.

Lemma records_only e :
  is_record e = true → is_upstream_call e = true ∨ is_record e = true.
Proof. by right. Qed.

Lemma no_call_in_record file ok code :
  emits is_upstream_call 0 (record_api_call_result file ok code).
Proof. unfold record_api_call_result. emits0. Qed.

Lemma no_call_in_response code content model file :
  emits is_upstream_call 0
    (_handle_non_streaming_response json_loads json_dumps cfg code content
       model file).
Proof.
  unfold _handle_non_streaming_response. destruct (code =? 200).
  - emits0.
  - apply (emits_bind _ 0 0); [apply no_call_in_record|]. intros ?.
    apply (emits_bind _ 0 0);
      [apply (silent_handle_api_error cfg _ calls_only)|].
    intros ?. emits0.
Qed.

Lemma one_call_per_turn is_streaming url model attempt l :
  emits is_upstream_call 1
    (one_attempt json_loads json_dumps cfg is_streaming url model attempt l).
Proof.
  unfold one_attempt. apply (emits_try_except _ 1 0).
  2:{ intros msg. destruct (can_retry cfg attempt); emits0. }
  destruct is_streaming.
  - unfold streaming_attempt. apply (emits_bind _ 0 1); [emits0|]. intros _.
    apply (emits_try_except _ 1 0); [|intros msg; emits0].
    apply (emits_bind _ 1 0);
      [apply bounded_upstream_call|].
    intros [code content]. destruct (code =? 429); [|destruct (negb _)].
    + apply (emits_bind _ 0 0); [apply no_call_in_record|]. intros ?.
      apply (emits_bind _ 0 0); [emits0|]. intros ?.
      apply (emits_bind _ 0 0); [emits0|]. intros ?.
      apply (silent_retry_429 cfg _ calls_only).
    + apply (emits_bind _ 0 0); [apply no_call_in_record|]. intros ?.
      apply (emits_bind _ 0 0); [emits0|]. intros ?.
      apply (emits_bind _ 0 0); [emits0|]. intros ?.
      destruct (_ && _); [emits0|].
      destruct (_ && _); [apply (silent_refresh_or_ban _ calls_only)|].
      apply (emits_bind _ 0 0);
        [apply (silent_handle_api_error cfg _ calls_only)|].
      intros ?. emits0.
    + emits0.
  - unfold unary_attempt.
    apply (emits_bind _ 1 0);
      [apply bounded_upstream_call|].
    intros [code content]. destruct (code =? 429).
    + apply (emits_bind _ 0 0); [apply no_call_in_record|]. intros ?.
      apply (silent_retry_429 cfg _ calls_only).
    + destruct (_ && _); [emits0|]. destruct (_ && _).
      * apply (emits_bind _ 0 0); [apply no_call_in_record|]. intros ?.
        apply (silent_refresh_or_ban _ calls_only).
      * apply (emits_bind _ 0 0); [apply no_call_in_response|]. intros ?.
        emits0.
Qed.

Lemma no_record_in_call call :
  is_record call = false → emits is_record 0 (upstream_call call).
Proof.
  intros Hcall. unfold upstream_call.
  apply (emits_bind _ 0 0); [by apply emits_emit_other|]. intros ?. emits0.
Qed.

Lemma one_record_in_response code content model file :
  emits is_record 1
    (_handle_non_streaming_response json_loads json_dumps cfg code content
       model file).
Proof.
  unfold _handle_non_streaming_response. destruct (code =? 200).
  - apply (emits_try_except _ 1 0); [|intros ?; emits0].
    apply (emits_bind _ 1 0); [|intros ?; emits0].
    destruct (nonempty file);
      [|eapply emits_weaken; [|apply emits_ret]; lia].
    apply (emits_bind _ 1 0); [apply emits_emit|]. intros ?. emits0.
  - apply (emits_bind _ 1 0);
      [apply bounded_record|]. intros ?.
    apply (emits_bind _ 0 0);
      [apply (silent_handle_api_error cfg _ records_only)|].
    intros ?. emits0.
Qed.

Lemma one_record_per_turn is_streaming url model attempt l :
  emits is_record 1
    (one_attempt json_loads json_dumps cfg is_streaming url model attempt l).
Proof.
  unfold one_attempt. apply (emits_try_except _ 1 0).
  2:{ intros msg. destruct (can_retry cfg attempt); emits0. }
  destruct is_streaming.
  - unfold streaming_attempt. apply (emits_bind _ 0 1); [emits0|]. intros _.
    apply (emits_try_except _ 1 0); [|intros msg; emits0].
    apply (emits_bind _ 0 1); [by apply no_record_in_call|].
    intros [code content]. destruct (code =? 429); [|destruct (negb _)].
    + apply (emits_bind _ 1 0);
        [apply bounded_record|]. intros ?.
      apply (emits_bind _ 0 0); [emits0|]. intros ?.
      apply (emits_bind _ 0 0); [emits0|]. intros ?.
      apply (silent_retry_429 cfg _ records_only).
    + apply (emits_bind _ 1 0);
        [apply bounded_record|]. intros ?.
      apply (emits_bind _ 0 0); [emits0|]. intros ?.
      apply (emits_bind _ 0 0); [emits0|]. intros ?.
      destruct (_ && _); [emits0|].
      destruct (_ && _); [apply (silent_refresh_or_ban _ records_only)|].
      apply (emits_bind _ 0 0);
        [apply (silent_handle_api_error cfg _ records_only)|].
      intros ?. emits0.
    + eapply emits_weaken; [|apply emits_ret]. lia.
  - unfold unary_attempt.
    apply (emits_bind _ 0 1); [by apply no_record_in_call|].
    intros [code content]. destruct (code =? 429).
    + apply (emits_bind _ 1 0);
        [apply bounded_record|]. intros ?.
      apply (silent_retry_429 cfg _ records_only).
    + destruct (_ && _).
      { eapply emits_weaken; [|emits0]. lia. }
      destruct (_ && _).
      * apply (emits_bind _ 1 0);
          [apply bounded_record|]. intros ?.
        apply (silent_refresh_or_ban _ records_only).
      * apply (emits_bind _ 1 0); [apply one_record_in_response|]. intros ?.
        emits0.
Qed.

Lemma attempts_emits p is_streaming url model turns attempt l :
  (∀ attempt l,
     emits p 1
       (one_attempt json_loads json_dumps cfg is_streaming url model attempt l))
  → emits p turns
      (attempts json_loads json_dumps cfg is_streaming url model turns
         attempt l).
Proof.
  intros Hturn. revert attempt l.
  induction turns as [|turns IH]; intros attempt l; cbn [attempts].
  - apply emits_ret.
  - apply (emits_bind _ 1 turns); [apply Hturn|].
    intros [l'|r]; [apply IH|].
    eapply emits_weaken; [|apply emits_ret]. lia.
Qed.

Lemma mild_get_next_credential : mild _get_next_credential.
Proof.
  unfold _get_next_credential, get_valid_credential,
    _prepare_request_headers_and_payload.
  mild0.
Qed.

Lemma mild_upstream_call call : mild (upstream_call call).
Proof. unfold upstream_call. mild0. Qed.

Lemma mild_refresh_or_ban code l : mild (refresh_or_ban code l).
Proof.
  unfold refresh_or_ban. apply mild_bind.
  { destruct (is_auth_code code);
      [unfold force_refresh_current_token|]; mild0. }
  intros [|].
  - apply mild_bind; [apply mild_get_next_credential|]. intros ?.
    unfold sleep. mild0.
  - apply mild_bind; [unfold _handle_auto_ban; mild0|]. intros ?.
    apply mild_bind; [apply mild_get_next_credential|]. intros ?.
    unfold sleep. mild0.
Qed.

Lemma mild_retry_429 attempt l r : mild (retry_429 cfg attempt l r).
Proof.
  unfold retry_429. destruct (_ && _); [|mild0].
  apply mild_bind; [mild0|]. intros ?.
  apply mild_bind; [apply mild_get_next_credential|]. intros ?.
  unfold sleep. mild0.
Qed.

Lemma mild_record file ok code : mild (record_api_call_result file ok code).
Proof. unfold record_api_call_result. mild0. Qed.

Lemma mild_handle_api_error code file :
  mild (_handle_api_error cfg code file).
Proof. unfold _handle_api_error. mild0. Qed.

Lemma mild_response code content model file :
  mild (_handle_non_streaming_response json_loads json_dumps cfg code content
          model file).
Proof.
  unfold _handle_non_streaming_response. destruct (code =? 200).
  - mild0.
  - apply mild_bind; [apply mild_record|]. intros ?.
    apply mild_bind; [apply mild_handle_api_error|]. intros ?. mild0.
Qed.

Lemma one_attempt_safe is_streaming url model attempt l :
  safe (one_attempt json_loads json_dumps cfg is_streaming url model attempt l).
Proof.
  unfold one_attempt. apply safe_try_except.
  2:{ intros msg. destruct (can_retry cfg attempt); [|apply safe_ret].
      apply safe_bind; [intros s; by eexists|]. intros ?. apply safe_ret. }
  destruct is_streaming.
  - unfold streaming_attempt. apply mild_bind; [mild0|]. intros _.
    apply mild_try_except; [|intros msg; mild0].
    apply mild_bind; [apply mild_upstream_call|].
    intros [code content]. destruct (code =? 429); [|destruct (negb _)].
    + apply mild_bind; [apply mild_record|]. intros ?.
      apply mild_bind; [mild0|]. intros ?.
      apply mild_bind; [mild0|]. intros ?. apply mild_retry_429.
    + apply mild_bind; [apply mild_record|]. intros ?.
      apply mild_bind; [mild0|]. intros ?.
      apply mild_bind; [mild0|]. intros ?.
      destruct (_ && _); [unfold sleep; mild0|].
      destruct (_ && _); [apply mild_refresh_or_ban|].
      apply mild_bind; [apply mild_handle_api_error|]. intros ?. mild0.
    + mild0.
  - unfold unary_attempt. apply mild_bind; [apply mild_upstream_call|].
    intros [code content]. destruct (code =? 429).
    + apply mild_bind; [apply mild_record|]. intros ?. apply mild_retry_429.
    + destruct (_ && _); [unfold sleep; mild0|]. destruct (_ && _).
      * apply mild_bind; [apply mild_record|]. intros ?.
        apply mild_refresh_or_ban.
      * apply mild_bind; [apply mild_response|]. intros ?. mild0.
Qed.

Lemma attempts_safe is_streaming url model turns attempt l :
  safe (attempts json_loads json_dumps cfg is_streaming url model turns
          attempt l).
Proof.
  revert attempt l. induction turns as [|turns IH]; intros attempt l;
    cbn [attempts]; [apply safe_ret|].
  apply safe_bind; [apply one_attempt_safe|].
  intros [l'|r]; [apply IH | apply safe_ret].
Qed.

(** X29 ([send_gemini_request]). Whatever the pool, the refreshes and
    the upstream of the script do, the request returns a response (no
    exception leaves it), after at most [max_retries + 1] calls upstream
    and at most [max_retries + 1] recordings of a call result, none at all
    for a negative [max_retries]. *)
Theorem request_is_bounded model is_streaming has_manager s :
  ∃ r evs s',
    send_gemini_request json_loads json_dumps cfg model is_streaming
      has_manager s = (Ok r, evs, s')
    ∧ (count is_upstream_call evs
       ≤ Z.to_nat (retry_429_max_retries cfg + 1))%nat
    ∧ (count is_record evs ≤ Z.to_nat (retry_429_max_retries cfg + 1))%nat.
Proof.
  assert (safe (send_gemini_request json_loads json_dumps cfg model
                  is_streaming has_manager)) as Hsafe.
  { unfold send_gemini_request. destruct (negb has_manager); [apply safe_ret|].
    apply safe_bind.
    - apply safe_try_except; [|intros msg; apply safe_ret].
      unfold get_valid_credential, _prepare_request_headers_and_payload.
      mild0.
    - intros [l|r]; [apply attempts_safe | apply safe_ret]. }
  assert (∀ p,
            (∀ e, p e = true → is_upstream_call e = true ∨ is_record e = true) →
            (∀ attempt l,
               emits p 1
                 (one_attempt json_loads json_dumps cfg is_streaming
                    (target_url cfg is_streaming) model attempt l)) →
            emits p (Z.to_nat (retry_429_max_retries cfg + 1))
              (send_gemini_request json_loads json_dumps cfg model
                 is_streaming has_manager)) as Hemits.
  { intros p Hp Hturn. unfold send_gemini_request.
    destruct (negb has_manager).
    { eapply emits_weaken; [|apply emits_ret]. lia. }
    apply (emits_bind _ 0 (Z.to_nat (retry_429_max_retries cfg + 1))).
    - apply (emits_try_except _ 0 0); [|intros msg; apply emits_ret].
      apply (emits_bind _ 0 0);
        [apply (silent_get_valid_credential _ Hp)|].
      intros [[file cd]|]; [|apply emits_ret].
      apply (emits_bind _ 0 0); [apply silent_prepare|].
      intros ?. apply emits_ret.
    - intros [l|r]; [by apply attempts_emits|].
      eapply emits_weaken; [|apply emits_ret]. lia. }
  destruct (Hsafe s) as [r Hr].
  pose proof (Hemits is_upstream_call calls_only
                (one_call_per_turn is_streaming _ model) s) as Hcalls.
  pose proof (Hemits is_record records_only
                (one_record_per_turn is_streaming _ model) s) as Hrecords.
  destruct (send_gemini_request _ _ _ _ _ _ s) as [[r' evs] s'].
  cbn [fst snd] in *. subst r'. by exists r, evs, s'.
Qed.
End Turns.
End TraceBounds.

Section EngineTurnExamples.
Import Effect GoogleChatApi EngineSamples EngineScenarios.

Lemma server_error_retries_same_credential_witness :
  (upstream server_error = [Reply 503 "busy"]
   ∧ 500 ≤ 503 < 600
   ∧ Z.of_nat 0 < retry_429_max_retries conf
   ∧ current_file bound ≠ "")
  ∧ one_attempt loads dumps conf false "https://upstream.example/x" "m" 0
      bound server_error
    = (Ok (Continue bound),
       [Post "https://upstream.example/x" "ya29.token" "project-1";
        Sleep (retry_429_interval conf * inject_Z (2 ^ Z.of_nat 0))],
       drop_reply server_error).
Proof.
  assert (500 ≤ 503 < 600) as Hcode by lia.
  assert (Z.of_nat 0 < retry_429_max_retries conf) as Hleft by (simpl; lia).
  assert (current_file bound ≠ "") as Hfile by done.
  split; [done|].
  exact (server_error_retries_same_credential loads dumps conf false
           "https://upstream.example/x" "m" 0 bound server_error 503 "busy" []
           eq_refl Hcode Hleft Hfile).
Defined.

Lemma transport_error_turn_witness :
  ((∀ code content rest, upstream no_network ≠ Reply code content :: rest)
   ∧ retry_429_max_retries conf ≤ Z.of_nat 2)
  ∧ one_attempt loads dumps conf true "https://upstream.example/x" "m" 2
      bound no_network
    = (Ok (Return (ErrorResponse "Request failed: read timeout" 500)),
       [CreateStreamingClient;
        StreamEnter "https://upstream.example/x" "ya29.token" "project-1";
        ClientClose],
       drop_reply no_network).
Proof.
  assert (∀ code content rest,
            upstream no_network ≠ Reply code content :: rest) as Hno by done.
  assert (retry_429_max_retries conf ≤ Z.of_nat 2) as Hlast by (simpl; lia).
  split; [done|].
  exact (proj2 (transport_error_turn loads dumps conf true
                  "https://upstream.example/x" "m" 2 bound no_network Hno)
           Hlast).
Defined.

Lemma auto_ban_disables_and_rotates_witness :
  (upstream forbidden = [Reply 403 ""]
   ∧ (403 ∉ [400; 401; 404])
   ∧ 403 ∈ auto_ban_error_codes conf
   ∧ Z.of_nat 0 < retry_429_max_retries conf)
  ∧ one_attempt loads dumps conf false "https://upstream.example/x" "m" 0
      bound forbidden
    = (Ok (Continue next_bound),
       [Post "https://upstream.example/x" "ya29.token" "project-1";
        RecordApiCallResult "a.json" false (Some 403);
        SetCredDisabled "a.json"; ForceRotateCredential; GetValidCredential;
        Sleep (1 # 2)],
       drop_credential (drop_reply forbidden)).
Proof.
  assert (403 ≠ 429) as H429 by lia.
  assert (403 ≠ 200) as H200 by lia.
  assert (¬ 500 ≤ 403 < 600) as H5xx by lia.
  assert (403 ∉ [400; 401; 404]) as Hauth.
  { apply (bool_decide_unpack _). vm_compute. exact I. }
  assert (403 ∈ auto_ban_error_codes conf) as Hlisted.
  { apply (bool_decide_unpack _). vm_compute. exact I. }
  assert (Z.of_nat 0 < retry_429_max_retries conf) as Hleft by (simpl; lia).
  assert (current_file bound ≠ "") as Hfile by done.
  split; [done|].
  exact (auto_ban_disables_and_rotates loads dumps conf false
           "https://upstream.example/x" "m" 0 bound forbidden 403 "" []
           (Some next_bound) eq_refl H429 H200 H5xx Hauth eq_refl Hlisted
           Hleft Hfile eq_refl).
Defined.

Lemma final_error_turn_witness :
  (upstream teapot = [Reply 418 ""]
   ∧ ¬ 500 ≤ 418 < 600
   ∧ (418 ∉ auto_ban_error_codes conf))
  ∧ ∃ r,
      error_code r = Some 418
      ∧ one_attempt loads dumps conf false "https://upstream.example/x" "m" 0
          bound teapot
        = (Ok (Return r),
           [Post "https://upstream.example/x" "ya29.token" "project-1";
            RecordApiCallResult "a.json" false (Some 418)],
           drop_reply teapot).
Proof.
  assert (418 ≠ 429) as H429 by lia.
  assert (418 ≠ 200) as H200 by lia.
  assert (¬ 500 ≤ 418 < 600) as H5xx by lia.
  assert (418 ∉ auto_ban_error_codes conf) as Hnot.
  { apply (bool_decide_unpack _). vm_compute. exact I. }
  assert (current_file bound ≠ "") as Hfile by done.
  split; [done|].
  destruct (final_error_turn loads dumps conf false
              "https://upstream.example/x" "m" 0 bound teapot 418 "" []
              eq_refl H429 H200 (or_intror (conj H5xx (or_intror Hnot)))
              Hfile) as (r & Hcode & Hrun).
  exists r. split; [exact Hcode|]. exact Hrun.
Defined.

Lemma request_ends_before_any_call_witness :
  mjoin (head (credentials empty_pool)) = None
  ∧ send_gemini_request loads dumps conf "gemini-2.5-pro" true true empty_pool
    = (Ok (ErrorResponse "No valid credentials available" 500),
       [GetValidCredential], drop_credential empty_pool).
Proof.
  assert (mjoin (head (credentials empty_pool)) = None) as Hnone
    by reflexivity.
  split; [exact Hnone|].
  destruct (request_ends_before_any_call loads dumps conf "gemini-2.5-pro"
              true empty_pool) as (_ & Hpool & _).
  exact (Hpool Hnone).
Defined.
End EngineTurnExamples.
